(** * Redfish dump reports: a shallow embedding and its properties

    The repository holds five report scripts that walk a directory of
    JSON documents dumped from Redfish endpoints
    ([report_device_type.py], [report_fans.py], [report_power.py],
    [report_raid.py], [report_temperature.py]) and an older copy of the
    power report ([script.py]).  This file embeds the functions of those
    scripts as Rocq functions over decoded JSON values and proves the
    properties of the walks. *)

From Stdlib Require Import List String Ascii ZArith QArith Lia Bool.
From Stdlib Require Import Permutation Sorted.
Import ListNotations.
Local Open Scope string_scope.
Local Open Scope Z_scope.

(** ** Decoded JSON values

    [json.load] yields [None], [bool], [int], [float], [str], [list] and
    [dict] (string keys, insertion order).  A dict is kept as the list of
    its items; a decoded dict has no two items with one key, and
    [dict_get] returns the item a Python lookup returns on such a list. *)

#[local] Set Warnings "-register-all".

Inductive json : Type :=
| JNull
| JBool (b : bool)
| JInt (n : Z)
| JFloat (x : Q)
| JStr (s : string)
| JArr (items : list json)
| JObj (fields : list (string * json)).

(** Positional arguments of [safe_get]: field names and integer indices. *)
Inductive key : Type :=
| KStr (name : string)
| KInt (index : Z).

(** ** Exceptions

    The scripts catch [json.JSONDecodeError], [IOError] and, in
    [_read_json], [Exception] around file reads only; every other
    exception of a Python operation leaves the function.  The last four
    are raised by reading a file: [OSError] by [Path.exists], and
    [UnicodeDecodeError], [ValueError] and [RecursionError] by
    [json.load]. *)

Inductive exn : Type :=
| AttributeError
| TypeError
| KeyError
| IndexError
| OSError
| UnicodeDecodeError
| ValueError
| RecursionError.

Inductive res (A : Type) : Type :=
| Ok (a : A)
| Raise (e : exn).
Arguments Ok {A} a.
Arguments Raise {A} e.

Definition bind {A B : Type} (m : res A) (f : A -> res B) : res B :=
  match m with
  | Ok a => f a
  | Raise e => Raise e
  end.

Notation "x <- m ;; k" := (bind m (fun x => k))
  (at level 61, m at next level, right associativity).

(** A [for] loop whose body may raise: the state is threaded left to
    right and the first exception ends the loop. *)
Fixpoint for_each {A S : Type} (body : S -> A -> res S) (xs : list A) (st : S)
  : res S :=
  match xs with
  | [] => Ok st
  | x :: rest => st' <- body st x ;; for_each body rest st'
  end.

(** ** Python operations on decoded values *)

(** [bool(v)], as tested by [if v], [not v] and [v or w]. *)
Definition truthy (v : json) : bool :=
  match v with
  | JNull => false
  | JBool b => b
  | JInt n => negb (n =? 0)
  | JFloat x => negb (Qnum x =? 0)
  | JStr s => negb (String.eqb s "")
  | JArr items => match items with [] => false | _ => true end
  | JObj fields => match fields with [] => false | _ => true end
  end.

(** [a or b] *)
Definition py_or (a b : json) : json := if truthy a then a else b.

(** [v is None] *)
Definition is_none (v : json) : bool :=
  match v with JNull => true | _ => false end.

Fixpoint dict_get (fields : list (string * json)) (k : string) : option json :=
  match fields with
  | [] => None
  | (k', v) :: rest => if String.eqb k' k then Some v else dict_get rest k
  end.

(** [d.get(k, default)] on a dict; a decoded dict has string keys only, so
    an integer key is never found. *)
Definition dict_get_key (fields : list (string * json)) (k : key) (default : json)
  : json :=
  match k with
  | KStr name => match dict_get fields name with Some v => v | None => default end
  | KInt _ => default
  end.

(** [v.get(k, default)] as a method call: only a dict has the method. *)
Definition py_get (v : json) (k : string) (default : json) : res json :=
  match v with
  | JObj fields => Ok (dict_get_key fields (KStr k) default)
  | _ => Raise AttributeError
  end.

(** The characters of a string, one per byte: a string is kept as its
    bytes, so the list is the one of the code on ASCII text. *)
Fixpoint chars (s : string) : list json :=
  match s with
  | EmptyString => []
  | String c rest => JStr (String c EmptyString) :: chars rest
  end.

(** [for x in v]: the elements of a list, the keys of a dict, the
    characters of a string; anything else is not iterable. *)
Definition py_iter (v : json) : res (list json) :=
  match v with
  | JArr items => Ok items
  | JObj fields => Ok (map (fun kv => JStr (fst kv)) fields)
  | JStr s => Ok (chars s)
  | _ => Raise TypeError
  end.

(** [len(v)] *)
Definition py_len (v : json) : res Z :=
  match v with
  | JArr items => Ok (Z.of_nat (List.length items))
  | JObj fields => Ok (Z.of_nat (List.length fields))
  | JStr s => Ok (Z.of_nat (String.length s))
  | _ => Raise TypeError
  end.

(** ** Strings *)

Definition slash : ascii := "/"%char.

(** [s.rstrip("/")] *)
Fixpoint rstrip_slash (s : string) : string :=
  match s with
  | EmptyString => EmptyString
  | String c rest =>
      match rstrip_slash rest with
      | EmptyString => if Ascii.eqb c slash then EmptyString else String c EmptyString
      | r => String c r
      end
  end.

(** [s.split("/")]: never the empty list, [[""]] for the empty string. *)
Fixpoint split_slash (s : string) : list string :=
  match s with
  | EmptyString => [EmptyString]
  | String c rest =>
      if Ascii.eqb c slash then EmptyString :: split_slash rest
      else match split_slash rest with
           | [] => [String c EmptyString]
           | seg :: segs => String c seg :: segs
           end
  end.

(** [c.lower()] on the ASCII letters; the scripts lower-case Redfish
    enumeration values and controller names.  A string is kept as its
    bytes, and the bytes of a letter outside ASCII, which [str.lower]
    maps as well, are left as they are: the result is the one of the
    code on ASCII text only.  On any text, neither this function nor
    [str.lower] leaves a capital letter [A] to [Z] in the result. *)
Definition lower_ascii (c : ascii) : ascii :=
  let n := nat_of_ascii c in
  if (Nat.leb 65 n && Nat.leb n 90)%bool then ascii_of_nat (n + 32) else c.

Fixpoint lower (s : string) : string :=
  match s with
  | EmptyString => EmptyString
  | String c rest => String (lower_ascii c) (lower rest)
  end.

(** [v.lower()]: a method of [str] only. *)
Definition py_lower (v : json) : res string :=
  match v with
  | JStr s => Ok (lower s)
  | _ => Raise AttributeError
  end.

Fixpoint prefixb (p s : string) : bool :=
  match p, s with
  | EmptyString, _ => true
  | String a p', String b s' => (Ascii.eqb a b && prefixb p' s')%bool
  | String _ _, EmptyString => false
  end.

(** [p in s] for strings *)
Fixpoint contains (p s : string) : bool :=
  (prefixb p s ||
   match s with
   | EmptyString => false
   | String _ rest => contains p rest
   end)%bool.

(** ** Indexing *)

Definition is_dict (v : json) : bool :=
  match v with JObj _ => true | _ => false end.

Definition is_list (v : json) : bool :=
  match v with JArr _ => true | _ => false end.

(** [items[i]] on a sequence: a negative index counts from the end and
    [IndexError] is raised outside [-len, len). *)
Definition py_index (items : list json) (i : Z) : res json :=
  let n := Z.of_nat (List.length items) in
  if ((0 <=? i) && (i <? n))%bool then Ok (nth (Z.to_nat i) items JNull)
  else if ((- n <=? i) && (i <? 0))%bool then Ok (nth (Z.to_nat (n + i)) items JNull)
  else Raise IndexError.

(** [v[k]] *)
Definition py_getitem (v : json) (k : key) : res json :=
  match v, k with
  | JArr items, KInt i => py_index items i
  | JStr s, KInt i => py_index (chars s) i
  | JObj fields, KStr name =>
      match dict_get fields name with
      | Some x => Ok x
      | None => Raise KeyError
      end
  | JObj _, KInt _ => Raise KeyError
  | _, _ => Raise TypeError
  end.

(** [v.get(k, default)] with a key of either kind. *)
Definition py_get_key (v : json) (k : key) (default : json) : res json :=
  match v with
  | JObj fields => Ok (dict_get_key fields k default)
  | _ => Raise AttributeError
  end.

(** ** Safe navigation

    [safe_get] of [report_raid.py], [report_fans.py], [report_power.py],
    [report_temperature.py] and [report_device_type.py] (one text in all
    five).  One turn of its loop either returns from the function or
    goes on with a new [current]. *)

Inductive flow : Type :=
| Return (v : json)
| Next (current : json).

Definition safe_get_step (current : json) (k : key) (default : json)
  : res flow :=
  let checked (c : json) := if is_none c then Return default else Next c in
  if is_dict current then
    c <- py_get_key current k default ;; Ok (checked c)
  else if is_list current then
    match k with
    | KInt i =>
        n <- py_len current ;;
        if ((0 <=? i) && (i <? n))%bool
        then c <- py_getitem current k ;; Ok (checked c)
        else Ok (Return default)
    | KStr _ => Ok (Return default)
    end
  else Ok (Return default).

Fixpoint safe_get (data : json) (keys : list key) (default : json) : res json :=
  match keys with
  | [] => Ok data
  | k :: rest =>
      f <- safe_get_step data k default ;;
      match f with
      | Return v => Ok v
      | Next current => safe_get current rest default
      end
  end.

(** [safe_get] of [script.py].  The index test has no lower bound, so a
    negative index reaches [current[key]]. *)

Definition safe_get_script_step (current : json) (k : key) (default : json)
  : res flow :=
  if is_dict current then
    c <- py_get_key current k JNull ;;
    Ok (if is_none c then Return default else Next c)
  else if is_list current then
    n <- py_len current ;;
    if 0 <? n then
      match k with
      | KInt i =>
          if i <? n
          then c <- py_getitem current k ;; Ok (Next c)
          else Ok (Return default)
      | KStr _ => Ok (Return default)
      end
    else Ok (Return default)
  else Ok (Return default).

Fixpoint safe_get_script (data : json) (keys : list key) (default : json)
  : res json :=
  match keys with
  | [] => Ok (if is_none data then default else data)
  | k :: rest =>
      f <- safe_get_script_step data k default ;;
      match f with
      | Return v => Ok v
      | Next current => safe_get_script current rest default
      end
  end.

(** ** Reference resolution

    [_last_segment] ([report_raid.py], [report_temperature.py],
    [report_device_type.py]) and [extract_chassis_id] ([script.py],
    [report_power.py], [report_fans.py]) have one body.  The argument is
    whatever [safe_get] or [.get] returned; [rstrip] is a method of [str]
    only.  The result is [None] or a string, as the annotation
    [str | None] says. *)

Definition py_rstrip_slash (v : json) : res string :=
  match v with
  | JStr s => Ok (rstrip_slash s)
  | _ => Raise AttributeError
  end.

Definition _last_segment (odata_id : json) : res (option string) :=
  if negb (truthy odata_id) then Ok None
  else
    s <- py_rstrip_slash odata_id ;;
    let parts := split_slash s in
    Ok (match parts with
        | [] => None
        | _ => Some (last parts EmptyString)
        end).

Definition extract_chassis_id (member_ref : json) : res (option string) :=
  _last_segment member_ref.

(** [not x] for an identifier: [None] and the empty string are falsy. *)
Definition id_truthy (x : option string) : bool :=
  match x with
  | Some s => negb (String.eqb s "")
  | None => false
  end.

(** ** Document loading

    A host directory maps a relative path, given by its components, to
    what reading the file there gives: with [exists()], [open] and
    [json.load] in this order,
    - [Ok (Some v)]: the file exists and decodes to [v];
    - [Ok None]: [exists()] is false, or [open] or [json.load] raises
      [IOError] or [json.JSONDecodeError], which every reader of the
      scripts catches;
    - [Raise e]: the read raises something else: [exists()] raises an
      [OSError] it does not absorb, or [json.load] raises
      [UnicodeDecodeError], [ValueError] or [RecursionError].
    [_read_json] wraps the whole read in [except Exception] and turns
    the last two into Python's [None], which is also what a file holding
    [null] decodes to.  The power and fan reports call [exists()]
    outside their [try] and catch [(json.JSONDecodeError, IOError)]
    only, so there the last case leaves the function. *)

Definition path : Type := list string.
Definition host_dir : Type := path -> res (option json).

Definition _read_json (host : host_dir) (p : path) : json :=
  match host p with
  | Ok (Some v) => v
  | _ => JNull
  end.

(** ** Capacity conversion

    [num_bytes / (1024 ** 3)] is the double nearest to the quotient; the
    divisor is a power of two, so the double is [m / 2^30] with [m] the
    integer nearest to [num_bytes] that has 53 significant bits.
    [round(x, 2)] is the double nearest to the decimal with two places
    that is nearest to [x], halves going to the even neighbour; the
    result is kept as that decimal, counted in hundredths.  A count
    beyond the range of a double, where the division raises
    [OverflowError], is outside the model, and so is the sign of a
    zero: a negative count that rounds to zero gives [-0.0] in the
    code. *)

Inductive gib : Type :=
| Hundredths (k : Z).

(** nearest integer to [a / b] for [0 < b], halves to the even one *)
Definition round_half_even (a b : Z) : Z :=
  let q := a / b in
  let r := a mod b in
  if 2 * r <? b then q
  else if b <? 2 * r then q + 1
  else if Z.even q then q else q + 1.

Definition nearest_double (n : Z) : Z :=
  if Z.abs n <? 2 ^ 53 then n
  else
    let shift := Z.log2 (Z.abs n) - 52 in
    round_half_even n (2 ^ shift) * 2 ^ shift.

(** [isinstance(v, int)]: [bool] is a subclass of [int]. *)
Definition int_value (v : json) : option Z :=
  match v with
  | JInt n => Some n
  | JBool b => Some (if b then 1 else 0)
  | _ => None
  end.

Definition _bytes_to_gib (num_bytes : json) : option gib :=
  match int_value num_bytes with
  | Some n => Some (Hundredths (round_half_even (100 * nearest_double n) (2 ^ 30)))
  | None => None
  end.

(** ** Text of values

    An f-string field [{v}] holds [str(v)].  For [None], booleans,
    integers and strings the text is fixed here; the text of a float and
    of a list or dict (the [repr] of its parts) is taken from the
    [formatter]. *)

Definition digit_char (d : Z) : ascii := ascii_of_nat (48 + Z.to_nat d).

Fixpoint digits (fuel : nat) (n : Z) (acc : string) : string :=
  match fuel with
  | O => acc
  | S fuel' =>
      let acc' := String (digit_char (n mod 10)) acc in
      if n <? 10 then acc' else digits fuel' (n / 10) acc'
  end.

(** decimal text of [n >= 0]; [n] has at most [log2 n + 1] digits *)
Definition nat_str (n : Z) : string :=
  digits (S (Z.to_nat (Z.log2 n))) n "".

Definition int_str (n : Z) : string :=
  if n <? 0 then "-" ++ nat_str (- n) else nat_str n.

Record formatter : Type := {
  str_float : Q -> string;
  str_gib : gib -> string;
  str_container : json -> string
}.

Definition py_str (fmt : formatter) (v : json) : string :=
  match v with
  | JNull => "None"
  | JBool true => "True"
  | JBool false => "False"
  | JInt n => int_str n
  | JFloat x => str_float fmt x
  | JStr s => s
  | _ => str_container fmt v
  end.

(** [", ".join(parts)] on strings *)
Fixpoint join_comma (parts : list string) : string :=
  match parts with
  | [] => ""
  | [x] => x
  | x :: rest => x ++ ", " ++ join_comma rest
  end.

Fixpoint all_str (items : list json) : option (list string) :=
  match items with
  | [] => Some []
  | JStr s :: rest =>
      match all_str rest with
      | Some l => Some (s :: l)
      | None => None
      end
  | _ :: _ => None
  end.

(** [", ".join(v)]: [v] must be iterable and yield strings only. *)
Definition py_join_comma (v : json) : res string :=
  parts <- py_iter v ;;
  match all_str parts with
  | Some l => Ok (join_comma l)
  | None => Raise TypeError
  end.

(** ** Output

    [print] appends a line to standard output; an exception ends the
    run and leaves the lines printed before it. *)

Definition io (A : Type) : Type := list string -> list string * res A.

Definition io_ret {A : Type} (a : A) : io A := fun out => (out, Ok a).

Definition io_bind {A B : Type} (m : io A) (f : A -> io B) : io B :=
  fun out =>
    match m out with
    | (out', Ok a) => f a out'
    | (out', Raise e) => (out', Raise e)
    end.

Definition print (line : string) : io unit :=
  fun out => ((out ++ [line])%list, Ok tt).

Definition lift {A : Type} (m : res A) : io A := fun out => (out, m).

Fixpoint io_for {A : Type} (body : A -> io unit) (xs : list A) : io unit :=
  match xs with
  | [] => io_ret tt
  | x :: rest => io_bind (body x) (fun _ => io_for body rest)
  end.

(** ** Directory scan

    [base_dir.iterdir()] and [datacenter_dir.iterdir()] enumerate the
    entries of a directory in the order the file system yields them.  A
    snapshot is the list of the entries of the dump directory in that
    order, each with its own entries in that order. *)

Record dir_entry : Type := {
  entry_name : string;
  entry_is_dir : bool;
  entry_files : host_dir
}.

Record datacenter_entry : Type := {
  dc_name : string;
  dc_is_dir : bool;
  dc_listing : list dir_entry
}.

Definition snapshot : Type := list datacenter_entry.

(** [sorted(datacenter_dir.iterdir())]: the entries of one directory,
    ordered by name. *)
Fixpoint insert_entry (e : dir_entry) (l : list dir_entry) : list dir_entry :=
  match l with
  | [] => [e]
  | y :: rest =>
      if String.leb (entry_name e) (entry_name y) then e :: l
      else y :: insert_entry e rest
  end.

Fixpoint sorted_entries (l : list dir_entry) : list dir_entry :=
  match l with
  | [] => []
  | e :: rest => insert_entry e (sorted_entries rest)
  end.

Section Scan.

Context {result : Type}.

(** [get_..._information(host_dir, datacenter_dir.name)] of the report;
    [host_dir.name] comes with the directory. *)
Variable get : host_dir -> string -> string -> res result.

Definition scan_host (dc : string) (all_results : list result) (h : dir_entry)
  : res (list result) :=
  if negb (entry_is_dir h) then Ok all_results
  else
    r <- get (entry_files h) (entry_name h) dc ;;
    Ok (all_results ++ [r])%list.

Definition scan_datacenter (all_results : list result) (d : datacenter_entry)
  : res (list result) :=
  if negb (dc_is_dir d) then Ok all_results
  else for_each (scan_host (dc_name d)) (sorted_entries (dc_listing d)) all_results.

(** The two nested loops that fill [all_results]. *)
Definition collect (s : snapshot) : res (list result) :=
  for_each scan_datacenter s [].

(** [main]: collect, then display. *)
Definition run_report (display : result -> io unit) (s : snapshot)
  : list string * res unit :=
  match collect s with
  | Ok all_results => io_for display all_results []
  | Raise e => ([], Raise e)
  end.

End Scan.

Definition power_states_str (states : list string) : string :=
  match states with
  | [] => "NA"
  | _ => join_comma states
  end.

(** ** The RAID report ([report_raid.py]) *)

Module ReportRaid.

Record controller : Type := {
  name : json;
  model : json;
  supported_raid_types : json
}.

Record volume : Type := {
  vol_name : json;
  raid_type : json;
  capacity_bytes : json;
  capacity_gib : option gib;
  drives : list string
}.

Record result : Type := {
  datacenter : string;
  hostname : string;
  raid_detected : bool;
  raid_capable : bool;
  message : string;
  controllers : list controller;
  volumes : list volume
}.

Definition set_message (r : result) (m : string) : result :=
  {| datacenter := datacenter r; hostname := hostname r;
     raid_detected := raid_detected r; raid_capable := raid_capable r;
     message := m; controllers := controllers r; volumes := volumes r |}.

Definition set_raid_capable (r : result) (b : bool) : result :=
  {| datacenter := datacenter r; hostname := hostname r;
     raid_detected := raid_detected r; raid_capable := b;
     message := message r; controllers := controllers r; volumes := volumes r |}.

Definition set_raid_detected (r : result) (b : bool) : result :=
  {| datacenter := datacenter r; hostname := hostname r;
     raid_detected := b; raid_capable := raid_capable r;
     message := message r; controllers := controllers r; volumes := volumes r |}.

Definition append_controller (r : result) (c : controller) : result :=
  {| datacenter := datacenter r; hostname := hostname r;
     raid_detected := raid_detected r; raid_capable := raid_capable r;
     message := message r; controllers := (controllers r ++ [c])%list;
     volumes := volumes r |}.

Definition append_volume (r : result) (v : volume) : result :=
  {| datacenter := datacenter r; hostname := hostname r;
     raid_detected := raid_detected r; raid_capable := raid_capable r;
     message := message r; controllers := controllers r;
     volumes := (volumes r ++ [v])%list |}.

(** Body of [for ctrl in controllers]. *)
Definition controller_body (r : result) (ctrl : json) : res result :=
  sup <- safe_get ctrl [KStr "SupportedRAIDTypes"] (JArr []) ;;
  let supported := py_or sup (JArr []) in
  n <- safe_get ctrl [KStr "Name"] JNull ;;
  nm <- (if truthy n then Ok n
         else m <- safe_get ctrl [KStr "Model"] JNull ;;
              Ok (py_or m (JStr "Controller"))) ;;
  md <- safe_get ctrl [KStr "Model"] JNull ;;
  d <- safe_get ctrl [KStr "Description"] JNull ;;
  let description := py_or d (JStr "") in
  let r1 :=
    append_controller r
      {| name := nm; model := md; supported_raid_types := supported |} in
  capable <-
    (if is_list supported then
       len <- py_len supported ;;
       if 0 <? len then Ok true
       else
         ln <- py_lower nm ;;
         if contains "raid" ln then Ok true
         else ld <- py_lower description ;; Ok (contains "raid" ld)
     else
       ln <- py_lower nm ;;
       if contains "raid" ln then Ok true
       else ld <- py_lower description ;; Ok (contains "raid" ld)) ;;
  Ok (if capable then set_raid_capable r1 true else r1).

(** Body of [for d in drive_links]. *)
Definition drive_body (drive_ids : list string) (d : json) : res (list string) :=
  d_ref <- safe_get d [KStr "@odata.id"] JNull ;;
  d_id <- _last_segment d_ref ;;
  match d_id with
  | Some s => Ok (if id_truthy d_id then (drive_ids ++ [s])%list else drive_ids)
  | None => Ok drive_ids
  end.

(** Body of [for vmem in volume_members].  The path of the volume
    document is composed with the literal ["Storage"]. *)
Definition volume_body (host : host_dir) (system_id storage_id : string)
  (r : result) (vmem : json) : res result :=
  vol_ref <- safe_get vmem [KStr "@odata.id"] JNull ;;
  vol_id <- _last_segment vol_ref ;;
  match vol_id with
  | None => Ok r
  | Some vid =>
      if negb (id_truthy vol_id) then Ok r
      else
        let vol_path :=
          ["Systems"; system_id; "Storage"; storage_id; "Volumes"; vid ++ ".json"] in
        let vol := _read_json host vol_path in
        if negb (truthy vol) then Ok r
        else
          vname <- safe_get vol [KStr "Name"] JNull ;;
          vol_raid <- safe_get vol [KStr "RAIDType"] JNull ;;
          vol_cap_bytes <- safe_get vol [KStr "CapacityBytes"] JNull ;;
          let vol_cap_gib := _bytes_to_gib vol_cap_bytes in
          dl <- safe_get vol [KStr "Links"; KStr "Drives"] (JArr []) ;;
          let drive_links := py_or dl (JArr []) in
          links <- py_iter drive_links ;;
          drive_ids <- for_each drive_body links [] ;;
          let r1 :=
            append_volume r
              {| vol_name := vname; raid_type := vol_raid;
                 capacity_bytes := vol_cap_bytes; capacity_gib := vol_cap_gib;
                 drives := drive_ids |} in
          Ok (set_raid_detected r1 (negb (is_none vol_raid)))
  end.

(** Body of [for member in storage_members]. *)
Definition storage_body (host : host_dir) (system_id storage_dir_name : string)
  (r : result) (member : json) : res result :=
  storage_ref <- safe_get member [KStr "@odata.id"] JNull ;;
  storage_id <- _last_segment storage_ref ;;
  match storage_id with
  | None => Ok r
  | Some sid =>
      if negb (id_truthy storage_id) then Ok r
      else
        let storage_path :=
          ["Systems"; system_id; storage_dir_name; sid ++ ".json"] in
        let storage := _read_json host storage_path in
        if negb (truthy storage) then Ok r
        else
          cs <- safe_get storage [KStr "StorageControllers"] (JArr []) ;;
          ctrls <- py_iter (py_or cs (JArr [])) ;;
          r1 <- for_each controller_body ctrls r ;;
          volumes_ref <- safe_get storage [KStr "Volumes"; KStr "@odata.id"] JNull ;;
          if negb (truthy volumes_ref) then Ok r1
          else
            let volumes_path :=
              ["Systems"; system_id; storage_dir_name; sid; "Volumes.json"] in
            let volumes_collection := _read_json host volumes_path in
            if negb (truthy volumes_collection) then Ok r1
            else
              vm <- safe_get volumes_collection [KStr "Members"] (JArr []) ;;
              volume_members <- py_iter (py_or vm (JArr [])) ;;
              for_each (volume_body host system_id sid) volume_members r1
  end.

(** The [if]/[elif]/[else] that ends [get_raid_information]. *)
Definition classify (r : result) : string :=
  if raid_detected r then "Hardware RAID detected"
  else if raid_capable r then
    match volumes r with
    | _ :: _ => "RAID-capable controller with volumes in HBA mode"
    | [] => "RAID supported but not configured"
    end
  else "No hardware RAID detected (possible HBA or software RAID)".

Definition initial (dc hn : string) : result :=
  {| datacenter := dc; hostname := hn; raid_detected := false;
     raid_capable := false; message := ""; controllers := []; volumes := [] |}.

Definition no_systems : string := "No systems info exposed via Redfish".
Definition no_storage : string := "No storage info exposed via Redfish".

Definition get_raid_information (host : host_dir) (hn dc : string) : res result :=
  let result := initial dc hn in
  let systems := _read_json host ["Systems.json"] in
  if negb (truthy systems) then Ok (set_message result no_systems)
  else
    ms <- safe_get systems [KStr "Members"] (JArr []) ;;
    let members := py_or ms (JArr []) in
    if negb (truthy members) then Ok (set_message result no_systems)
    else
      first_system_ref <- safe_get members [KInt 0; KStr "@odata.id"] JNull ;;
      system_id <- _last_segment first_system_ref ;;
      match system_id with
      | None => Ok (set_message result no_systems)
      | Some sys =>
          if negb (id_truthy system_id) then Ok (set_message result no_systems)
          else
            let first := _read_json host ["Systems"; sys; "Storage.json"] in
            let '(storage_collection, storage_dir_name) :=
              if negb (truthy first)
              then (_read_json host ["Systems"; sys; "Storages.json"], "Storages")
              else (first, "Storage") in
            if negb (truthy storage_collection)
            then Ok (set_message result no_storage)
            else
              sm <- safe_get storage_collection [KStr "Members"] (JArr []) ;;
              let storage_members := py_or sm (JArr []) in
              if negb (truthy storage_members)
              then Ok (set_message result no_storage)
              else
                members' <- py_iter storage_members ;;
                r <- for_each (storage_body host sys storage_dir_name) members' result ;;
                Ok (set_message r (classify r))
      end.

Definition bool_str (b : bool) : string := if b then "True" else "False".

(** The display loop of [main]: one controller, one volume, one host. *)
Definition display_controller (fmt : formatter) (c : controller) : io unit :=
  let sup := py_or (supported_raid_types c) (JArr []) in
  io_bind (lift (if truthy sup then py_join_comma sup else Ok "-"))
    (fun sup_str =>
       print ("  controller: "
              ++ py_str fmt (py_or (name c) (py_or (model c) (JStr "Controller")))
              ++ " | supported: " ++ sup_str)).

Definition display_volume (fmt : formatter) (v : volume) : io unit :=
  let cap :=
    match capacity_gib v with
    | Some g => str_gib fmt g ++ " GiB"
    | None => "NA"
    end in
  let drives_str :=
    match drives v with
    | [] => "-"
    | _ => join_comma (drives v)
    end in
  print ("  volume: " ++ py_str fmt (py_or (vol_name v) (JStr "-"))
         ++ " | raid=" ++ py_str fmt (raid_type v)
         ++ " | capacity=" ++ cap ++ " | drives=[" ++ drives_str ++ "]").

Definition display (fmt : formatter) (r : result) : io unit :=
  let head := datacenter r ++ "/" ++ hostname r in
  let status :=
    "raid_detected=" ++ bool_str (raid_detected r)
    ++ ", raid_capable=" ++ bool_str (raid_capable r) in
  io_bind (print (head ++ ": " ++ status ++ " --> " ++ message r)) (fun _ =>
  io_bind (io_for (display_controller fmt) (controllers r)) (fun _ =>
  io_for (display_volume fmt) (volumes r))).

Definition main (fmt : formatter) (s : snapshot) : list string * res unit :=
  run_report get_raid_information (display fmt) s.


End ReportRaid.

(** ** Sorting

    [sorted(xs)] on strings orders by code point; the list that is a
    sorted rearrangement of [xs] is unique, and insertion builds it. *)

Fixpoint insert_sorted (x : string) (xs : list string) : list string :=
  match xs with
  | [] => [x]
  | y :: rest => if String.leb x y then x :: xs else y :: insert_sorted x rest
  end.

Fixpoint sorted (xs : list string) : list string :=
  match xs with
  | [] => []
  | x :: rest => insert_sorted x (sorted rest)
  end.

(** [v != "NA"] *)
Definition is_NA (v : json) : bool :=
  match v with
  | JStr s => String.eqb s "NA"
  | _ => false
  end.

(** ** The power reports ([report_power.py] and [script.py])

    The two files differ in [safe_get] only, which the walk takes as
    [sg]. *)

Module PowerWalk.

Record result : Type := {
  datacenter : string;
  hostname : string;
  redfish_version : json;
  power_states : list string;
  PowerConsumedWatts : json;
  MinConsumedWatts : json;
  MaxConsumedWatts : json;
  AverageConsumedWatts : json
}.

(** The locals [power_states] and [power_metrics_found] and the four
    entries of [result] the loop assigns. *)
Record state : Type := {
  states : list string;
  power_metrics_found : bool;
  consumed : json;
  min_consumed : json;
  max_consumed : json;
  average_consumed : json
}.

Definition add_state (st : state) (s : string) : state :=
  {| states := (states st ++ [s])%list;
     power_metrics_found := power_metrics_found st;
     consumed := consumed st; min_consumed := min_consumed st;
     max_consumed := max_consumed st; average_consumed := average_consumed st |}.

Section Walk.

Variable sg : json -> list key -> json -> res json.

(** The statements under [if not power_metrics_found]. *)
Definition read_power (host : host_dir) (chassis_id : string)
  (chassis_detail : json) (st : state) : res state :=
  power_ref <- py_get chassis_detail "Power" JNull ;;
  if (truthy power_ref && is_dict power_ref)%bool then
    loaded <- host ["Chassis"; chassis_id; "Power.json"] ;;
    match loaded with
    | None => Ok st
    | Some power_data =>
        power_control <- py_get power_data "PowerControl" (JArr []) ;;
        if truthy power_control then
          len <- py_len power_control ;;
          if 0 <? len then
            pc <- py_getitem power_control (KInt 0) ;;
            c <- sg pc [KStr "PowerConsumedWatts"] (JStr "NA") ;;
            mn <- sg pc [KStr "PowerMetrics"; KStr "MinConsumedWatts"] (JStr "NA") ;;
            mx <- sg pc [KStr "PowerMetrics"; KStr "MaxConsumedWatts"] (JStr "NA") ;;
            av <- sg pc [KStr "PowerMetrics"; KStr "AverageConsumedWatts"] (JStr "NA") ;;
            Ok {| states := states st; power_metrics_found := true;
                  consumed := c; min_consumed := mn; max_consumed := mx;
                  average_consumed := av |}
          else Ok st
        else Ok st
    end
  else Ok st.

(** Body of [for member in members]. *)
Definition member_body (host : host_dir) (st : state) (member : json)
  : res state :=
  ref <- py_get member "@odata.id" JNull ;;
  chassis_id <- extract_chassis_id ref ;;
  match chassis_id with
  | None => Ok st
  | Some cid =>
      if negb (id_truthy chassis_id) then Ok st
      else
        loaded <- host ["Chassis"; cid ++ ".json"] ;;
        match loaded with
        | None => Ok st
        | Some chassis_detail =>
            power_state <- sg chassis_detail [KStr "PowerState"] (JStr "NA") ;;
            st1 <- (if negb (is_NA power_state)
                    then s <- py_lower power_state ;; Ok (add_state st s)
                    else Ok st) ;;
            if negb (power_metrics_found st1)
            then read_power host cid chassis_detail st1
            else Ok st1
        end
  end.

Definition initial_state : state :=
  {| states := []; power_metrics_found := false;
     consumed := JStr "NA"; min_consumed := JStr "NA";
     max_consumed := JStr "NA"; average_consumed := JStr "NA" |}.

Definition make_result (dc hn : string) (version : json) (sorted_states : list string)
  (st : state) : result :=
  {| datacenter := dc; hostname := hn; redfish_version := version;
     power_states := sorted_states;
     PowerConsumedWatts := consumed st; MinConsumedWatts := min_consumed st;
     MaxConsumedWatts := max_consumed st;
     AverageConsumedWatts := average_consumed st |}.

Definition get_power_metrics (host : host_dir) (hn dc : string) : res result :=
  index <- host ["index.json"] ;;
  version <-
    match index with
    | Some index_data => sg index_data [KStr "RedfishVersion"] (JStr "NA")
    | None => Ok (JStr "NA")
    end ;;
  let unchanged := make_result dc hn version [] initial_state in
  chassis <- host ["Chassis.json"] ;;
  match chassis with
  | None => Ok unchanged
  | Some chassis_data =>
      members <- py_get chassis_data "Members" (JArr []) ;;
      if negb (truthy members) then Ok unchanged
      else
        ms <- py_iter members ;;
        st <- for_each (member_body host) ms initial_state ;;
        Ok (make_result dc hn version (sorted (states st)) st)
  end.

(** The display loop of [main], for one host. *)
Definition display (fmt : formatter) (r : result) : io unit :=
  print ("[" ++ py_str fmt (redfish_version r) ++ "] ["
         ++ power_states_str (power_states r) ++ "] "
         ++ datacenter r ++ "/" ++ hostname r ++ ": "
         ++ "PowerConsumedWatts=" ++ py_str fmt (PowerConsumedWatts r) ++ ", "
         ++ "MinConsumedWatts=" ++ py_str fmt (MinConsumedWatts r) ++ ", "
         ++ "MaxConsumedWatts=" ++ py_str fmt (MaxConsumedWatts r) ++ ", "
         ++ "AverageConsumedWatts=" ++ py_str fmt (AverageConsumedWatts r)).

Definition main (fmt : formatter) (s : snapshot) : list string * res unit :=
  run_report get_power_metrics (display fmt) s.


End Walk.
End PowerWalk.

Module ReportPower.
Definition get_power_metrics := PowerWalk.get_power_metrics safe_get.
Definition main := PowerWalk.main safe_get.
End ReportPower.

Module Script.
Definition get_power_metrics := PowerWalk.get_power_metrics safe_get_script.
Definition main := PowerWalk.main safe_get_script.
End Script.

(** ** The fan report ([report_fans.py]) *)

Module ReportFans.

Record fan : Type := {
  name : json;
  reading_rpm : json
}.

Record result : Type := {
  datacenter : string;
  hostname : string;
  power_states : list string;
  fans : list fan
}.

Definition add_state (r : result) (s : string) : result :=
  {| datacenter := datacenter r; hostname := hostname r;
     power_states := (power_states r ++ [s])%list; fans := fans r |}.

Definition add_fan (r : result) (f : fan) : result :=
  {| datacenter := datacenter r; hostname := hostname r;
     power_states := power_states r; fans := (fans r ++ [f])%list |}.

(** Body of [for fan in fans]. *)
Definition fan_body (r : result) (f : json) : res result :=
  fan_name <- safe_get f [KStr "Name"] (JStr "NA") ;;
  fan_reading <- safe_get f [KStr "Reading"] (JStr "NA") ;;
  Ok (add_fan r {| name := fan_name; reading_rpm := fan_reading |}).

(** Body of [for member in members]. *)
Definition member_body (host : host_dir) (r : result) (member : json)
  : res result :=
  ref <- py_get member "@odata.id" JNull ;;
  chassis_id <- extract_chassis_id ref ;;
  match chassis_id with
  | None => Ok r
  | Some cid =>
      if negb (id_truthy chassis_id) then Ok r
      else
        loaded <- host ["Chassis"; cid ++ ".json"] ;;
        match loaded with
        | None => Ok r
        | Some chassis_detail =>
            power_state <- safe_get chassis_detail [KStr "PowerState"] (JStr "NA") ;;
            r1 <- (if negb (is_NA power_state)
                   then s <- py_lower power_state ;; Ok (add_state r s)
                   else Ok r) ;;
            thermal_ref <- py_get chassis_detail "Thermal" JNull ;;
            if (truthy thermal_ref && is_dict thermal_ref)%bool then
              thermal <- host ["Chassis"; cid; "Thermal.json"] ;;
              match thermal with
              | None => Ok r1
              | Some thermal_data =>
                  fs <- py_get thermal_data "Fans" (JArr []) ;;
                  fl <- py_iter fs ;;
                  for_each fan_body fl r1
              end
            else Ok r1
        end
  end.

Definition initial (dc hn : string) : result :=
  {| datacenter := dc; hostname := hn; power_states := []; fans := [] |}.

Definition get_fan_metrics (host : host_dir) (hn dc : string) : res result :=
  let result := initial dc hn in
  chassis <- host ["Chassis.json"] ;;
  match chassis with
  | None => Ok result
  | Some chassis_data =>
      members <- py_get chassis_data "Members" (JArr []) ;;
      if negb (truthy members) then Ok result
      else
        ms <- py_iter members ;;
        for_each (member_body host) ms result
  end.

(** The display loop of [main], for one host. *)
Definition display_fan (fmt : formatter) (f : fan) : io unit :=
  print ("  " ++ py_str fmt (name f) ++ ": " ++ py_str fmt (reading_rpm f) ++ " RPM").

Definition display (fmt : formatter) (r : result) : io unit :=
  let head :=
    "[" ++ power_states_str (power_states r) ++ "] "
    ++ datacenter r ++ "/" ++ hostname r ++ ":" in
  match fans r with
  | [] => print (head ++ " No fan information available")
  | _ => io_bind (print head) (fun _ => io_for (display_fan fmt) (fans r))
  end.

Definition main (fmt : formatter) (s : snapshot) : list string * res unit :=
  run_report get_fan_metrics (display fmt) s.


End ReportFans.

(** ** The temperature report ([report_temperature.py]) *)

Module ReportTemperature.

Record sensor : Type := {
  chassis_id : string;
  name : json;
  reading : json;
  physical_context : json
}.

Record result : Type := {
  datacenter : string;
  hostname : string;
  power_states : list string;
  temperatures : list sensor;
  message : string
}.

Definition add_state (r : result) (s : string) : result :=
  {| datacenter := datacenter r; hostname := hostname r;
     power_states := (power_states r ++ [s])%list;
     temperatures := temperatures r; message := message r |}.

Definition add_sensor (r : result) (x : sensor) : result :=
  {| datacenter := datacenter r; hostname := hostname r;
     power_states := power_states r;
     temperatures := (temperatures r ++ [x])%list; message := message r |}.

Definition set_message (r : result) (m : string) : result :=
  {| datacenter := datacenter r; hostname := hostname r;
     power_states := power_states r; temperatures := temperatures r;
     message := m |}.

(** Body of [for temp_sensor in temperatures]. *)
Definition sensor_body (cid : string) (r : result) (temp_sensor : json)
  : res result :=
  rd <- safe_get temp_sensor [KStr "ReadingCelsius"] (JStr "NA") ;;
  nm <- safe_get temp_sensor [KStr "Name"] (JStr "-") ;;
  pc <- safe_get temp_sensor [KStr "PhysicalContext"] (JStr "-") ;;
  Ok (add_sensor r {| chassis_id := cid; name := nm; reading := rd;
                      physical_context := pc |}).

(** Body of [for member in members].  Only the power state is read
    under [if chassis_detail]; [Thermal.json] is read whatever the
    chassis document was. *)
Definition member_body (host : host_dir) (r : result) (member : json)
  : res result :=
  chassis_ref <- safe_get member [KStr "@odata.id"] JNull ;;
  cid_opt <- _last_segment chassis_ref ;;
  match cid_opt with
  | None => Ok r
  | Some cid =>
      if negb (id_truthy cid_opt) then Ok r
      else
        let chassis_detail := _read_json host ["Chassis"; cid ++ ".json"] in
        r1 <- (if truthy chassis_detail then
                 power_state <- safe_get chassis_detail [KStr "PowerState"] (JStr "NA") ;;
                 if negb (is_NA power_state)
                 then s <- py_lower power_state ;; Ok (add_state r s)
                 else Ok r
               else Ok r) ;;
        let thermal_data := _read_json host ["Chassis"; cid; "Thermal.json"] in
        if negb (truthy thermal_data) then Ok r1
        else
          ts <- safe_get thermal_data [KStr "Temperatures"] (JArr []) ;;
          tl <- py_iter (py_or ts (JArr [])) ;;
          for_each (sensor_body cid) tl r1
  end.

Definition initial (dc hn : string) : result :=
  {| datacenter := dc; hostname := hn; power_states := [];
     temperatures := []; message := "" |}.

Definition get_temperature_information (host : host_dir) (hn dc : string)
  : res result :=
  let result := initial dc hn in
  let chassis_data := _read_json host ["Chassis.json"] in
  if negb (truthy chassis_data)
  then Ok (set_message result "No chassis info exposed via Redfish")
  else
    ms <- safe_get chassis_data [KStr "Members"] (JArr []) ;;
    let members := py_or ms (JArr []) in
    if negb (truthy members)
    then Ok (set_message result "No chassis members exposed via Redfish")
    else
      ml <- py_iter members ;;
      r <- for_each (member_body host) ml result ;;
      Ok (set_message r
            (match temperatures r with
             | [] => "No temperature sensors found"
             | _ =>
                 "Found " ++ nat_str (Z.of_nat (List.length (temperatures r)))
                 ++ " temperature sensor(s)"
             end)).

(** The degree sign of ["°C"], in UTF-8. *)
Definition degree : string :=
  String (ascii_of_nat 194) (String (ascii_of_nat 176) EmptyString).

(** The display loop of [main], for one host. *)
Definition display_sensor (fmt : formatter) (t : sensor) : io unit :=
  print ("  [" ++ chassis_id t ++ "] " ++ py_str fmt (name t) ++ ": "
         ++ py_str fmt (reading t) ++ degree ++ "C "
         ++ "(Context: " ++ py_str fmt (physical_context t) ++ ")").

Definition display (fmt : formatter) (r : result) : io unit :=
  io_bind
    (print ("[" ++ power_states_str (power_states r) ++ "] "
            ++ datacenter r ++ "/" ++ hostname r ++ ": " ++ message r))
    (fun _ => io_for (display_sensor fmt) (temperatures r)).

Definition main (fmt : formatter) (s : snapshot) : list string * res unit :=
  run_report get_temperature_information (display fmt) s.


End ReportTemperature.

(** ** The device type report ([report_device_type.py]) *)

Module ReportDeviceType.

Record chassis : Type := {
  chassis_id : string;
  chassis_type : json;
  manufacturer : json;
  model : json;
  serial : json
}.

Record result : Type := {
  datacenter : string;
  hostname : string;
  chassis_info : list chassis;
  message : string
}.

Definition add_chassis (r : result) (c : chassis) : result :=
  {| datacenter := datacenter r; hostname := hostname r;
     chassis_info := (chassis_info r ++ [c])%list; message := message r |}.

Definition set_message (r : result) (m : string) : result :=
  {| datacenter := datacenter r; hostname := hostname r;
     chassis_info := chassis_info r; message := m |}.

(** Body of [for member in members]. *)
Definition member_body (host : host_dir) (r : result) (member : json)
  : res result :=
  chassis_ref <- safe_get member [KStr "@odata.id"] JNull ;;
  cid_opt <- _last_segment chassis_ref ;;
  match cid_opt with
  | None => Ok r
  | Some cid =>
      if negb (id_truthy cid_opt) then Ok r
      else
        let chassis_detail := _read_json host ["Chassis"; cid ++ ".json"] in
        if negb (truthy chassis_detail) then Ok r
        else
          ct <- safe_get chassis_detail [KStr "ChassisType"] JNull ;;
          mf <- safe_get chassis_detail [KStr "Manufacturer"] JNull ;;
          md <- safe_get chassis_detail [KStr "Model"] JNull ;;
          sn <- safe_get chassis_detail [KStr "SerialNumber"] JNull ;;
          Ok (add_chassis r
                {| chassis_id := cid;
                   chassis_type := py_or ct (JStr "Unknown");
                   manufacturer := py_or mf (JStr "Unknown");
                   model := py_or md (JStr "Unknown");
                   serial := py_or sn (JStr "Unknown") |})
  end.

Definition initial (dc hn : string) : result :=
  {| datacenter := dc; hostname := hn; chassis_info := []; message := "" |}.

Definition get_device_information (fmt : formatter) (host : host_dir)
  (hn dc : string) : res result :=
  let result := initial dc hn in
  let chassis_data := _read_json host ["Chassis.json"] in
  if negb (truthy chassis_data)
  then Ok (set_message result "No chassis info exposed via Redfish")
  else
    ms <- safe_get chassis_data [KStr "Members"] (JArr []) ;;
    let members := py_or ms (JArr []) in
    if negb (truthy members)
    then Ok (set_message result "No chassis members found")
    else
      ml <- py_iter members ;;
      r <- for_each (member_body host) ml result ;;
      Ok (set_message r
            (match chassis_info r with
             | [] => "No chassis details available"
             | _ =>
                 let chassis_summary :=
                   join_comma (map (fun c => py_str fmt (chassis_type c))
                                 (chassis_info r)) in
                 "found " ++ nat_str (Z.of_nat (List.length (chassis_info r)))
                 ++ " chassis: " ++ chassis_summary
             end)).

(** The display loop of [main], for one host. *)
Definition display_chassis (fmt : formatter) (c : chassis) : io unit :=
  print ("  [" ++ chassis_id c ++ "]: "
         ++ py_str fmt (manufacturer c) ++ " | " ++ py_str fmt (model c) ++ " "
         ++ "(ChassisType: " ++ py_str fmt (chassis_type c)
         ++ ", S/N: " ++ py_str fmt (serial c) ++ ")").

Definition display (fmt : formatter) (r : result) : io unit :=
  io_bind (print (datacenter r ++ "/" ++ hostname r ++ ": " ++ message r))
    (fun _ => io_for (display_chassis fmt) (chassis_info r)).

Definition main (fmt : formatter) (s : snapshot) : list string * res unit :=
  run_report (get_device_information fmt) (display fmt) s.

End ReportDeviceType.

(** * Vocabulary of the properties and sample dumps *)

(** The path the keys address, step by step: a field of an object by
    name, an element of an array by an index within its bounds. *)
Definition descend (v : json) (k : key) : option json :=
  match v, k with
  | JObj fields, KStr name => dict_get fields name
  | JArr items, KInt i =>
      if ((0 <=? i) && (i <? Z.of_nat (List.length items)))%bool
      then nth_error items (Z.to_nat i)
      else None
  | _, _ => None
  end.

Fixpoint resolve (v : json) (keys : list key) : option json :=
  match keys with
  | [] => Some v
  | k :: rest =>
      match descend v k with
      | Some v' => resolve v' rest
      | None => None
      end
  end.

(** A default that no key can descend into: anything but a non-empty
    list or dict.  Every call in the scripts passes [None], ["NA"],
    ["-"] or [[]]. *)
Definition plain (default : json) : bool :=
  match default with
  | JArr (_ :: _) => false
  | JObj (_ :: _) => false
  | _ => true
  end.

Definition nonneg_key (k : key) : Prop :=
  match k with
  | KInt i => 0 <= i
  | KStr _ => True
  end.

Definition power_control_sample : json :=
  JObj [("PowerConsumedWatts", JInt 212);
        ("PowerMetrics", JObj [("MinConsumedWatts", JInt 190);
                               ("MaxConsumedWatts", JNull)])].

Fixpoint only_slashes (s : string) : bool :=
  match s with
  | EmptyString => true
  | String c rest => (Ascii.eqb c slash && only_slashes rest)%bool
  end.

Fixpoint no_slash (s : string) : bool :=
  match s with
  | EmptyString => true
  | String c rest => (negb (Ascii.eqb c slash) && no_slash rest)%bool
  end.

(** [ "/".join(parts) ] *)
Fixpoint join_slash (parts : list string) : string :=
  match parts with
  | [] => ""
  | [x] => x
  | x :: rest => x ++ "/" ++ join_slash rest
  end.

Fixpoint path_eqb (p q : path) : bool :=
  match p, q with
  | [], [] => true
  | a :: p', b :: q' => (String.eqb a b && path_eqb p' q')%bool
  | _, _ => false
  end.

(** The host directory that holds the listed documents and no other. *)
Fixpoint files (docs : list (path * json)) : host_dir :=
  fun p =>
    match docs with
    | [] => Ok None
    | (q, v) :: rest => if path_eqb q p then Ok (Some v) else files rest p
    end.

Definition ref (target : string) : json := JObj [("@odata.id", JStr target)].
Definition collection (targets : list string) : json :=
  JObj [("Members", JArr (map ref targets))].

(** The summary of the RAID report as the rule reads, tried in order. *)
Definition raid_summary (detected capable has_volumes : bool) : string :=
  if detected then "Hardware RAID detected"
  else if (capable && has_volumes)%bool
       then "RAID-capable controller with volumes in HBA mode"
  else if (capable && negb has_volumes)%bool
       then "RAID supported but not configured"
  else "No hardware RAID detected (possible HBA or software RAID)".

Definition has_volumes (r : ReportRaid.result) : bool :=
  match ReportRaid.volumes r with
  | [] => false
  | _ :: _ => true
  end.

(** The walk gets as far as the storage members: [Systems.json] loads
    and lists a first system whose reference ends in an identifier, and
    the storage collection of that system ([Storage.json] or, when that
    gives nothing, [Storages.json]) loads and lists at least one
    member. *)
Definition reaches_storage_members (host : host_dir) : Prop :=
  exists systems_members first_ref sys storage_collection storage_members,
    truthy (_read_json host ["Systems.json"]) = true /\
    safe_get (_read_json host ["Systems.json"]) [KStr "Members"] (JArr [])
      = Ok systems_members /\
    truthy systems_members = true /\
    safe_get systems_members [KInt 0; KStr "@odata.id"] JNull = Ok first_ref /\
    _last_segment first_ref = Ok (Some sys) /\ sys <> "" /\
    storage_collection =
      py_or (_read_json host ["Systems"; sys; "Storage.json"])
            (_read_json host ["Systems"; sys; "Storages.json"]) /\
    truthy storage_collection = true /\
    safe_get storage_collection [KStr "Members"] (JArr []) = Ok storage_members /\
    truthy storage_members = true.

(** A host whose controller lists RAID types and that has no volume. *)
Definition raid_capable_host : host_dir :=
  files
    [(["Systems.json"], collection ["/redfish/v1/Systems/1"]);
     (["Systems"; "1"; "Storage.json"],
      collection ["/redfish/v1/Systems/1/Storage/0"]);
     (["Systems"; "1"; "Storage"; "0.json"],
      JObj [("StorageControllers",
             JArr [JObj [("Name", JStr "PERC H730");
                         ("SupportedRAIDTypes", JArr [JStr "RAID0"; JStr "RAID1"])]])])].

(** What the flag holds after the walk: the test [vol_raid is not None]
    of the volume recorded last. *)
Definition last_volume_has_raid (vols : list ReportRaid.volume) : bool :=
  match rev vols with
  | v :: _ => negb (is_none (ReportRaid.raid_type v))
  | [] => false
  end.

(** What C3 states: some recorded volume has a RAID type. *)
Definition some_volume_has_raid (vols : list ReportRaid.volume) : bool :=
  existsb (fun v => negb (is_none (ReportRaid.raid_type v))) vols.

Definition flag_is_last (r : ReportRaid.result) : Prop :=
  ReportRaid.raid_detected r = last_volume_has_raid (ReportRaid.volumes r).

Definition raid_controller : json :=
  JObj [("Name", JStr "PERC H730");
        ("SupportedRAIDTypes", JArr [JStr "RAID0"; JStr "RAID1"])].

(** A host whose controller neither lists RAID types nor is named
    after RAID, and that has no volume. *)
Definition plain_controller_host : host_dir :=
  files
    [(["Systems.json"], collection ["/redfish/v1/Systems/1"]);
     (["Systems"; "1"; "Storage.json"],
      collection ["/redfish/v1/Systems/1/Storage/0"]);
     (["Systems"; "1"; "Storage"; "0.json"],
      JObj [("StorageControllers", JArr [JObj [("Name", JStr "HBA 330")]])])].

(** A host with a mirrored volume listed first and a volume without a
    RAID type listed second. *)
Definition mixed_volumes_host : host_dir :=
  files
    [(["Systems.json"], collection ["/redfish/v1/Systems/1"]);
     (["Systems"; "1"; "Storage.json"],
      collection ["/redfish/v1/Systems/1/Storage/0"]);
     (["Systems"; "1"; "Storage"; "0.json"],
      JObj [("StorageControllers", JArr [raid_controller]);
            ("Volumes", ref "/redfish/v1/Systems/1/Storage/0/Volumes")]);
     (["Systems"; "1"; "Storage"; "0"; "Volumes.json"],
      collection ["/redfish/v1/Systems/1/Storage/0/Volumes/A";
                  "/redfish/v1/Systems/1/Storage/0/Volumes/B"]);
     (["Systems"; "1"; "Storage"; "0"; "Volumes"; "A.json"],
      JObj [("Name", JStr "Virtual Disk 0"); ("RAIDType", JStr "RAID1");
            ("CapacityBytes", JInt 10737418240)]);
     (["Systems"; "1"; "Storage"; "0"; "Volumes"; "B.json"],
      JObj [("Name", JStr "Disk 1"); ("RAIDType", JNull);
            ("CapacityBytes", JInt 10737418240)])].

(** A host that serves the storage collection under [Storages] only,
    with one mirrored volume below it. *)
Definition storages_host : host_dir :=
  files
    [(["Systems.json"], collection ["/redfish/v1/Systems/1"]);
     (["Systems"; "1"; "Storages.json"],
      collection ["/redfish/v1/Systems/1/Storages/0"]);
     (["Systems"; "1"; "Storages"; "0.json"],
      JObj [("StorageControllers", JArr [raid_controller]);
            ("Volumes", ref "/redfish/v1/Systems/1/Storages/0/Volumes")]);
     (["Systems"; "1"; "Storages"; "0"; "Volumes.json"],
      collection ["/redfish/v1/Systems/1/Storages/0/Volumes/A"]);
     (["Systems"; "1"; "Storages"; "0"; "Volumes"; "A.json"],
      JObj [("Name", JStr "Virtual Disk 0"); ("RAIDType", JStr "RAID1");
            ("CapacityBytes", JInt 10737418240)])].

(** The same documents with the volume stored under [Storage]. *)
Definition storages_host_volume_under_storage : host_dir :=
  fun p =>
    if path_eqb p ["Systems"; "1"; "Storage"; "0"; "Volumes"; "A.json"]
    then storages_host ["Systems"; "1"; "Storages"; "0"; "Volumes"; "A.json"]
    else storages_host p.

(** The power data a chassis member offers: the member resolves to a
    chassis document that loads and holds a [Power] reference (a
    non-empty object), [Power.json] of that chassis loads, and its
    [PowerControl] is not empty; the data is its first element. *)
Definition offered (host : host_dir) (member : json) : option json :=
  match py_get member "@odata.id" JNull with
  | Ok target =>
      match extract_chassis_id target with
      | Ok (Some cid) =>
          if id_truthy (Some cid) then
            match host ["Chassis"; cid ++ ".json"],
                  host ["Chassis"; cid; "Power.json"] with
            | Ok (Some chassis_detail), Ok (Some power_data) =>
                match py_get chassis_detail "Power" JNull,
                      py_get power_data "PowerControl" (JArr []) with
                | Ok power_ref, Ok power_control =>
                    if (truthy power_ref && is_dict power_ref
                        && truthy power_control)%bool
                    then match py_getitem power_control (KInt 0) with
                         | Ok pc => Some pc
                         | Raise _ => None
                         end
                    else None
                | _, _ => None
                end
            | _, _ => None
            end
          else None
      | _ => None
      end
  | Raise _ => None
  end.

Fixpoint first_offered (host : host_dir) (members : list json) : option json :=
  match members with
  | [] => None
  | m :: rest =>
      match offered host m with
      | Some pc => Some pc
      | None => first_offered host rest
      end
  end.

Definition metrics (st : PowerWalk.state) : json * json * json * json :=
  (PowerWalk.consumed st, PowerWalk.min_consumed st,
   PowerWalk.max_consumed st, PowerWalk.average_consumed st).

Definition reported (r : PowerWalk.result) : json * json * json * json :=
  (PowerWalk.PowerConsumedWatts r, PowerWalk.MinConsumedWatts r,
   PowerWalk.MaxConsumedWatts r, PowerWalk.AverageConsumedWatts r).

(** The four values read from one element of [PowerControl]. *)
Definition read_from (sg : json -> list key -> json -> res json) (pc : json)
  (m : json * json * json * json) : Prop :=
  let '(c, mn, mx, av) := m in
  sg pc [KStr "PowerConsumedWatts"] (JStr "NA") = Ok c /\
  sg pc [KStr "PowerMetrics"; KStr "MinConsumedWatts"] (JStr "NA") = Ok mn /\
  sg pc [KStr "PowerMetrics"; KStr "MaxConsumedWatts"] (JStr "NA") = Ok mx /\
  sg pc [KStr "PowerMetrics"; KStr "AverageConsumedWatts"] (JStr "NA") = Ok av.

Definition not_available : json * json * json * json :=
  (JStr "NA", JStr "NA", JStr "NA", JStr "NA").

(** Two chassis that each carry power data. *)
Definition chassis_with_power (state : string) : json :=
  JObj [("PowerState", JStr state);
        ("Power", ref "/redfish/v1/Chassis/x/Power")].

Definition power_data (watts : Z) : json :=
  JObj [("PowerControl",
         JArr [JObj [("PowerConsumedWatts", JInt watts);
                     ("PowerMetrics",
                      JObj [("MinConsumedWatts", JInt (watts - 10));
                            ("MaxConsumedWatts", JInt (watts + 10));
                            ("AverageConsumedWatts", JInt watts)])]])].

Definition two_power_host : host_dir :=
  files
    [(["Chassis.json"],
      collection ["/redfish/v1/Chassis/1"; "/redfish/v1/Chassis/2"]);
     (["Chassis"; "1.json"], chassis_with_power "On");
     (["Chassis"; "2.json"], chassis_with_power "Off");
     (["Chassis"; "1"; "Power.json"], power_data 200);
     (["Chassis"; "2"; "Power.json"], power_data 350)].

(** The same host, with a first [Power.json] that loads and holds an
    empty [PowerControl]. *)
Definition empty_first_power_host : host_dir :=
  files
    [(["Chassis.json"],
      collection ["/redfish/v1/Chassis/1"; "/redfish/v1/Chassis/2"]);
     (["Chassis"; "1.json"], chassis_with_power "On");
     (["Chassis"; "2.json"], chassis_with_power "Off");
     (["Chassis"; "1"; "Power.json"], JObj [("PowerControl", JArr [])]);
     (["Chassis"; "2"; "Power.json"], power_data 350)].

Definition thermal_data (fan sensor : string) : json :=
  JObj [("Fans", JArr [JObj [("Name", JStr fan); ("Reading", JInt 5040)]]);
        ("Temperatures",
         JArr [JObj [("Name", JStr sensor); ("ReadingCelsius", JInt 41);
                     ("PhysicalContext", JStr "CPU")]])].

Definition chassis_with_thermal (state : string) : json :=
  JObj [("PowerState", JStr state);
        ("Thermal", ref "/redfish/v1/Chassis/x/Thermal")].

(** Three members listed; the chassis document of the second is
    absent, its [Thermal.json] is not. *)
Definition three_chassis_host : host_dir :=
  files
    [(["Chassis.json"],
      collection ["/redfish/v1/Chassis/1"; "/redfish/v1/Chassis/2";
                  "/redfish/v1/Chassis/3"]);
     (["Chassis"; "1.json"], chassis_with_thermal "On");
     (["Chassis"; "3.json"], chassis_with_thermal "Off");
     (["Chassis"; "1"; "Thermal.json"], thermal_data "Fan1" "CPU1 Temp");
     (["Chassis"; "2"; "Thermal.json"], thermal_data "Fan2" "CPU2 Temp");
     (["Chassis"; "3"; "Thermal.json"], thermal_data "Fan3" "CPU3 Temp")].

(** The file at a path gives no document: it is missing, or reading
    it fails in any way. *)
Definition no_document (host : host_dir) (p : path) : Prop :=
  forall doc, host p <> Ok (Some doc).

(** [three_chassis_host] with a chassis document of the second member
    that exists and holds a byte [json.load] cannot decode. *)
Definition undecodable_chassis_host : host_dir :=
  fun p =>
    if path_eqb p ["Chassis"; "2.json"] then Raise UnicodeDecodeError
    else three_chassis_host p.

(** The power state a chassis member contributes: the lower-cased
    [PowerState] of its chassis document, when the member resolves, the
    document loads and the field is there. *)
Definition member_power_state (sg : json -> list key -> json -> res json)
  (host : host_dir) (member : json) : option string :=
  match py_get member "@odata.id" JNull with
  | Ok target =>
      match extract_chassis_id target with
      | Ok (Some cid) =>
          if id_truthy (Some cid) then
            match host ["Chassis"; cid ++ ".json"] with
            | Ok (Some chassis_detail) =>
                match sg chassis_detail [KStr "PowerState"] (JStr "NA") with
                | Ok power_state =>
                    if is_NA power_state then None
                    else match py_lower power_state with
                         | Ok s => Some s
                         | Raise _ => None
                         end
                | Raise _ => None
                end
            | _ => None
            end
          else None
      | _ => None
      end
  | Raise _ => None
  end.

Definition contribution (state : option string) : list string :=
  match state with
  | Some s => [s]
  | None => []
  end.

(** The power states of the members, in the order of the members. *)
Definition states_in_member_order (sg : json -> list key -> json -> res json)
  (host : host_dir) (members : list json) : list string :=
  flat_map (fun m => contribution (member_power_state sg host m)) members.

Definition leb_string (a b : string) : Prop := String.leb a b = true.

(** Two enumerations of one directory: the same entries, in any order,
    no two with one name. *)
Definition same_listing (l1 l2 : list dir_entry) : Prop :=
  Permutation l1 l2 /\ NoDup (map entry_name l1).

(** Two runs over one unmodified dump: the dump directory yields the
    same entries in the same order, and every datacenter directory
    yields the same entries. *)
Definition same_dump (s1 s2 : snapshot) : Prop :=
  Forall2
    (fun d1 d2 =>
       dc_name d1 = dc_name d2 /\ dc_is_dir d1 = dc_is_dir d2 /\
       same_listing (dc_listing d1) (dc_listing d2))
    s1 s2.

Definition name_leb (a b : dir_entry) : Prop :=
  String.leb (entry_name a) (entry_name b) = true.

Definition plain_formatter : formatter :=
  {| str_float := fun _ => "<float>";
     str_gib := fun _ => "<float>";
     str_container := fun _ => "<container>" |}.

Definition node_1 : dir_entry :=
  {| entry_name := "node-1"; entry_is_dir := true; entry_files := three_chassis_host |}.

Definition node_2 : dir_entry :=
  {| entry_name := "node-2"; entry_is_dir := true; entry_files := two_power_host |}.

Definition notes_file : dir_entry :=
  {| entry_name := "README"; entry_is_dir := false; entry_files := fun _ => Ok None |}.

(** One dump, its datacenter directory enumerated in two orders. *)
Definition first_run : snapshot :=
  [{| dc_name := "dc1"; dc_is_dir := true;
      dc_listing := [node_2; notes_file; node_1] |}].

Definition second_run : snapshot :=
  [{| dc_name := "dc1"; dc_is_dir := true;
      dc_listing := [node_1; node_2; notes_file] |}].

(** A recorded controller that lists RAID types, and one whose recorded
    name holds "raid" in any case. *)
Definition lists_raid_types (c : ReportRaid.controller) : bool :=
  match ReportRaid.supported_raid_types c with
  | JArr (_ :: _) => true
  | _ => false
  end.

Definition names_raid (c : ReportRaid.controller) : bool :=
  match ReportRaid.name c with
  | JStr s => contains "raid" (lower s)
  | _ => false
  end.

(** The flag [raid_capable] against the recorded controllers. *)
Definition capable_sound (r : ReportRaid.result) : Prop :=
  (forall c, In c (ReportRaid.controllers r) ->
     (lists_raid_types c || names_raid c)%bool = true ->
     ReportRaid.raid_capable r = true) /\
  (ReportRaid.raid_capable r = true -> ReportRaid.controllers r <> []).

(** A recorded volume whose derived fields fit its document. *)
Definition volume_consistent (v : ReportRaid.volume) : Prop :=
  ReportRaid.capacity_gib v = _bytes_to_gib (ReportRaid.capacity_bytes v) /\
  Forall (fun d => d <> "" /\ no_slash d = true) (ReportRaid.drives v).

(** Two host directories that hold the same documents, except possibly
    [Storages.json] of a system whose [Storage.json] loads with
    content. *)
Definition differ_in_unused_fallback (host host' : host_dir) : Prop :=
  forall p,
    host p = host' p \/
    exists sys,
      p = ["Systems"; sys; "Storages.json"] /\
      truthy (_read_json host ["Systems"; sys; "Storage.json"]) = true.

(** [mixed_volumes_host] with a [Storages.json] put beside its
    [Storage.json]. *)
Definition mixed_volumes_host_with_fallback : host_dir :=
  fun p =>
    if path_eqb p ["Systems"; "1"; "Storages.json"]
    then Ok (Some (collection ["/redfish/v1/Systems/1/Storages/9"]))
    else mixed_volumes_host p.




(** A sensor record with every field filled. *)
Definition sensor_filled (t : ReportTemperature.sensor) : Prop :=
  ReportTemperature.chassis_id t <> "" /\
  no_slash (ReportTemperature.chassis_id t) = true /\
  ReportTemperature.name t <> JNull /\
  ReportTemperature.reading t <> JNull /\
  ReportTemperature.physical_context t <> JNull.

Definition fan_filled (f : ReportFans.fan) : Prop :=
  ReportFans.name f <> JNull /\ ReportFans.reading_rpm f <> JNull.

Definition chassis_filled (c : ReportDeviceType.chassis) : Prop :=
  ReportDeviceType.chassis_id c <> "" /\
  no_slash (ReportDeviceType.chassis_id c) = true /\
  truthy (ReportDeviceType.chassis_type c) = true /\
  truthy (ReportDeviceType.manufacturer c) = true /\
  truthy (ReportDeviceType.model c) = true /\
  truthy (ReportDeviceType.serial c) = true.

(** A host with one chassis whose thermal data names nothing. *)
Definition bare_thermal_host : host_dir :=
  files
    [(["Chassis.json"], collection ["/redfish/v1/Chassis/1"]);
     (["Chassis"; "1.json"],
      JObj [("PowerState", JStr "On");
            ("Thermal", ref "/redfish/v1/Chassis/1/Thermal")]);
     (["Chassis"; "1"; "Thermal.json"],
      JObj [("Fans", JArr [JObj [("Reading", JNull)]]);
            ("Temperatures", JArr [JObj [("Name", JNull)]])])].

(** A power record with every field filled. *)
Definition power_filled (r : PowerWalk.result) : Prop :=
  PowerWalk.redfish_version r <> JNull /\
  PowerWalk.PowerConsumedWatts r <> JNull /\
  PowerWalk.MinConsumedWatts r <> JNull /\
  PowerWalk.MaxConsumedWatts r <> JNull /\
  PowerWalk.AverageConsumedWatts r <> JNull.

Definition state_filled (st : PowerWalk.state) : Prop :=
  PowerWalk.consumed st <> JNull /\
  PowerWalk.min_consumed st <> JNull /\
  PowerWalk.max_consumed st <> JNull /\
  PowerWalk.average_consumed st <> JNull.

(** A host whose power data holds [null] where the metrics are read. *)
Definition null_power_host : host_dir :=
  files
    [(["index.json"], JObj [("RedfishVersion", JNull)]);
     (["Chassis.json"], collection ["/redfish/v1/Chassis/1"]);
     (["Chassis"; "1.json"], chassis_with_power "On");
     (["Chassis"; "1"; "Power.json"],
      JObj [("PowerControl",
             JArr [JObj [("PowerConsumedWatts", JNull);
                         ("PowerMetrics", JNull)]])])].

(** The host directories a scan visits, as (datacenter, host) names:
    the datacenter directories in the order of the dump, the host
    directories of each sorted by name, other entries left out. *)
Definition scanned (s : snapshot) : list (string * string) :=
  flat_map
    (fun d =>
       if dc_is_dir d
       then map (fun h => (dc_name d, entry_name h))
              (filter entry_is_dir (sorted_entries (dc_listing d)))
       else [])
    s.

Definition raid_label (r : ReportRaid.result) : string * string :=
  (ReportRaid.datacenter r, ReportRaid.hostname r).
Definition fan_label (r : ReportFans.result) : string * string :=
  (ReportFans.datacenter r, ReportFans.hostname r).
Definition temperature_label (r : ReportTemperature.result) : string * string :=
  (ReportTemperature.datacenter r, ReportTemperature.hostname r).
Definition device_label (r : ReportDeviceType.result) : string * string :=
  (ReportDeviceType.datacenter r, ReportDeviceType.hostname r).
Definition power_label (r : PowerWalk.result) : string * string :=
  (PowerWalk.datacenter r, PowerWalk.hostname r).

(** A dump with two datacenter directories and a file beside them. *)
Definition two_datacenters : snapshot :=
  [{| dc_name := "dc2"; dc_is_dir := true; dc_listing := [node_2; notes_file] |};
   {| dc_name := "index.html"; dc_is_dir := false; dc_listing := [] |};
   {| dc_name := "dc1"; dc_is_dir := true; dc_listing := [node_2; node_1] |}].

(** The dump with every entry that is not a directory removed. *)
Definition directories_only (s : snapshot) : snapshot :=
  map (fun d =>
         {| dc_name := dc_name d; dc_is_dir := dc_is_dir d;
            dc_listing := filter entry_is_dir (dc_listing d) |})
    (filter dc_is_dir s).

(** A host whose chassis collection lists a number where a reference
    is expected. *)
Definition broken_members_host : host_dir :=
  files [(["Chassis.json"], JObj [("Members", JArr [JInt 1])])].

Definition node_3 : dir_entry :=
  {| entry_name := "node-3"; entry_is_dir := true;
     entry_files := broken_members_host |}.

Definition dump_with_broken_host : snapshot :=
  [{| dc_name := "dc1"; dc_is_dir := true; dc_listing := [node_3; node_1] |}].

(** A run that ends with an exception and has printed nothing. *)
Definition silent (out : list string * res unit) : Prop :=
  exists e, out = ([], Raise e).





(** A host whose controller lists its RAID types as numbers. *)
Definition numeric_raid_types_host : host_dir :=
  files
    [(["Systems.json"], collection ["/redfish/v1/Systems/1"]);
     (["Systems"; "1"; "Storage.json"],
      collection ["/redfish/v1/Systems/1/Storage/0"]);
     (["Systems"; "1"; "Storage"; "0.json"],
      JObj [("StorageControllers",
             JArr [JObj [("Name", JStr "HBA 330");
                         ("SupportedRAIDTypes", JArr [JInt 0; JInt 1])]])])].

(** * Properties *)

(** ** Safe navigation *)

Lemma nth_error_nth_json (items : list json) (n : nat) (x : json) :
  nth_error items n = Some x -> nth n items JNull = x.
Proof.
  revert n; induction items as [|y items IH]; intros [|n] H; simpl in *;
    try discriminate.
  - now inversion H.
  - now apply IH.
Qed.

Lemma nth_error_in_range (items : list json) (i : Z) :
  0 <= i < Z.of_nat (List.length items) ->
  nth_error items (Z.to_nat i) = Some (nth (Z.to_nat i) items JNull).
Proof.
  intros Hi. apply nth_error_nth'. lia.
Qed.

Lemma range_test (i n : Z) :
  ((0 <=? i) && (i <? n))%bool = true <-> 0 <= i < n.
Proof.
  rewrite andb_true_iff, Z.leb_le, Z.ltb_lt. tauto.
Qed.

Lemma is_none_true (v : json) : is_none v = true <-> v = JNull.
Proof. destruct v; simpl; split; congruence. Qed.

Lemma is_none_false (v : json) : is_none v = false <-> v <> JNull.
Proof. destruct v; simpl; split; congruence. Qed.

(** One turn of the loop of [safe_get], read against [descend]. *)
Lemma safe_get_step_spec (current : json) (k : key) (default : json) :
  safe_get_step current k default =
  Ok (match descend current k with
      | Some c => if is_none c then Return default else Next c
      | None =>
          if is_dict current then
            if is_none default then Return default else Next default
          else Return default
      end).
Proof.
  unfold safe_get_step.
  destruct current as [| b | n | x | s | items | fields]; simpl; try reflexivity.
  - destruct k as [name | i]; simpl; [reflexivity|].
    destruct ((0 <=? i) && (i <? Z.of_nat (List.length items)))%bool eqn:Hr;
      [|reflexivity].
    unfold py_index. rewrite Hr. simpl.
    apply range_test in Hr. rewrite (nth_error_in_range _ _ Hr). reflexivity.
  - destruct k as [name | i]; simpl; [|reflexivity].
    destruct (dict_get fields name); reflexivity.
Qed.

Lemma safe_get_total (data : json) (keys : list key) (default : json) :
  exists v, safe_get data keys default = Ok v.
Proof.
  revert data; induction keys as [|k rest IH]; intros data; simpl.
  - now exists data.
  - rewrite safe_get_step_spec. simpl.
    destruct (descend data k) as [c|].
    + destruct (is_none c); [now exists default | apply IH].
    + destruct (is_dict data); [|now exists default].
      destruct (is_none default); [now exists default | apply IH].
Qed.

Lemma safe_get_resolved (data : json) (keys : list key) (default w : json) :
  resolve data keys = Some w -> w <> JNull ->
  safe_get data keys default = Ok w.
Proof.
  revert data; induction keys as [|k rest IH]; intros data Hres Hw; simpl in *.
  - now inversion Hres.
  - rewrite safe_get_step_spec. simpl.
    destruct (descend data k) as [c|]; [|discriminate].
    destruct (is_none c) eqn:Hc.
    + apply is_none_true in Hc. subst c.
      destruct rest; simpl in Hres; [inversion Hres; congruence | discriminate].
    + now apply IH.
Qed.

Lemma safe_get_plain_default (keys : list key) (default : json) :
  plain default = true -> safe_get default keys default = Ok default.
Proof.
  intros Hp. induction keys as [|k rest IH]; simpl; [reflexivity|].
  rewrite safe_get_step_spec.
  destruct default as [| b | n | x | s | [|y items] | [|f fields]];
    simpl in *; try discriminate; try reflexivity.
  - destruct k as [name|i]; simpl; [reflexivity|].
    replace ((0 <=? i) && (i <? 0))%bool with false; [reflexivity|].
    symmetry. apply not_true_iff_false. rewrite range_test. lia.
  - destruct k; simpl; exact IH.
Qed.

Lemma resolve_null (rest : list key) :
  resolve JNull rest = None \/ resolve JNull rest = Some JNull.
Proof. destruct rest; simpl; auto. Qed.

Lemma safe_get_unresolved (data : json) (keys : list key) (default : json) :
  plain default = true -> keys <> [] ->
  resolve data keys = None \/ resolve data keys = Some JNull ->
  safe_get data keys default = Ok default.
Proof.
  intros Hp. revert data; induction keys as [|k rest IH]; intros data Hne Hres;
    [congruence|]. simpl in *.
  rewrite safe_get_step_spec. simpl.
  destruct (descend data k) as [c|].
  - destruct (is_none c) eqn:Hc; [reflexivity|].
    destruct rest as [|k' rest'].
    + simpl in Hres. apply is_none_false in Hc.
      destruct Hres as [H|H]; [discriminate | inversion H; congruence].
    + apply IH; [discriminate | exact Hres].
  - destruct (is_dict data); [|reflexivity].
    destruct (is_none default); [reflexivity|].
    now apply safe_get_plain_default.
Qed.

(** The same three facts for [safe_get] of [script.py], for keys whose
    indices are not negative. *)
Lemma safe_get_script_step_spec (current : json) (k : key) (default : json) :
  nonneg_key k ->
  safe_get_script_step current k default =
  Ok (match descend current k with
      | Some c => if is_dict current && is_none c then Return default else Next c
      | None => Return default
      end).
Proof.
  intros Hk. unfold safe_get_script_step.
  destruct current as [| b | n | x | s | items | fields]; simpl; try reflexivity.
  - destruct k as [name | i]; simpl in *.
    + destruct (0 <? Z.of_nat (List.length items)); reflexivity.
    + destruct (0 <? Z.of_nat (List.length items)) eqn:Hlen.
      * destruct (i <? Z.of_nat (List.length items)) eqn:Hi.
        -- apply Z.ltb_lt in Hi.
           assert (Hr : 0 <= i < Z.of_nat (List.length items)) by lia.
           unfold py_index. rewrite (proj2 (range_test _ _) Hr). simpl.
           rewrite (proj2 (Z.leb_le _ _) Hk). simpl.
           rewrite (nth_error_in_range _ _ Hr). reflexivity.
        -- rewrite andb_false_r. reflexivity.
      * apply Z.ltb_ge in Hlen.
        replace ((0 <=? i) && (i <? Z.of_nat (List.length items)))%bool
          with false; [reflexivity|].
        symmetry. apply not_true_iff_false. rewrite range_test. lia.
  - destruct k as [name | i]; simpl; [|reflexivity].
    destruct (dict_get fields name) as [c|]; simpl; [|reflexivity].
    destruct (is_none c); reflexivity.
Qed.

Lemma safe_get_script_null (keys : list key) (default : json) :
  safe_get_script JNull keys default = Ok default.
Proof. destruct keys; reflexivity. Qed.

Lemma safe_get_script_total (data : json) (keys : list key) (default : json) :
  Forall nonneg_key keys -> exists v, safe_get_script data keys default = Ok v.
Proof.
  intros Hk. revert data; induction Hk as [|k rest Hk _ IH]; intros data; simpl.
  - eexists; reflexivity.
  - rewrite (safe_get_script_step_spec _ _ _ Hk). simpl.
    destruct (descend data k) as [c|]; [|now exists default].
    destruct (is_dict data && is_none c)%bool; [now exists default | apply IH].
Qed.

Lemma safe_get_script_resolved (data : json) (keys : list key) (default w : json) :
  Forall nonneg_key keys ->
  resolve data keys = Some w -> w <> JNull ->
  safe_get_script data keys default = Ok w.
Proof.
  intros Hk. revert data; induction Hk as [|k rest Hk _ IH];
    intros data Hres Hw; simpl in *.
  - inversion Hres; subst. destruct w; simpl; congruence.
  - rewrite (safe_get_script_step_spec _ _ _ Hk). simpl.
    destruct (descend data k) as [c|]; [|discriminate].
    destruct (is_none c) eqn:Hc.
    + apply is_none_true in Hc. subst c.
      destruct rest; simpl in Hres; [inversion Hres; congruence | discriminate].
    + rewrite andb_false_r. now apply IH.
Qed.

Lemma safe_get_script_unresolved (data : json) (keys : list key) (default : json) :
  Forall nonneg_key keys ->
  resolve data keys = None \/ resolve data keys = Some JNull ->
  safe_get_script data keys default = Ok default.
Proof.
  intros Hk. revert data; induction Hk as [|k rest Hk _ IH]; intros data Hres;
    simpl in *.
  - destruct Hres as [H|H]; [discriminate | now inversion H].
  - rewrite (safe_get_script_step_spec _ _ _ Hk). simpl.
    destruct (descend data k) as [c|]; [|reflexivity].
    destruct (is_none c) eqn:Hc.
    + apply is_none_true in Hc. subst c.
      destruct (is_dict data); simpl; [reflexivity|].
      apply safe_get_script_null.
    + rewrite andb_false_r. now apply IH.
Qed.

Lemma resolve_nonneg (data : json) (keys : list key) (w : json) :
  resolve data keys = Some w -> Forall nonneg_key keys.
Proof.
  revert data; induction keys as [|k rest IH]; intros data H; simpl in *.
  - constructor.
  - destruct (descend data k) as [c|] eqn:Hd; [|discriminate].
    constructor; [|now apply (IH c)].
    destruct data, k as [name|i]; simpl in *; try discriminate; try exact I.
    destruct ((0 <=? i) && (i <? Z.of_nat (List.length items)))%bool
      eqn:Hr; [|discriminate].
    apply range_test in Hr. lia.
Qed.

(** When the default is itself a container the loop of [safe_get] goes
    on inside it after a missing field, and [script.py]'s copy indexes
    from the end, or raises, on a negative index. *)
Example safe_get_descends_into_default :
  safe_get (JObj []) [KStr "a"; KInt 0] (JArr [JInt 5]) = Ok (JInt 5).
Proof. reflexivity. Qed.

Example safe_get_script_negative_index :
  safe_get_script (JArr [JInt 1]) [KInt (-2)] (JStr "NA") = Raise IndexError /\
  safe_get_script (JArr [JInt 1; JInt 2]) [KInt (-1)] (JStr "NA") = Ok (JInt 2) /\
  safe_get (JArr [JInt 1]) [KInt (-2)] (JStr "NA") = Ok (JStr "NA").
Proof. repeat split. Qed.

(** C1, as stated, fails: a key sequence that addresses an existing
    path whose value is [null] does not return that value but the
    default ([safe_get({"a": None}, "a", default="NA")] is ["NA"]). *)
Lemma safe_get_null_leaf :
  resolve (JObj [("a", JNull)]) [KStr "a"] = Some JNull /\
  safe_get (JObj [("a", JNull)]) [KStr "a"] (JStr "NA") = Ok (JStr "NA") /\
  safe_get_script (JObj [("a", JNull)]) [KStr "a"] (JStr "NA") = Ok (JStr "NA") /\
  JStr "NA" <> JNull.
Proof. repeat split. discriminate. Qed.

(** C1, amended.  [safe_get] of the report scripts never raises, and
    [safe_get] of [script.py] never raises on keys without a negative
    index.  For a key sequence that addresses an existing path whose
    value is not [null], both return exactly the nested value.  When
    some step is inapplicable (wrong container kind, missing field, index
    out of range, [null] before the end) or the value reached by at least
    one key is [null], the report scripts' [safe_get] returns the default
    if the default is not a non-empty container, and [script.py]'s
    returns the default if no index is negative. *)
Theorem safe_get_navigation (data : json) (keys : list key) (default : json) :
  (exists v, safe_get data keys default = Ok v) /\
  (Forall nonneg_key keys -> exists v, safe_get_script data keys default = Ok v) /\
  (forall w, resolve data keys = Some w -> w <> JNull ->
     safe_get data keys default = Ok w /\
     safe_get_script data keys default = Ok w) /\
  (resolve data keys = None \/ resolve data keys = Some JNull ->
     (plain default = true -> keys <> [] ->
        safe_get data keys default = Ok default) /\
     (Forall nonneg_key keys -> safe_get_script data keys default = Ok default)).
Proof.
  split; [apply safe_get_total|].
  split; [apply safe_get_script_total|].
  split.
  - intros w Hres Hw. split.
    + now apply safe_get_resolved.
    + apply safe_get_script_resolved; auto. now apply (resolve_nonneg data keys w).
  - intros Hres. split.
    + intros Hp Hne. now apply safe_get_unresolved.
    + intros Hk. now apply safe_get_script_unresolved.
Qed.

Lemma safe_get_navigation_witness :
  (safe_get power_control_sample [KStr "PowerMetrics"; KStr "MinConsumedWatts"]
     (JStr "NA") = Ok (JInt 190) /\
   safe_get_script power_control_sample [KStr "PowerMetrics"; KStr "MinConsumedWatts"]
     (JStr "NA") = Ok (JInt 190)) /\
  (safe_get power_control_sample [KStr "PowerMetrics"; KStr "MaxConsumedWatts"]
     (JStr "NA") = Ok (JStr "NA") /\
   safe_get_script power_control_sample [KStr "PowerMetrics"; KStr "MaxConsumedWatts"]
     (JStr "NA") = Ok (JStr "NA")) /\
  safe_get power_control_sample [KStr "PowerMetrics"; KInt 0; KStr "x"] (JStr "NA")
    = Ok (JStr "NA").
Proof.
  split; [|split].
  - apply (proj1 (proj2 (proj2
      (safe_get_navigation power_control_sample
         [KStr "PowerMetrics"; KStr "MinConsumedWatts"] (JStr "NA"))))).
    + reflexivity.
    + discriminate.
  - pose proof (proj2 (proj2 (proj2
      (safe_get_navigation power_control_sample
         [KStr "PowerMetrics"; KStr "MaxConsumedWatts"] (JStr "NA"))))
      (or_intror eq_refl)) as [H1 H2].
    split.
    + apply H1; [reflexivity | discriminate].
    + apply H2. repeat constructor.
  - apply (proj1 (proj2 (proj2 (proj2
      (safe_get_navigation power_control_sample
         [KStr "PowerMetrics"; KInt 0; KStr "x"] (JStr "NA")))) (or_introl eq_refl))).
    + reflexivity.
    + discriminate.
Defined.

(** ** Reference resolution *)

Lemma append_empty_r (s : string) : s ++ "" = s.
Proof. induction s; simpl; congruence. Qed.

Lemma append_assoc (a b c : string) : (a ++ b) ++ c = a ++ (b ++ c).
Proof. induction a; simpl; congruence. Qed.

Lemma split_slash_cons (s : string) :
  exists seg segs, split_slash s = seg :: segs.
Proof.
  destruct s as [|c rest]; simpl; [now eexists; eexists|].
  destruct (Ascii.eqb c slash); [now eexists; eexists|].
  destruct (split_slash rest); now eexists; eexists.
Qed.

Lemma join_split_slash (s : string) : join_slash (split_slash s) = s.
Proof.
  induction s as [|c rest IH]; simpl; [reflexivity|].
  destruct (Ascii.eqb_spec c slash) as [->|Hc].
  - destruct (split_slash_cons rest) as (seg & segs & E).
    rewrite E in *. rewrite <- IH. reflexivity.
  - destruct (split_slash_cons rest) as (seg & segs & E).
    rewrite E in *. rewrite <- IH. destruct segs; reflexivity.
Qed.

Lemma split_slash_no_slash (s : string) :
  Forall (fun seg => no_slash seg = true) (split_slash s).
Proof.
  induction s as [|c rest IH]; simpl; [now repeat constructor|].
  destruct (Ascii.eqb c slash) eqn:Hc; [now constructor|].
  destruct (split_slash rest) as [|seg segs]; [now repeat constructor; simpl; rewrite Hc|].
  inversion IH; subst. constructor; [|assumption].
  simpl. now rewrite Hc.
Qed.

Lemma join_slash_last (parts : list string) :
  parts <> [] ->
  exists pre, join_slash parts = pre ++ last parts "" /\
              (pre = "" \/ exists p, pre = p ++ "/").
Proof.
  induction parts as [|x rest IH]; [congruence|]. intros _.
  destruct rest as [|y rest'].
  - exists "". simpl. auto.
  - destruct IH as (pre & E & Hpre); [discriminate|].
    exists (x ++ "/" ++ pre). split.
    + change (join_slash (x :: y :: rest')) with (x ++ "/" ++ join_slash (y :: rest')).
      change (last (x :: y :: rest') "") with (last (y :: rest') "").
      rewrite E. now rewrite !append_assoc.
    + right. destruct Hpre as [->|(p & ->)].
      * exists x. reflexivity.
      * exists (x ++ "/" ++ p). now rewrite !append_assoc.
Qed.

Lemma rstrip_slash_tail (s : string) :
  exists tail, s = rstrip_slash s ++ tail /\ only_slashes tail = true.
Proof.
  induction s as [|c rest (tail & E & Ht)]; simpl; [now exists ""|].
  destruct (rstrip_slash rest) as [|c' r] eqn:Hr.
  - destruct (Ascii.eqb_spec c slash) as [->|Hc].
    + exists (String slash rest). split; [reflexivity|].
      simpl in E. subst tail. simpl. exact Ht.
    + exists tail. simpl in *. subst rest. now split.
  - exists tail. simpl in *. now rewrite <- E.
Qed.

Lemma rstrip_slash_empty (s : string) :
  rstrip_slash s = "" <-> only_slashes s = true.
Proof.
  induction s as [|c rest IH]; simpl; [tauto|].
  destruct (rstrip_slash rest) as [|c' r].
  - destruct (Ascii.eqb c slash); simpl.
    + split; intros _; [now apply IH | reflexivity].
    + split; discriminate.
  - rewrite andb_true_iff. split; [discriminate|].
    intros [_ H]. apply IH in H. discriminate.
Qed.

Lemma append_slash_not_empty (p : string) : p ++ "/" <> "".
Proof. destruct p; discriminate. Qed.

Lemma rstrip_slash_end (s p : string) : rstrip_slash s <> p ++ "/".
Proof.
  revert p; induction s as [|c rest IH]; intros p; simpl.
  - intros H. symmetry in H. now apply append_slash_not_empty in H.
  - destruct (rstrip_slash rest) as [|c' r] eqn:Hr.
    + destruct (Ascii.eqb_spec c slash) as [->|Hc].
      * intros H. symmetry in H. now apply append_slash_not_empty in H.
      * destruct p as [|a q]; simpl.
        -- intros H. inversion H. unfold slash in Hc. congruence.
        -- intros H. inversion H as [[Ha Hq]]. symmetry in Hq.
           now apply append_slash_not_empty in Hq.
    + destruct p as [|a p']; simpl.
      * intros H. inversion H.
      * intros H. inversion H. now apply (IH p').
Qed.

(** What [_last_segment] returns on a string. *)
Lemma _last_segment_str (s : string) :
  s <> "" ->
  _last_segment (JStr s) = Ok (Some (last (split_slash (rstrip_slash s)) "")).
Proof.
  intros Hs. unfold _last_segment. simpl.
  destruct (String.eqb_spec s ""); [congruence|]. simpl.
  destruct (split_slash_cons (rstrip_slash s)) as (seg & segs & E).
  now rewrite E.
Qed.

Lemma only_slashes_segment (s : string) :
  only_slashes s = true -> last (split_slash (rstrip_slash s)) "" = "".
Proof.
  intros H. apply rstrip_slash_empty in H. now rewrite H.
Qed.

Lemma last_In (parts : list string) (d : string) :
  parts <> [] -> In (last parts d) parts.
Proof.
  induction parts as [|x rest IH]; [congruence|]. intros _.
  destruct rest as [|y rest']; [now left|].
  right. apply IH. discriminate.
Qed.

Lemma last_segment_decomposition (s : string) :
  only_slashes s = false ->
  exists pre seg tail,
    s = pre ++ seg ++ tail /\
    (pre = "" \/ exists p, pre = p ++ "/") /\
    seg <> "" /\ no_slash seg = true /\ only_slashes tail = true /\
    last (split_slash (rstrip_slash s)) "" = seg.
Proof.
  intros Hs.
  destruct (rstrip_slash_tail s) as (tail & Es & Ht).
  destruct (split_slash_cons (rstrip_slash s)) as (seg0 & segs & E).
  assert (Hne : split_slash (rstrip_slash s) <> []) by (rewrite E; discriminate).
  destruct (join_slash_last _ Hne) as (pre & Ej & Hpre).
  rewrite join_split_slash in Ej.
  exists pre, (last (split_slash (rstrip_slash s)) ""), tail.
  split; [rewrite <- append_assoc, <- Ej; exact Es|].
  split; [exact Hpre|].
  split.
  { intros Hseg. rewrite Hseg, append_empty_r in Ej.
    destruct Hpre as [->|(p & ->)].
    - apply rstrip_slash_empty in Ej. congruence.
    - now apply rstrip_slash_end in Ej. }
  split.
  { pose proof (split_slash_no_slash (rstrip_slash s)) as Hall.
    rewrite Forall_forall in Hall. apply Hall. now apply last_In. }
  split; [exact Ht | reflexivity].
Qed.

(** What identifier extraction ([_last_segment], [extract_chassis_id])
    returns on every reference.  It strips the trailing slashes and
    returns the final segment, which is not empty whenever the string
    holds a character other than a slash.  On a reference that is
    absent ([None]) or empty the result is [None]; on a string of
    slashes only it is the empty string, which every caller skips with
    [if not ...] as it skips [None]. *)
Theorem last_segment_spec :
  (_last_segment JNull = Ok None /\ _last_segment (JStr "") = Ok None) /\
  (forall s, s <> "" -> only_slashes s = true ->
     _last_segment (JStr s) = Ok (Some "") /\ id_truthy (Some "") = false) /\
  (forall s, only_slashes s = false ->
     exists pre seg tail,
       s = pre ++ seg ++ tail /\
       (pre = "" \/ exists p, pre = p ++ "/") /\
       seg <> "" /\ no_slash seg = true /\ only_slashes tail = true /\
       _last_segment (JStr s) = Ok (Some seg) /\
       extract_chassis_id (JStr s) = Ok (Some seg) /\
       id_truthy (Some seg) = true) /\
  _last_segment (JStr "/redfish/v1/Chassis/7/") = Ok (Some "7") /\
  (exists r, _last_segment (JStr "/") = Ok r /\ id_truthy r = false).
Proof.
  split; [split; reflexivity|].
  split.
  { intros s Hs Hall. split; [|reflexivity].
    rewrite (_last_segment_str s Hs). now rewrite only_slashes_segment. }
  split.
  { intros s Hs.
    assert (Hne : s <> "") by (intros ->; discriminate).
    destruct (last_segment_decomposition s Hs)
      as (pre & seg & tail & E & Hpre & Hseg & Hno & Ht & Hl).
    exists pre, seg, tail.
    unfold extract_chassis_id. rewrite (_last_segment_str s Hne), Hl.
    repeat (split; [assumption || reflexivity|]).
    simpl. now destruct (String.eqb_spec seg ""). }
  split; [reflexivity|].
  exists (Some ""). split; reflexivity.
Qed.

Lemma last_segment_spec_witness :
  (exists pre seg tail,
     "/redfish/v1/Systems/1/Storage/RAID.Slot.3-1//" = pre ++ seg ++ tail /\
     (pre = "" \/ exists p, pre = p ++ "/") /\
     seg <> "" /\ no_slash seg = true /\ only_slashes tail = true /\
     _last_segment (JStr "/redfish/v1/Systems/1/Storage/RAID.Slot.3-1//")
       = Ok (Some seg) /\
     extract_chassis_id (JStr "/redfish/v1/Systems/1/Storage/RAID.Slot.3-1//")
       = Ok (Some seg) /\
     id_truthy (Some seg) = true) /\
  (_last_segment (JStr "///") = Ok (Some "") /\ id_truthy (Some "") = false).
Proof.
  split.
  - apply (proj1 (proj2 (proj2 last_segment_spec))). reflexivity.
  - apply (proj1 (proj2 last_segment_spec)); [discriminate | reflexivity].
Defined.

(** C7.  On the reference ["/"] identifier extraction does not return
    nothing: it returns the empty string.  [str.split] never returns an
    empty list (["/".rstrip("/").split("/")] is [[""]]), so the branch
    [else None] of [parts[-1] if parts else None] is never taken, and
    [None] is returned only for a reference that is falsy to begin
    with.  The same holds for every string of slashes. *)
Theorem last_segment_slash_gives_empty_string :
  _last_segment (JStr "/") = Ok (Some "") /\
  extract_chassis_id (JStr "/") = Ok (Some "") /\
  _last_segment (JStr "/") <> Ok None /\
  (forall s, s <> "" -> only_slashes s = true ->
     _last_segment (JStr s) = Ok (Some "") /\
     extract_chassis_id (JStr s) = Ok (Some "")) /\
  (forall s, split_slash s <> []) /\
  (forall odata_id, _last_segment odata_id = Ok None <-> truthy odata_id = false).
Proof.
  split; [reflexivity|]. split; [reflexivity|]. split; [discriminate|].
  split; [|split].
  - intros s Hs Hall. unfold extract_chassis_id.
    rewrite (_last_segment_str s Hs), only_slashes_segment by assumption.
    split; reflexivity.
  - intros s. destruct (split_slash_cons s) as (seg & segs & E).
    rewrite E. discriminate.
  - intros odata_id. unfold _last_segment.
    destruct (truthy odata_id) eqn:Ht; cbn [negb]; split;
      try reflexivity; try discriminate.
    intros H. exfalso.
    destruct (py_rstrip_slash odata_id) as [s|e]; cbn [bind] in H;
      [|discriminate H].
    destruct (split_slash_cons s) as (seg & segs & E).
    rewrite E in H. discriminate.
Qed.

(** ** Capacity conversion *)

Lemma round_half_even_nearest (a b : Z) :
  0 < b ->
  2 * Z.abs (a - round_half_even a b * b) <= b /\
  (2 * Z.abs (a - round_half_even a b * b) = b ->
   Z.even (round_half_even a b) = true).
Proof.
  intros Hb. unfold round_half_even.
  pose proof (Z.div_mod a b ltac:(lia)) as Hdm.
  pose proof (Z.mod_pos_bound a b Hb) as Hr.
  set (q := a / b) in *. set (r := a mod b) in *.
  destruct (2 * r <? b) eqn:H1.
  - apply Z.ltb_lt in H1. split; lia.
  - apply Z.ltb_ge in H1. destruct (b <? 2 * r) eqn:H2.
    + apply Z.ltb_lt in H2. split; lia.
    + apply Z.ltb_ge in H2. destruct (Z.even q) eqn:He.
      * split; [lia | auto].
      * split; [lia|]. intros _. rewrite Z.even_add, He. reflexivity.
Qed.

(** C8.  [_bytes_to_gib] divides by 1024^3 and rounds to two decimals:
    the result, in hundredths, is the integer nearest to
    [100 * num_bytes / 2^30], the even one at a half (for byte counts a
    double holds exactly).  10,737,418,240 bytes give 10.0, 0 bytes give
    0.0, and an absent [CapacityBytes] gives [None], the sentinel shown
    as ["NA"], never a number. *)
Theorem bytes_to_gib_conversion :
  _bytes_to_gib (JInt 10737418240) = Some (Hundredths 1000) /\
  _bytes_to_gib (JInt 0) = Some (Hundredths 0) /\
  _bytes_to_gib JNull = None /\
  (forall vol, dict_get vol "CapacityBytes" = None ->
     exists b, safe_get (JObj vol) [KStr "CapacityBytes"] JNull = Ok b /\
               _bytes_to_gib b = None) /\
  (forall n, Z.abs n < 2 ^ 53 ->
     exists k, _bytes_to_gib (JInt n) = Some (Hundredths k) /\
               2 * Z.abs (100 * n - k * 1024 ^ 3) <= 1024 ^ 3 /\
               (2 * Z.abs (100 * n - k * 1024 ^ 3) = 1024 ^ 3 -> Z.even k = true)).
Proof.
  split; [reflexivity|]. split; [reflexivity|]. split; [reflexivity|].
  split.
  - intros vol Hv. exists JNull. split; [|reflexivity].
    simpl. unfold safe_get_step. simpl. now rewrite Hv.
  - intros n Hn. unfold _bytes_to_gib. simpl int_value. cbv iota.
    unfold nearest_double.
    destruct (Z.abs n <? 2 ^ 53) eqn:Hlt; [|apply Z.ltb_ge in Hlt; lia].
    eexists. split; [reflexivity|].
    change (1024 ^ 3) with (2 ^ 30).
    apply round_half_even_nearest. reflexivity.
Qed.

Lemma bytes_to_gib_conversion_witness :
  (exists k, _bytes_to_gib (JInt 1999844147200) = Some (Hundredths k) /\
             2 * Z.abs (100 * 1999844147200 - k * 1024 ^ 3) <= 1024 ^ 3 /\
             (2 * Z.abs (100 * 1999844147200 - k * 1024 ^ 3) = 1024 ^ 3 ->
              Z.even k = true)) /\
  (exists b, safe_get (JObj [("Name", JStr "Virtual Disk 0"); ("RAIDType", JNull)])
               [KStr "CapacityBytes"] JNull = Ok b /\
             _bytes_to_gib b = None).
Proof.
  split.
  - apply (proj2 (proj2 (proj2 (proj2 bytes_to_gib_conversion)))).
    reflexivity.
  - apply (proj1 (proj2 (proj2 (proj2 bytes_to_gib_conversion)))).
    reflexivity.
Defined.

(** ** Loops *)

Lemma for_each_app {A S : Type} (body : S -> A -> res S) (xs ys : list A) (st : S) :
  for_each body (xs ++ ys) st = (st' <- for_each body xs st ;; for_each body ys st').
Proof.
  revert st; induction xs as [|x xs IH]; intros st; simpl; [reflexivity|].
  destruct (body st x); simpl; [apply IH | reflexivity].
Qed.

(** A property kept by every turn is kept by the loop. *)
Lemma for_each_invariant {A S : Type} (P : S -> Prop) (body : S -> A -> res S) :
  (forall st x st', P st -> body st x = Ok st' -> P st') ->
  forall xs st st', P st -> for_each body xs st = Ok st' -> P st'.
Proof.
  intros Hbody xs. induction xs as [|x xs IH]; intros st st' HP H; simpl in H.
  - now inversion H; subst.
  - destruct (body st x) as [st1|e] eqn:Hb; simpl in H; [|discriminate].
    apply (IH st1); [|exact H]. now apply (Hbody st x).
Qed.

Lemma bind_ok {A B : Type} (m : res A) (f : A -> res B) (b : B) :
  (x <- m ;; f x) = Ok b -> exists a, m = Ok a /\ f a = Ok b.
Proof. destruct m as [a|e]; simpl; [now exists a | discriminate]. Qed.

(** Splits a successful run along its binds and tests. *)
Ltac run H :=
  repeat
    (match type of H with
     | Ok _ = Ok _ => inversion H; subst; clear H
     | Raise _ = Ok _ => discriminate H
     | bind _ _ = Ok _ =>
         let a := fresh "a" in
         let Ha := fresh "Ha" in
         apply bind_ok in H; destruct H as (a & Ha & H)
     | (if ?c then _ else _) = Ok _ => destruct c eqn:?
     | (match ?x with _ => _ end) = Ok _ => destruct x eqn:?
     | (let '(_, _) := ?x in _) = Ok _ => destruct x eqn:?
     end).

(** ** The RAID walk *)

Lemma classify_raid_summary (r : ReportRaid.result) :
  ReportRaid.classify r =
  raid_summary (ReportRaid.raid_detected r) (ReportRaid.raid_capable r) (has_volumes r).
Proof.
  unfold ReportRaid.classify, raid_summary, has_volumes.
  destruct (ReportRaid.raid_detected r), (ReportRaid.raid_capable r),
    (ReportRaid.volumes r); reflexivity.
Qed.

(** A walk that gets as far as the storage members ends with the
    message of [classify]. *)
Lemma raid_walk_reaches (host : host_dir) (hn dc : string) (r : ReportRaid.result) :
  reaches_storage_members host ->
  ReportRaid.get_raid_information host hn dc = Ok r ->
  ReportRaid.message r = ReportRaid.classify r.
Proof.
  intros (sm & first_ref & sys & coll & stm &
          Hts & Hsm & Htm & Href & Hseg & Hsys & Hcoll & Htc & Hstm & Htstm) H.
  unfold ReportRaid.get_raid_information in H. cbv zeta in H.
  rewrite Hts in H. cbn [negb] in H.
  rewrite Hsm in H. cbn [bind] in H.
  assert (Eor : py_or sm (JArr []) = sm) by (unfold py_or; now rewrite Htm).
  rewrite Eor, Htm in H. cbn [negb] in H.
  rewrite Href in H. cbn [bind] in H.
  rewrite Hseg in H. cbn [bind] in H.
  assert (Eid : id_truthy (Some sys) = true)
    by (simpl; now destruct (String.eqb_spec sys "")).
  rewrite Eid in H. cbn [negb] in H.
  assert (Eor2 : py_or stm (JArr []) = stm) by (unfold py_or; now rewrite Htstm).
  unfold py_or in Hcoll.
  destruct (truthy (_read_json host ["Systems"; sys; "Storage.json"]));
    cbn [negb] in H; rewrite <- Hcoll in H;
    rewrite Htc in H; cbn [negb] in H;
    rewrite Hstm in H; cbn [bind] in H;
    rewrite Eor2, Htstm in H; cbn [negb] in H;
    run H; reflexivity.
Qed.

Lemma py_or_empty_truthy (a : json) :
  truthy (py_or a (JArr [])) = true -> truthy a = true /\ py_or a (JArr []) = a.
Proof.
  unfold py_or. destruct (truthy a); [auto | discriminate].
Qed.

(** A walk either stops with one of the early messages or gets as far
    as the storage members. *)
Lemma raid_walk_stages (host : host_dir) (hn dc : string) (r : ReportRaid.result) :
  ReportRaid.get_raid_information host hn dc = Ok r ->
  (ReportRaid.message r = ReportRaid.no_systems \/
   ReportRaid.message r = ReportRaid.no_storage) \/
  reaches_storage_members host.
Proof.
  unfold ReportRaid.get_raid_information. intros H.
  run H; try (left; simpl; tauto).
  right.
  repeat match goal with
         | Hn : negb _ = false |- _ => apply negb_false_iff in Hn
         end.
  match goal with
  | Hs : truthy (py_or ?a (JArr [])) = true,
    Hf : safe_get (py_or ?a (JArr [])) [KInt 0; _] JNull = Ok ?ref,
    Hl : _last_segment ?ref = Ok (Some ?sys),
    Hid : id_truthy (Some ?sys) = true,
    Hp : _ = (?coll, _),
    Hc : truthy ?coll = true,
    Hm : safe_get ?coll _ _ = Ok ?sm,
    Hsm : truthy (py_or ?sm (JArr [])) = true |- _ =>
      destruct (py_or_empty_truthy _ Hs) as [Hta Ea]; rewrite Ea in Hf;
      destruct (py_or_empty_truthy _ Hsm) as [Htsm _];
      exists a, ref, sys, coll, sm;
      repeat split; try assumption;
      [ simpl in Hid; now destruct (String.eqb_spec sys "")
      | unfold py_or;
        destruct (truthy (_read_json host ["Systems"; sys; "Storage.json"]));
        cbn [negb] in Hp; now inversion Hp ]
  end.
Qed.

(** C6.  A RAID walk that gets as far as the storage members ends with
    the message the rule gives for its flags, tried in order: with RAID
    detected, "Hardware RAID detected"; else, RAID-capable with volumes
    present, "RAID-capable controller with volumes in HBA mode"; else,
    RAID-capable with no volume, "RAID supported but not configured";
    else "No hardware RAID detected (possible HBA or software RAID)".
    A walk that stops before has one of the two messages of the early
    returns. *)
Theorem raid_message_classification
  (host : host_dir) (hn dc : string) (r : ReportRaid.result) :
  ReportRaid.get_raid_information host hn dc = Ok r ->
  (reaches_storage_members host ->
   ReportRaid.message r =
     raid_summary (ReportRaid.raid_detected r) (ReportRaid.raid_capable r)
       (has_volumes r) /\
   (ReportRaid.raid_detected r = true ->
    ReportRaid.message r = "Hardware RAID detected") /\
   (ReportRaid.raid_detected r = false -> ReportRaid.raid_capable r = true ->
    ReportRaid.volumes r <> [] ->
    ReportRaid.message r = "RAID-capable controller with volumes in HBA mode") /\
   (ReportRaid.raid_detected r = false -> ReportRaid.raid_capable r = true ->
    ReportRaid.volumes r = [] ->
    ReportRaid.message r = "RAID supported but not configured") /\
   (ReportRaid.raid_detected r = false -> ReportRaid.raid_capable r = false ->
    ReportRaid.message r
    = "No hardware RAID detected (possible HBA or software RAID)")) /\
  (~ reaches_storage_members host ->
   ReportRaid.message r = ReportRaid.no_systems \/
   ReportRaid.message r = ReportRaid.no_storage).
Proof.
  intros H. split.
  - intros Hreach. rewrite (raid_walk_reaches host hn dc r Hreach H).
    split; [apply classify_raid_summary|].
    unfold ReportRaid.classify.
    split; [|split; [|split]].
    + now intros ->.
    + intros -> -> Hv. now destruct (ReportRaid.volumes r).
    + now intros -> -> ->.
    + now intros -> ->.
  - intros Hn. destruct (raid_walk_stages host hn dc r H) as [Hm|Hreach];
      [exact Hm | now destruct (Hn Hreach)].
Qed.

(** Shows that the walk of a sample host gets to the storage members. *)
Ltac reach :=
  unfold reaches_storage_members; do 5 eexists;
  repeat match goal with
         | |- _ /\ _ => split
         end;
  try (vm_compute; reflexivity); try discriminate.

Lemma raid_message_classification_witness :
  (exists r,
     ReportRaid.get_raid_information storages_host_volume_under_storage
       "node-1" "dc1" = Ok r /\
     ReportRaid.message r = "Hardware RAID detected" /\
     ReportRaid.message r =
       raid_summary (ReportRaid.raid_detected r) (ReportRaid.raid_capable r)
         (has_volumes r)) /\
  (exists r,
     ReportRaid.get_raid_information mixed_volumes_host "node-1" "dc1" = Ok r /\
     ReportRaid.message r = "RAID-capable controller with volumes in HBA mode" /\
     ReportRaid.message r =
       raid_summary (ReportRaid.raid_detected r) (ReportRaid.raid_capable r)
         (has_volumes r)) /\
  (exists r,
     ReportRaid.get_raid_information raid_capable_host "node-1" "dc1" = Ok r /\
     ReportRaid.message r = "RAID supported but not configured" /\
     ReportRaid.message r =
       raid_summary (ReportRaid.raid_detected r) (ReportRaid.raid_capable r)
         (has_volumes r)) /\
  (exists r,
     ReportRaid.get_raid_information plain_controller_host "node-1" "dc1" = Ok r /\
     ReportRaid.message r
     = "No hardware RAID detected (possible HBA or software RAID)" /\
     ReportRaid.message r =
       raid_summary (ReportRaid.raid_detected r) (ReportRaid.raid_capable r)
         (has_volumes r)) /\
  (exists r,
     ReportRaid.get_raid_information (files []) "node-1" "dc1" = Ok r /\
     (ReportRaid.message r = ReportRaid.no_systems \/
      ReportRaid.message r = ReportRaid.no_storage)).
Proof.
  split; [|split; [|split; [|split]]].
  - eexists. split; [vm_compute; reflexivity|]. split; [reflexivity|].
    eapply proj1.
    apply (proj1 (raid_message_classification storages_host_volume_under_storage
                    "node-1" "dc1" _ ltac:(vm_compute; reflexivity))).
    reach.
  - eexists. split; [vm_compute; reflexivity|]. split; [reflexivity|].
    eapply proj1.
    apply (proj1 (raid_message_classification mixed_volumes_host
                    "node-1" "dc1" _ ltac:(vm_compute; reflexivity))).
    reach.
  - eexists. split; [vm_compute; reflexivity|]. split; [reflexivity|].
    eapply proj1.
    apply (proj1 (raid_message_classification raid_capable_host
                    "node-1" "dc1" _ ltac:(vm_compute; reflexivity))).
    reach.
  - eexists. split; [vm_compute; reflexivity|]. split; [reflexivity|].
    eapply proj1.
    apply (proj1 (raid_message_classification plain_controller_host
                    "node-1" "dc1" _ ltac:(vm_compute; reflexivity))).
    reach.
  - eexists. split; [vm_compute; reflexivity|].
    apply (proj2 (raid_message_classification (files [])
                    "node-1" "dc1" _ ltac:(vm_compute; reflexivity))).
    intros (sm & ref & sys & coll & stm & Hs & _). vm_compute in Hs.
    discriminate Hs.
Defined.

Lemma controller_body_keeps_volumes (r r' : ReportRaid.result) (ctrl : json) :
  ReportRaid.controller_body r ctrl = Ok r' ->
  ReportRaid.volumes r' = ReportRaid.volumes r /\
  ReportRaid.raid_detected r' = ReportRaid.raid_detected r.
Proof.
  unfold ReportRaid.controller_body. intros H. run H.
  match goal with |- context [if ?c then _ else _] => destruct c end;
    split; reflexivity.
Qed.

Lemma volume_body_flag_is_last
  (host : host_dir) (sys sid : string) (r r' : ReportRaid.result) (vmem : json) :
  flag_is_last r -> ReportRaid.volume_body host sys sid r vmem = Ok r' ->
  flag_is_last r'.
Proof.
  unfold ReportRaid.volume_body. intros HP H. run H; auto.
  unfold flag_is_last, last_volume_has_raid. simpl.
  now rewrite rev_unit.
Qed.

Lemma storage_body_flag_is_last
  (host : host_dir) (sys dir : string) (r r' : ReportRaid.result) (member : json) :
  flag_is_last r -> ReportRaid.storage_body host sys dir r member = Ok r' ->
  flag_is_last r'.
Proof.
  unfold ReportRaid.storage_body. intros HP H. run H; auto.
  all: match goal with
       | Hc : for_each ReportRaid.controller_body _ _ = Ok ?r1 |- _ =>
           assert (HP1 : flag_is_last r1)
             by (revert Hc; apply for_each_invariant; auto;
                 intros st x st' Hst Hb;
                 apply controller_body_keeps_volumes in Hb;
                 destruct Hb as [Hv Hd]; unfold flag_is_last; now rewrite Hv, Hd)
       end; auto.
  revert H. apply for_each_invariant; auto.
  intros st x st'. apply volume_body_flag_is_last.
Qed.

(** The flag [raid_detected] of a completed walk is the test on the
    volume recorded last, not on any volume. *)
Lemma raid_detected_is_last (host : host_dir) (hn dc : string) (r : ReportRaid.result) :
  ReportRaid.get_raid_information host hn dc = Ok r -> flag_is_last r.
Proof.
  unfold ReportRaid.get_raid_information. intros H.
  run H; try reflexivity.
  match goal with
  | Hs : for_each (ReportRaid.storage_body _ _ _) _ _ = Ok ?r1 |- _ =>
      change (flag_is_last r1); revert Hs
  end.
  apply for_each_invariant.
  - intros st x st'. apply storage_body_flag_is_last.
  - reflexivity.
Qed.

(** C3.  On a host whose first volume has [RAIDType] ["RAID1"] and whose
    second volume has none, both volumes are recorded, one of them
    carries a RAID type, and still [raid_detected] ends false: the
    assignment in the loop keeps the test of the last volume only. *)
Theorem raid_detected_last_volume_wins :
  exists r,
    ReportRaid.get_raid_information mixed_volumes_host "node-1" "dc1" = Ok r /\
    map ReportRaid.raid_type (ReportRaid.volumes r) = [JStr "RAID1"; JNull] /\
    some_volume_has_raid (ReportRaid.volumes r) = true /\
    ReportRaid.raid_detected r = false /\
    ReportRaid.message r = "RAID-capable controller with volumes in HBA mode".
Proof.
  eexists. split; [vm_compute; reflexivity|]. repeat split.
Qed.

(** C2.  On a host that serves [Storages.json] only, the storage
    document and the volumes collection are read under [Storages] (the
    controller is recorded), but the volume document
    [Systems/1/Storages/0/Volumes/A.json] is never read: the walk looks
    for it under [Storage], records no volume and reports RAID as not
    configured.  It does record the volume when the document is put
    under [Systems/1/Storage/0/Volumes/]. *)
Theorem raid_volume_path_ignores_fallback :
  (exists doc,
     storages_host ["Systems"; "1"; "Storages"; "0"; "Volumes"; "A.json"]
       = Ok (Some doc)) /\
  (exists r,
     ReportRaid.get_raid_information storages_host "node-1" "dc1" = Ok r /\
     List.length (ReportRaid.controllers r) = 1%nat /\
     ReportRaid.volumes r = [] /\
     ReportRaid.raid_detected r = false /\
     ReportRaid.message r = "RAID supported but not configured") /\
  (exists r,
     ReportRaid.get_raid_information storages_host_volume_under_storage
       "node-1" "dc1" = Ok r /\
     map ReportRaid.raid_type (ReportRaid.volumes r) = [JStr "RAID1"] /\
     ReportRaid.message r = "Hardware RAID detected").
Proof.
  split; [eexists; vm_compute; reflexivity|].
  split; eexists; (split; [vm_compute; reflexivity|]); repeat split.
Qed.

(** ** The power walk *)

Lemma truthy_len (v : json) (n : Z) :
  truthy v = true -> py_len v = Ok n -> 0 < n.
Proof.
  destruct v as [| b | k | x | s | [|y items] | [|f fields]]; simpl;
    try discriminate; intros Ht Hl; inversion Hl; subst; try lia.
  destruct s; simpl in *; [discriminate | lia].
Qed.

Section PowerFacts.

Variable sg : json -> list key -> json -> res json.
Variable host : host_dir.

Lemma add_state_metrics (st : PowerWalk.state) (s : string) :
  metrics (PowerWalk.add_state st s) = metrics st /\
  PowerWalk.power_metrics_found (PowerWalk.add_state st s)
    = PowerWalk.power_metrics_found st.
Proof. split; reflexivity. Qed.

Lemma read_power_capture (cid : string) (detail : json) (st st' : PowerWalk.state) :
  PowerWalk.read_power sg host cid detail st = Ok st' ->
  PowerWalk.states st' = PowerWalk.states st /\
  match host ["Chassis"; cid; "Power.json"] with
  | Ok (Some power_data) =>
      match py_get detail "Power" JNull,
            py_get power_data "PowerControl" (JArr []) with
      | Ok power_ref, Ok power_control =>
          if (truthy power_ref && is_dict power_ref && truthy power_control)%bool
          then exists pc, py_getitem power_control (KInt 0) = Ok pc /\
                          PowerWalk.power_metrics_found st' = true /\
                          read_from sg pc (metrics st')
          else st' = st
      | _, _ => st' = st
      end
  | _ => st' = st
  end.
Proof.
  unfold PowerWalk.read_power. intros H. run H; simpl; auto.
  all: repeat match goal with
         | Hx : ?e = _ |- context [?e] => rewrite Hx
         end; simpl; auto.
  - split; [reflexivity|]. eexists. repeat split; eauto.
  - exfalso.
    match goal with
    | Ht : truthy ?v = true, Hl : py_len ?v = Ok ?n, Hz : (0 <? ?n) = false |- _ =>
        pose proof (truthy_len _ _ Ht Hl); apply Z.ltb_ge in Hz; lia
    end.
  - split; [reflexivity|].
    destruct (host ["Chassis"; cid; "Power.json"]) as [[pd|]|]; try reflexivity.
    destruct (py_get pd "PowerControl" (JArr [])); reflexivity.
Qed.

(** One turn of the loop: a chassis met after the capture changes no
    metric; before it, the metrics are those of the data the chassis
    offers, if it offers any. *)
Lemma member_body_capture (st st' : PowerWalk.state) (member : json) :
  PowerWalk.member_body sg host st member = Ok st' ->
  (PowerWalk.power_metrics_found st = true ->
     PowerWalk.power_metrics_found st' = true /\ metrics st' = metrics st) /\
  (PowerWalk.power_metrics_found st = false ->
     match offered host member with
     | Some pc =>
         PowerWalk.power_metrics_found st' = true /\ read_from sg pc (metrics st')
     | None =>
         PowerWalk.power_metrics_found st' = false /\ metrics st' = metrics st
     end).
Proof.
  unfold PowerWalk.member_body, offered. intros H.
  apply bind_ok in H. destruct H as (target & Ht & H). rewrite Ht.
  apply bind_ok in H. destruct H as (cid_opt & Hc & H). rewrite Hc.
  destruct cid_opt as [cid|]; [|inversion H; subst; auto].
  destruct (id_truthy (Some cid)) eqn:Hid; cbn [negb] in H;
    [|inversion H; subst; auto].
  destruct (host ["Chassis"; cid ++ ".json"]) as [[detail|]|e]; cbn [bind] in H;
    [|inversion H; subst; auto|discriminate H].
  apply bind_ok in H. destruct H as (ps & Hps & H).
  apply bind_ok in H. destruct H as (st1 & Hst1 & H).
  assert (Hm1 : metrics st1 = metrics st /\
                PowerWalk.power_metrics_found st1 = PowerWalk.power_metrics_found st)
    by (destruct (negb (is_NA ps)); run Hst1; auto).
  destruct Hm1 as [Hm1 Hf1].
  destruct (PowerWalk.power_metrics_found st1) eqn:Hf; cbn [negb] in H.
  - inversion H; subst. split; intros Hst; [auto | congruence].
  - apply read_power_capture in H. destruct H as [_ H].
    split; [congruence|]. intros _.
    destruct (host ["Chassis"; cid; "Power.json"]) as [[pd|]|e];
      [|subst; auto|subst; auto].
    destruct (py_get detail "Power" JNull) as [power_ref|];
      [|subst; auto].
    destruct (py_get pd "PowerControl" (JArr [])) as [power_control|];
      [|subst; auto].
    destruct (truthy power_ref && is_dict power_ref && truthy power_control)%bool;
      [|subst; auto].
    destruct H as (pc & Hpc & Hfound & Hread). rewrite Hpc. auto.
Qed.

Lemma walk_capture (members : list json) (st st' : PowerWalk.state) :
  for_each (PowerWalk.member_body sg host) members st = Ok st' ->
  (PowerWalk.power_metrics_found st = true ->
     PowerWalk.power_metrics_found st' = true /\ metrics st' = metrics st) /\
  (PowerWalk.power_metrics_found st = false ->
     match first_offered host members with
     | Some pc =>
         PowerWalk.power_metrics_found st' = true /\ read_from sg pc (metrics st')
     | None =>
         PowerWalk.power_metrics_found st' = false /\ metrics st' = metrics st
     end).
Proof.
  revert st; induction members as [|m rest IH]; intros st H; simpl in H.
  - inversion H; subst. simpl. auto.
  - apply bind_ok in H. destruct H as (st1 & Hm & H).
    apply member_body_capture in Hm. destruct Hm as [Hm1 Hm2].
    apply IH in H. destruct H as [H1 H2]. split.
    + intros Hf. destruct (Hm1 Hf) as [Hf1 E1].
      destruct (H1 Hf1) as [Hf' E']. split; congruence.
    + intros Hf. specialize (Hm2 Hf). cbn [first_offered].
      destruct (offered host m) as [pc|].
      * destruct Hm2 as [Hf1 Hr]. destruct (H1 Hf1) as [Hf' E'].
        split; [assumption | now rewrite E'].
      * destruct Hm2 as [Hf1 E1]. specialize (H2 Hf1).
        destruct (first_offered host rest); [assumption|].
        destruct H2 as [Hf' E']. split; congruence.
Qed.

End PowerFacts.

Lemma first_offered_app (host : host_dir) (pre post : list json) (m pc : json) :
  Forall (fun x => offered host x = None) pre -> offered host m = Some pc ->
  first_offered host (pre ++ m :: post)%list = Some pc.
Proof.
  intros Hpre Hm. induction Hpre as [|x pre Hx _ IH]; simpl.
  - now rewrite Hm.
  - now rewrite Hx.
Qed.

Lemma power_metrics_first_offered
  (sg : json -> list key -> json -> res json) (host : host_dir) (hn dc : string)
  (r : PowerWalk.result) (chassis_data members : json) (ms : list json) :
  host ["Chassis.json"] = Ok (Some chassis_data) ->
  py_get chassis_data "Members" (JArr []) = Ok members ->
  py_iter members = Ok ms ->
  PowerWalk.get_power_metrics sg host hn dc = Ok r ->
  match first_offered host ms with
  | Some pc => read_from sg pc (reported r)
  | None => reported r = not_available
  end.
Proof.
  intros Hc Hm Hi. unfold PowerWalk.get_power_metrics. intros H.
  apply bind_ok in H. destruct H as (index & _ & H).
  apply bind_ok in H. destruct H as (version & _ & H).
  rewrite Hc in H. cbn [bind] in H.
  rewrite Hm in H. cbn [bind] in H.
  destruct (negb (truthy members)) eqn:Ht.
  - inversion H; subst.
    assert (ms = []) as ->.
    { destruct members as [| b | n | x | s | [|y items] | [|f fields]];
        simpl in *; try discriminate; try now inversion Hi.
      destruct s; simpl in *; [now inversion Hi | discriminate]. }
    reflexivity.
  - rewrite Hi in H. cbn [bind] in H.
    apply bind_ok in H. destruct H as (st & Hw & H). inversion H; subst.
    apply walk_capture in Hw. destruct Hw as [_ Hw]. specialize (Hw eq_refl).
    destruct (first_offered host ms) as [pc|].
    + exact (proj2 Hw).
    + exact (proj2 Hw).
Qed.

(** C4, as stated, fails: the first chassis has a [Power.json] that
    loads, yet the metrics reported are those of the second chassis. *)
Lemma power_later_chassis_contributes :
  empty_first_power_host ["Chassis"; "1"; "Power.json"]
    = Ok (Some (JObj [("PowerControl", JArr [])])) /\
  (exists r,
     ReportPower.get_power_metrics empty_first_power_host "node-1" "dc1" = Ok r /\
     reported r = (JInt 350, JInt 340, JInt 360, JInt 350)) /\
  (exists r,
     Script.get_power_metrics empty_first_power_host "node-1" "dc1" = Ok r /\
     reported r = (JInt 350, JInt 340, JInt 360, JInt 350)).
Proof.
  split; [reflexivity|].
  split; eexists; (split; [vm_compute; reflexivity | reflexivity]).
Qed.

(** C4, amended.  In both power reports the four metrics are read from
    the first chassis, in member order, that offers power data: its
    document loads and holds a [Power] reference, its [Power.json] loads
    and the [PowerControl] list in it is not empty.  The members listed
    after it change nothing, whatever power data they carry. *)
Theorem power_first_offer_wins
  (host : host_dir) (hn dc : string) (chassis_data members : json)
  (pre post : list json) (m pc : json) :
  host ["Chassis.json"] = Ok (Some chassis_data) ->
  py_get chassis_data "Members" (JArr []) = Ok members ->
  py_iter members = Ok (pre ++ m :: post)%list ->
  Forall (fun x => offered host x = None) pre ->
  offered host m = Some pc ->
  (forall r, ReportPower.get_power_metrics host hn dc = Ok r ->
     read_from safe_get pc (reported r)) /\
  (forall r, Script.get_power_metrics host hn dc = Ok r ->
     read_from safe_get_script pc (reported r)).
Proof.
  intros Hc Hm Hi Hpre Hoff.
  pose proof (first_offered_app host pre post m pc Hpre Hoff) as Hfirst.
  split; intros r Hr.
  - pose proof (power_metrics_first_offered safe_get host hn dc r _ _ _ Hc Hm Hi Hr) as H.
    now rewrite Hfirst in H.
  - pose proof (power_metrics_first_offered safe_get_script host hn dc r _ _ _ Hc Hm Hi Hr) as H.
    now rewrite Hfirst in H.
Qed.

Lemma power_first_offer_wins_witness :
  exists r,
    ReportPower.get_power_metrics two_power_host "node-1" "dc1" = Ok r /\
    reported r = (JInt 200, JInt 190, JInt 210, JInt 200) /\
    read_from safe_get
      (JObj [("PowerConsumedWatts", JInt 200);
             ("PowerMetrics",
              JObj [("MinConsumedWatts", JInt 190);
                    ("MaxConsumedWatts", JInt 210);
                    ("AverageConsumedWatts", JInt 200)])])
      (reported r).
Proof.
  eexists. split; [vm_compute; reflexivity|]. split; [reflexivity|].
  apply (proj1 (power_first_offer_wins two_power_host "node-1" "dc1"
                  (collection ["/redfish/v1/Chassis/1"; "/redfish/v1/Chassis/2"])
                  (JArr (map ref ["/redfish/v1/Chassis/1"; "/redfish/v1/Chassis/2"]))
                  [] [ref "/redfish/v1/Chassis/2"] (ref "/redfish/v1/Chassis/1") _
                  eq_refl eq_refl eq_refl (Forall_nil _) eq_refl)).
  vm_compute. reflexivity.
Defined.

(** ** Members without a chassis document *)

Lemma for_each_skip {A S : Type} (body : S -> A -> res S) (x : A) :
  (forall st, body st x = Ok st) ->
  forall pre post st,
    for_each body (pre ++ x :: post) st = for_each body (pre ++ post) st.
Proof.
  intros Hx pre post st. rewrite !for_each_app.
  destruct (for_each body pre st) as [st1|e]; simpl; [|reflexivity].
  now rewrite Hx.
Qed.

Lemma fan_member_skipped (host : host_dir) (member target : json) (cid : string)
  (r : ReportFans.result) :
  py_get member "@odata.id" JNull = Ok target ->
  extract_chassis_id target = Ok (Some cid) ->
  host ["Chassis"; cid ++ ".json"] = Ok None ->
  ReportFans.member_body host r member = Ok r.
Proof.
  intros Ht Hc Hd. unfold ReportFans.member_body.
  rewrite Ht. cbn [bind]. rewrite Hc. cbn [bind].
  destruct (negb (id_truthy (Some cid))); [reflexivity|]. now rewrite Hd.
Qed.

Lemma power_member_skipped (sg : json -> list key -> json -> res json)
  (host : host_dir) (member target : json) (cid : string) (st : PowerWalk.state) :
  py_get member "@odata.id" JNull = Ok target ->
  extract_chassis_id target = Ok (Some cid) ->
  host ["Chassis"; cid ++ ".json"] = Ok None ->
  PowerWalk.member_body sg host st member = Ok st.
Proof.
  intros Ht Hc Hd. unfold PowerWalk.member_body.
  rewrite Ht. cbn [bind]. rewrite Hc. cbn [bind].
  destruct (negb (id_truthy (Some cid))); [reflexivity|]. now rewrite Hd.
Qed.

(** In the temperature walk the member is still asked for its
    [Thermal.json]. *)
Lemma temperature_member_without_detail
  (host : host_dir) (member target : json) (cid : string)
  (r : ReportTemperature.result) :
  safe_get member [KStr "@odata.id"] JNull = Ok target ->
  _last_segment target = Ok (Some cid) ->
  id_truthy (Some cid) = true ->
  truthy (_read_json host ["Chassis"; cid ++ ".json"]) = false ->
  ReportTemperature.member_body host r member =
  (let thermal_data := _read_json host ["Chassis"; cid; "Thermal.json"] in
   if negb (truthy thermal_data) then Ok r
   else
     ts <- safe_get thermal_data [KStr "Temperatures"] (JArr []) ;;
     tl <- py_iter (py_or ts (JArr [])) ;;
     for_each (ReportTemperature.sensor_body cid) tl r).
Proof.
  intros Ht Hc Hid Hd. unfold ReportTemperature.member_body.
  rewrite Ht. cbn [bind]. rewrite Hc. cbn [bind].
  rewrite Hid. cbn [negb]. rewrite Hd. reflexivity.
Qed.

Lemma sensor_loop_keeps_states (cid : string) (tl : list json)
  (r r' : ReportTemperature.result) :
  for_each (ReportTemperature.sensor_body cid) tl r = Ok r' ->
  ReportTemperature.power_states r' = ReportTemperature.power_states r.
Proof.
  revert r. induction tl as [|t tl IH]; intros r H; simpl in H.
  - now inversion H.
  - apply bind_ok in H. destruct H as (r1 & H1 & H).
    apply IH in H. rewrite H.
    unfold ReportTemperature.sensor_body in H1. run H1. reflexivity.
Qed.

Lemma py_get_safe_get (member target : json) (k : string) :
  py_get member k JNull = Ok target ->
  safe_get member [KStr k] JNull = Ok target.
Proof.
  destruct member; simpl; try discriminate. intros H. inversion H; subst.
  unfold safe_get_step. simpl.
  destruct (dict_get fields k) as [c|]; simpl; [|reflexivity].
  destruct c; reflexivity.
Qed.

(** C5, as stated, fails in the temperature walk: the second member has
    no chassis document and still contributes a sensor reading. *)
Lemma temperature_member_without_detail_contributes :
  three_chassis_host ["Chassis"; "2.json"] = Ok None /\
  exists r,
    ReportTemperature.get_temperature_information three_chassis_host "node-1" "dc1"
      = Ok r /\
    map ReportTemperature.chassis_id (ReportTemperature.temperatures r)
      = ["1"; "2"; "3"] /\
    ReportTemperature.power_states r = ["on"; "off"].
Proof.
  split; [reflexivity|].
  eexists. split; [vm_compute; reflexivity|]. split; reflexivity.
Qed.

Lemma no_document_read (host : host_dir) (p : path) :
  no_document host p -> _read_json host p = JNull.
Proof.
  intros H. unfold _read_json.
  destruct (host p) as [[doc|]|e] eqn:E; try reflexivity. now destruct (H doc).
Qed.

Lemma device_member_skipped
  (host : host_dir) (member target : json) (cid : string)
  (r : ReportDeviceType.result) :
  safe_get member [KStr "@odata.id"] JNull = Ok target ->
  _last_segment target = Ok (Some cid) ->
  no_document host ["Chassis"; cid ++ ".json"] ->
  ReportDeviceType.member_body host r member = Ok r.
Proof.
  intros Ht Hc Hd. unfold ReportDeviceType.member_body.
  rewrite Ht. cbn [bind]. rewrite Hc. cbn [bind].
  destruct (negb (id_truthy (Some cid))); [reflexivity|].
  now rewrite (no_document_read _ _ Hd).
Qed.

(** A chassis document whose read fails with an exception that the
    handlers of the fan and power walks do not catch ends these walks
    with that exception. *)
Lemma unreadable_detail_aborts_fan_and_power_walks
  (host : host_dir) (member target : json) (cid : string) (e : exn) :
  py_get member "@odata.id" JNull = Ok target ->
  extract_chassis_id target = Ok (Some cid) ->
  id_truthy (Some cid) = true ->
  host ["Chassis"; cid ++ ".json"] = Raise e ->
  (forall r, ReportFans.member_body host r member = Raise e) /\
  (forall sg st, PowerWalk.member_body sg host st member = Raise e).
Proof.
  intros Ht Hc Hid Hd. split; [intros r | intros sg st].
  - unfold ReportFans.member_body.
    rewrite Ht. cbn [bind]. rewrite Hc. cbn [bind]. rewrite Hid. cbn [negb].
    now rewrite Hd.
  - unfold PowerWalk.member_body.
    rewrite Ht. cbn [bind]. rewrite Hc. cbn [bind]. rewrite Hid. cbn [negb].
    now rewrite Hd.
Qed.

Example undecodable_chassis_document :
  ReportFans.get_fan_metrics undecodable_chassis_host "node-1" "dc1"
    = Raise UnicodeDecodeError /\
  ReportPower.get_power_metrics undecodable_chassis_host "node-1" "dc1"
    = Raise UnicodeDecodeError /\
  Script.get_power_metrics undecodable_chassis_host "node-1" "dc1"
    = Raise UnicodeDecodeError /\
  (exists r,
     ReportTemperature.get_temperature_information undecodable_chassis_host
       "node-1" "dc1" = Ok r /\
     map ReportTemperature.chassis_id (ReportTemperature.temperatures r)
       = ["1"; "2"; "3"]) /\
  (exists r,
     ReportDeviceType.get_device_information plain_formatter
       undecodable_chassis_host "node-1" "dc1" = Ok r /\
     map ReportDeviceType.chassis_id (ReportDeviceType.chassis_info r)
       = ["1"; "3"]).
Proof.
  split; [vm_compute; reflexivity|]. split; [vm_compute; reflexivity|].
  split; [vm_compute; reflexivity|].
  split; eexists; (split; [vm_compute; reflexivity | reflexivity]).
Qed.

(** C5, amended.  Take a member whose chassis document gives nothing.
    In the fan and power walks, when the document is absent or fails to
    open or parse with an error their handlers catch, the member is
    skipped: it contributes nothing and the members around it are
    processed as if it were not listed.  The device walk skips the
    member whatever made the read fail.  The temperature walk takes no
    power state from such a member but still reads its [Thermal.json]:
    the member contributes nothing when that file gives nothing too,
    and otherwise its temperature sensors are recorded.  No walk is
    aborted by the missing document. *)
Theorem chassis_without_detail
  (host : host_dir) (member target : json) (cid : string) (pre post : list json) :
  py_get member "@odata.id" JNull = Ok target ->
  extract_chassis_id target = Ok (Some cid) ->
  id_truthy (Some cid) = true ->
  no_document host ["Chassis"; cid ++ ".json"] ->
  (host ["Chassis"; cid ++ ".json"] = Ok None ->
   (forall r,
      for_each (ReportFans.member_body host) (pre ++ member :: post)%list r =
      for_each (ReportFans.member_body host) (pre ++ post)%list r) /\
   (forall sg st,
      for_each (PowerWalk.member_body sg host) (pre ++ member :: post)%list st =
      for_each (PowerWalk.member_body sg host) (pre ++ post)%list st)) /\
  (forall r,
     for_each (ReportDeviceType.member_body host) (pre ++ member :: post)%list r =
     for_each (ReportDeviceType.member_body host) (pre ++ post)%list r) /\
  (no_document host ["Chassis"; cid; "Thermal.json"] ->
   forall r,
     for_each (ReportTemperature.member_body host) (pre ++ member :: post)%list r =
     for_each (ReportTemperature.member_body host) (pre ++ post)%list r) /\
  (forall r r',
     ReportTemperature.member_body host r member = Ok r' ->
     ReportTemperature.power_states r' = ReportTemperature.power_states r) /\
  (forall r thermal ts,
     host ["Chassis"; cid; "Thermal.json"] = Ok (Some thermal) ->
     safe_get thermal [KStr "Temperatures"] (JArr []) = Ok (JArr ts) ->
     ReportTemperature.member_body host r member =
     for_each (ReportTemperature.sensor_body cid) ts r).
Proof.
  intros Ht Hc Hid Hd.
  assert (Hd' : truthy (_read_json host ["Chassis"; cid ++ ".json"]) = false)
    by now rewrite (no_document_read _ _ Hd).
  pose proof (py_get_safe_get _ _ _ Ht) as Hs.
  pose proof (fun r => temperature_member_without_detail host member target cid r
                         Hs Hc Hid Hd') as Hbody.
  split; [|split; [|split; [|split]]].
  - intros Hnone. split.
    + intros r. apply for_each_skip. intros st.
      now apply (fan_member_skipped host member target cid).
    + intros sg st. apply for_each_skip. intros st'.
      now apply (power_member_skipped sg host member target cid).
  - intros r. apply for_each_skip. intros st.
    now apply (device_member_skipped host member target cid).
  - intros Hth r. apply for_each_skip. intros st. rewrite Hbody.
    now rewrite (no_document_read _ _ Hth).
  - intros r r'. rewrite Hbody. cbv zeta. intros H.
    destruct (negb (truthy (_read_json host ["Chassis"; cid; "Thermal.json"]))).
    + now inversion H.
    + apply bind_ok in H. destruct H as (ts & _ & H).
      apply bind_ok in H. destruct H as (tl & _ & H).
      now apply sensor_loop_keeps_states in H.
  - intros r thermal ts Hth Hts. rewrite Hbody. unfold _read_json.
    rewrite Hth. cbv zeta.
    destruct (truthy thermal) eqn:Htr; cbn [negb].
    + rewrite Hts. cbn [bind]. destruct ts; reflexivity.
    + destruct thermal as [| b | n | x | s | [|y items] | [|f fields]];
        simpl in Htr; try discriminate; simpl in Hts;
        unfold safe_get_step in Hts; simpl in Hts; inversion Hts; subst; reflexivity.
Qed.

Lemma chassis_without_detail_witness :
  (let members :=
     map ref ["/redfish/v1/Chassis/1"; "/redfish/v1/Chassis/2";
              "/redfish/v1/Chassis/3"] in
   let others := map ref ["/redfish/v1/Chassis/1"; "/redfish/v1/Chassis/3"] in
   (forall r,
      for_each (ReportFans.member_body three_chassis_host) members r =
      for_each (ReportFans.member_body three_chassis_host) others r) /\
   (forall sg st,
      for_each (PowerWalk.member_body sg three_chassis_host) members st =
      for_each (PowerWalk.member_body sg three_chassis_host) others st) /\
   (forall r,
      for_each (ReportDeviceType.member_body three_chassis_host) members r =
      for_each (ReportDeviceType.member_body three_chassis_host) others r)) /\
  (exists r,
     ReportFans.get_fan_metrics three_chassis_host "node-1" "dc1" = Ok r /\
     map ReportFans.name (ReportFans.fans r) = [JStr "Fan1"; JStr "Fan3"] /\
     ReportFans.power_states r = ["on"; "off"]) /\
  (exists r,
     ReportPower.get_power_metrics three_chassis_host "node-1" "dc1" = Ok r /\
     PowerWalk.power_states r = ["off"; "on"]) /\
  (exists r,
     ReportDeviceType.get_device_information plain_formatter three_chassis_host
       "node-1" "dc1" = Ok r /\
     map ReportDeviceType.chassis_id (ReportDeviceType.chassis_info r)
       = ["1"; "3"]) /\
  (forall r,
     ReportTemperature.member_body three_chassis_host r
       (ref "/redfish/v1/Chassis/2") =
     for_each (ReportTemperature.sensor_body "2")
       [JObj [("Name", JStr "CPU2 Temp"); ("ReadingCelsius", JInt 41);
              ("PhysicalContext", JStr "CPU")]] r).
Proof.
  pose proof (chassis_without_detail three_chassis_host
                (ref "/redfish/v1/Chassis/2") (JStr "/redfish/v1/Chassis/2") "2"
                [ref "/redfish/v1/Chassis/1"] [ref "/redfish/v1/Chassis/3"]
                eq_refl eq_refl eq_refl
                ltac:(intros doc; vm_compute; discriminate))
    as (Hskip & Hdevice & _ & _ & Hthermal).
  destruct (Hskip eq_refl) as [Hfans Hpower].
  split; [split; [exact Hfans | split; [exact Hpower | exact Hdevice]]|].
  split; [eexists; split; [vm_compute; reflexivity|]; split; reflexivity|].
  split; [eexists; split; [vm_compute; reflexivity | reflexivity]|].
  split; [eexists; split; [vm_compute; reflexivity | reflexivity]|].
  intros r. apply (Hthermal r (thermal_data "Fan2" "CPU2 Temp")); reflexivity.
Defined.

(** ** Power states *)

Lemma insert_sorted_perm (x : string) (xs : list string) :
  Permutation (x :: xs) (insert_sorted x xs).
Proof.
  induction xs as [|y rest IH]; simpl; [reflexivity|].
  destruct (String.leb x y); [reflexivity|].
  rewrite perm_swap. now constructor.
Qed.

Lemma sorted_perm (xs : list string) : Permutation xs (sorted xs).
Proof.
  induction xs as [|x rest IH]; simpl; [constructor|].
  rewrite <- insert_sorted_perm. now constructor.
Qed.

Lemma insert_sorted_sorted (x : string) (xs : list string) :
  Sorted leb_string xs -> Sorted leb_string (insert_sorted x xs).
Proof.
  induction xs as [|y rest IH]; intros Hs; simpl.
  - repeat constructor.
  - destruct (String.leb x y) eqn:Hxy.
    + constructor; [assumption|]. now constructor.
    + inversion Hs as [|? ? Hrest Hhd]; subst.
      constructor; [now apply IH|].
      destruct rest as [|z rest']; simpl.
      * constructor. destruct (String.leb_total x y) as [H|H]; [congruence|exact H].
      * destruct (String.leb x z).
        -- constructor. destruct (String.leb_total x y) as [H|H]; [congruence|exact H].
        -- inversion Hhd; subst. now constructor.
Qed.

Lemma sorted_sorted (xs : list string) : Sorted leb_string (sorted xs).
Proof.
  induction xs as [|x rest IH]; simpl; [constructor|].
  now apply insert_sorted_sorted.
Qed.

Lemma falsy_power_state (v : json) :
  truthy v = false -> safe_get v [KStr "PowerState"] (JStr "NA") = Ok (JStr "NA").
Proof.
  destruct v as [| b | n | x | s | [|y items] | [|f fields]]; simpl;
    try discriminate; reflexivity.
Qed.

Lemma fan_loop_keeps_states (fl : list json) (r r' : ReportFans.result) :
  for_each ReportFans.fan_body fl r = Ok r' ->
  ReportFans.power_states r' = ReportFans.power_states r.
Proof.
  revert r. induction fl as [|f fl IH]; intros r H; simpl in H.
  - now inversion H.
  - apply bind_ok in H. destruct H as (r1 & H1 & H).
    apply IH in H. rewrite H.
    unfold ReportFans.fan_body in H1. run H1. reflexivity.
Qed.

Lemma fan_member_state (host : host_dir) (r r' : ReportFans.result) (member : json) :
  ReportFans.member_body host r member = Ok r' ->
  ReportFans.power_states r' =
  (ReportFans.power_states r
   ++ contribution (member_power_state safe_get host member))%list.
Proof.
  unfold ReportFans.member_body, member_power_state. intros H.
  apply bind_ok in H. destruct H as (target & Ht & H). rewrite Ht.
  apply bind_ok in H. destruct H as (cid_opt & Hc & H). rewrite Hc.
  destruct cid_opt as [cid|];
    [|inversion H; subst; simpl; now rewrite app_nil_r].
  destruct (id_truthy (Some cid)); cbn [negb] in H;
    [|inversion H; subst; simpl; now rewrite app_nil_r].
  destruct (host ["Chassis"; cid ++ ".json"]) as [[detail|]|e]; cbn [bind] in H;
    [|inversion H; subst; simpl; now rewrite app_nil_r|discriminate H].
  apply bind_ok in H. destruct H as (ps & Hps & H). rewrite Hps.
  apply bind_ok in H. destruct H as (r1 & Hr1 & H).
  assert (E : ReportFans.power_states r' = ReportFans.power_states r1).
  { apply bind_ok in H. destruct H as (th & _ & H).
    destruct (truthy th && is_dict th)%bool; [|now inversion H].
    apply bind_ok in H. destruct H as (thermal & _ & H).
    destruct thermal; [|now inversion H].
    apply bind_ok in H. destruct H as (fs & _ & H).
    apply bind_ok in H. destruct H as (fl & _ & H).
    now apply fan_loop_keeps_states in H. }
  rewrite E. destruct (is_NA ps); cbn [negb] in Hr1.
  - inversion Hr1; subst. simpl. now rewrite app_nil_r.
  - apply bind_ok in Hr1. destruct Hr1 as (s & Hs & Hr1). rewrite Hs.
    inversion Hr1; subst. reflexivity.
Qed.

Lemma power_member_state (sg : json -> list key -> json -> res json)
  (host : host_dir) (st st' : PowerWalk.state) (member : json) :
  PowerWalk.member_body sg host st member = Ok st' ->
  PowerWalk.states st' =
  (PowerWalk.states st ++ contribution (member_power_state sg host member))%list.
Proof.
  unfold PowerWalk.member_body, member_power_state. intros H.
  apply bind_ok in H. destruct H as (target & Ht & H). rewrite Ht.
  apply bind_ok in H. destruct H as (cid_opt & Hc & H). rewrite Hc.
  destruct cid_opt as [cid|];
    [|inversion H; subst; simpl; now rewrite app_nil_r].
  destruct (id_truthy (Some cid)); cbn [negb] in H;
    [|inversion H; subst; simpl; now rewrite app_nil_r].
  destruct (host ["Chassis"; cid ++ ".json"]) as [[detail|]|e]; cbn [bind] in H;
    [|inversion H; subst; simpl; now rewrite app_nil_r|discriminate H].
  apply bind_ok in H. destruct H as (ps & Hps & H). rewrite Hps.
  apply bind_ok in H. destruct H as (st1 & Hst1 & H).
  assert (E : PowerWalk.states st' = PowerWalk.states st1).
  { destruct (negb (PowerWalk.power_metrics_found st1)); [|now inversion H].
    now apply read_power_capture in H. }
  rewrite E. destruct (is_NA ps); cbn [negb] in Hst1.
  - inversion Hst1; subst. simpl. now rewrite app_nil_r.
  - apply bind_ok in Hst1. destruct Hst1 as (s & Hs & Hst1). rewrite Hs.
    inversion Hst1; subst. reflexivity.
Qed.

Lemma py_get_raises_safe_get (member : json) (k : string) (e : exn) :
  py_get member k JNull = Raise e ->
  safe_get member [KStr k] JNull = Ok JNull.
Proof.
  destruct member as [| b | n | x | s | items | fields]; simpl;
    try discriminate; reflexivity.
Qed.

Lemma temperature_member_state
  (host : host_dir) (r r' : ReportTemperature.result) (member : json) :
  ReportTemperature.member_body host r member = Ok r' ->
  ReportTemperature.power_states r' =
  (ReportTemperature.power_states r
   ++ contribution (member_power_state safe_get host member))%list.
Proof.
  unfold ReportTemperature.member_body, member_power_state. intros H.
  apply bind_ok in H. destruct H as (target & Ht & H).
  destruct (py_get member "@odata.id" JNull) as [t|e] eqn:Hp.
  - apply py_get_safe_get in Hp. rewrite Hp in Ht. inversion Ht; subst t.
    unfold extract_chassis_id.
    apply bind_ok in H. destruct H as (cid_opt & Hc & H). rewrite Hc.
    destruct cid_opt as [cid|];
      [|inversion H; subst; simpl; now rewrite app_nil_r].
    destruct (id_truthy (Some cid)); cbn [negb] in H;
      [|inversion H; subst; simpl; now rewrite app_nil_r].
    apply bind_ok in H. destruct H as (r1 & Hr1 & H).
    assert (E : ReportTemperature.power_states r' = ReportTemperature.power_states r1).
    { destruct (negb (truthy (_read_json host ["Chassis"; cid; "Thermal.json"])));
        [now inversion H|].
      apply bind_ok in H. destruct H as (ts & _ & H).
      apply bind_ok in H. destruct H as (tl & _ & H).
      now apply sensor_loop_keeps_states in H. }
    rewrite E. unfold _read_json in Hr1.
    destruct (host ["Chassis"; cid ++ ".json"]) as [[detail|]|e].
    + destruct (truthy detail) eqn:Htr.
      * apply bind_ok in Hr1. destruct Hr1 as (ps & Hps & Hr1). rewrite Hps.
        destruct (is_NA ps); cbn [negb] in Hr1.
        -- inversion Hr1; subst. simpl. now rewrite app_nil_r.
        -- apply bind_ok in Hr1. destruct Hr1 as (s & Hs & Hr1). rewrite Hs.
           inversion Hr1; subst. reflexivity.
      * rewrite (falsy_power_state _ Htr). inversion Hr1; subst.
        simpl. now rewrite app_nil_r.
    + simpl in Hr1. inversion Hr1; subst. simpl. now rewrite app_nil_r.
    + simpl in Hr1. inversion Hr1; subst. simpl. now rewrite app_nil_r.
  - rewrite (py_get_raises_safe_get _ _ _ Hp) in Ht. inversion Ht; subst target.
    simpl in H. inversion H; subst. simpl. now rewrite app_nil_r.
Qed.

Lemma walk_states {S : Type} (states : S -> list string)
  (body : S -> json -> res S) (f : json -> option string) :
  (forall st m st1, body st m = Ok st1 ->
     states st1 = (states st ++ contribution (f m))%list) ->
  forall ms st st1,
    for_each body ms st = Ok st1 ->
    states st1 = (states st ++ flat_map (fun m => contribution (f m)) ms)%list.
Proof.
  intros Hbody ms. induction ms as [|m ms IH]; intros st st2 H; simpl in H.
  - inversion H; subst. simpl. now rewrite app_nil_r.
  - apply bind_ok in H. destruct H as (st1 & H1 & H).
    apply Hbody in H1. apply IH in H. rewrite H, H1. simpl.
    now rewrite <- app_assoc.
Qed.

Lemma falsy_iter (members : json) (ms : list json) :
  truthy members = false -> py_iter members = Ok ms -> ms = [].
Proof.
  destruct members as [| b | n | x | s | [|y items] | [|f fields]];
    simpl; try discriminate; intros Ht H; try now inversion H.
  destruct s; simpl in *; [now inversion H | discriminate Ht].
Qed.

Lemma members_safe_get (chassis_data members : json) (ms : list json) :
  py_get chassis_data "Members" (JArr []) = Ok members ->
  py_iter members = Ok ms ->
  safe_get chassis_data [KStr "Members"] (JArr []) = Ok members.
Proof.
  destruct chassis_data; simpl; try discriminate. intros H Hi.
  inversion H; subst. unfold safe_get_step. simpl.
  destruct (match dict_get fields "Members" with Some v => v | None => JArr [] end);
    simpl in *; try discriminate; reflexivity.
Qed.

(** C10.  With [ms] the members of the chassis collection, the two
    power reports store the lower-cased power states sorted by
    [sorted], an ordered rearrangement, while the fan and temperature
    reports store them in the order of the members. *)
Theorem power_states_order
  (host : host_dir) (hn dc : string) (chassis_data members : json)
  (ms : list json) :
  host ["Chassis.json"] = Ok (Some chassis_data) ->
  py_get chassis_data "Members" (JArr []) = Ok members ->
  py_iter members = Ok ms ->
  (forall r, ReportPower.get_power_metrics host hn dc = Ok r ->
     PowerWalk.power_states r = sorted (states_in_member_order safe_get host ms)) /\
  (forall r, Script.get_power_metrics host hn dc = Ok r ->
     PowerWalk.power_states r
       = sorted (states_in_member_order safe_get_script host ms)) /\
  (forall r, ReportFans.get_fan_metrics host hn dc = Ok r ->
     ReportFans.power_states r = states_in_member_order safe_get host ms) /\
  (forall r, ReportTemperature.get_temperature_information host hn dc = Ok r ->
     ReportTemperature.power_states r = states_in_member_order safe_get host ms) /\
  (forall xs, Sorted leb_string (sorted xs) /\ Permutation xs (sorted xs)).
Proof.
  intros Hc Hm Hi.
  assert (Hpower : forall sg r,
            PowerWalk.get_power_metrics sg host hn dc = Ok r ->
            PowerWalk.power_states r = sorted (states_in_member_order sg host ms)).
  { intros sg r. unfold PowerWalk.get_power_metrics. intros H.
    apply bind_ok in H. destruct H as (index & _ & H).
    apply bind_ok in H. destruct H as (version & _ & H).
    rewrite Hc in H. cbn [bind] in H.
    rewrite Hm in H. cbn [bind] in H.
    destruct (truthy members) eqn:Ht; cbn [negb] in H.
    - rewrite Hi in H. cbn [bind] in H.
      apply bind_ok in H. destruct H as (st & Hw & H). inversion H; subst.
      simpl. f_equal.
      apply (walk_states PowerWalk.states _ (member_power_state sg host)) in Hw;
        [exact Hw|].
      intros st0 m st1. apply power_member_state.
    - inversion H; subst. now rewrite (falsy_iter _ _ Ht Hi). }
  split; [exact (Hpower safe_get)|].
  split; [exact (Hpower safe_get_script)|].
  split; [|split].
  - intros r. unfold ReportFans.get_fan_metrics. rewrite Hc. intros H.
    cbn [bind] in H. rewrite Hm in H. cbn [bind] in H.
    destruct (truthy members) eqn:Ht; cbn [negb] in H.
    + rewrite Hi in H. cbn [bind] in H.
      apply (walk_states ReportFans.power_states _ (member_power_state safe_get host))
        in H; [exact H|].
      intros st0 m st1. apply fan_member_state.
    + inversion H; subst. now rewrite (falsy_iter _ _ Ht Hi).
  - intros r. unfold ReportTemperature.get_temperature_information.
    unfold _read_json. rewrite Hc. intros H.
    destruct (truthy chassis_data) eqn:Hcd; cbn [negb] in H.
    + rewrite (members_safe_get _ _ _ Hm Hi) in H. cbn [bind] in H.
      unfold py_or in H.
      destruct (truthy members) eqn:Ht; cbn [negb] in H.
      * rewrite Ht, Hi in H. cbn [bind negb] in H.
        apply bind_ok in H. destruct H as (r1 & Hw & H). inversion H; subst.
        apply (walk_states ReportTemperature.power_states _
                 (member_power_state safe_get host)) in Hw; [exact Hw|].
        intros st0 m st1. apply temperature_member_state.
      * simpl in H. inversion H; subst. now rewrite (falsy_iter _ _ Ht Hi).
    + inversion H; subst.
      assert (members = JArr []) as ->.
      { destruct chassis_data as [| b | n | x | s | items | [|f fields]];
          simpl in *; try discriminate. now inversion Hm. }
      simpl in Hi. inversion Hi; subst. reflexivity.
  - intros xs. split; [apply sorted_sorted | apply sorted_perm].
Qed.

Lemma power_states_order_witness :
  (exists r,
     ReportPower.get_power_metrics three_chassis_host "node-1" "dc1" = Ok r /\
     PowerWalk.power_states r = ["off"; "on"]) /\
  (exists r,
     ReportFans.get_fan_metrics three_chassis_host "node-1" "dc1" = Ok r /\
     ReportFans.power_states r = ["on"; "off"]) /\
  states_in_member_order safe_get three_chassis_host
    (map ref ["/redfish/v1/Chassis/1"; "/redfish/v1/Chassis/2";
              "/redfish/v1/Chassis/3"]) = ["on"; "off"].
Proof.
  pose proof (power_states_order three_chassis_host "node-1" "dc1"
                (collection ["/redfish/v1/Chassis/1"; "/redfish/v1/Chassis/2";
                             "/redfish/v1/Chassis/3"])
                (JArr (map ref ["/redfish/v1/Chassis/1"; "/redfish/v1/Chassis/2";
                                "/redfish/v1/Chassis/3"]))
                _ eq_refl eq_refl eq_refl) as (Hp & _ & Hf & _).
  split; [|split].
  - assert (Hr : exists r,
              ReportPower.get_power_metrics three_chassis_host "node-1" "dc1" = Ok r)
      by (eexists; vm_compute; reflexivity).
    destruct Hr as [r Hr]. exists r. split; [exact Hr|].
    rewrite (Hp r Hr). reflexivity.
  - assert (Hr : exists r,
              ReportFans.get_fan_metrics three_chassis_host "node-1" "dc1" = Ok r)
      by (eexists; vm_compute; reflexivity).
    destruct Hr as [r Hr]. exists r. split; [exact Hr|].
    rewrite (Hf r Hr). reflexivity.
  - reflexivity.
Defined.

(** ** Repeated scans *)

Lemma ascii_compare_lt_trans (a b c : ascii) :
  Ascii.compare a b = Lt -> Ascii.compare b c = Lt -> Ascii.compare a c = Lt.
Proof.
  unfold Ascii.compare. rewrite !N.compare_lt_iff. apply N.lt_trans.
Qed.

Lemma string_compare_lt_trans (s1 s2 s3 : string) :
  String.compare s1 s2 = Lt -> String.compare s2 s3 = Lt ->
  String.compare s1 s3 = Lt.
Proof.
  revert s2 s3; induction s1 as [|a s1 IH]; intros [|b s2] [|c s3]; simpl;
    try discriminate; auto.
  destruct (Ascii.compare a b) eqn:Hab; try discriminate;
    destruct (Ascii.compare b c) eqn:Hbc; try discriminate; intros H1 H2.
  - apply Ascii.compare_eq_iff in Hab, Hbc. subst.
    replace (Ascii.compare c c) with Eq
      by (symmetry; unfold Ascii.compare; apply N.compare_refl).
    now apply (IH s2).
  - apply Ascii.compare_eq_iff in Hab. subst. now rewrite Hbc.
  - apply Ascii.compare_eq_iff in Hbc. subst. now rewrite Hab.
  - now rewrite (ascii_compare_lt_trans _ _ _ Hab Hbc).
Qed.

Lemma string_compare_refl (s : string) : String.compare s s = Eq.
Proof.
  induction s as [|a s IH]; simpl; [reflexivity|].
  unfold Ascii.compare. now rewrite N.compare_refl.
Qed.

Lemma string_leb_trans (s1 s2 s3 : string) :
  String.leb s1 s2 = true -> String.leb s2 s3 = true -> String.leb s1 s3 = true.
Proof.
  unfold String.leb.
  destruct (String.compare s1 s2) eqn:H12; try discriminate;
    destruct (String.compare s2 s3) eqn:H23; try discriminate; intros _ _.
  - apply String.compare_eq_iff in H12, H23. subst.
    now rewrite string_compare_refl.
  - apply String.compare_eq_iff in H12. subst. now rewrite H23.
  - apply String.compare_eq_iff in H23. subst. now rewrite H12.
  - now rewrite (string_compare_lt_trans _ _ _ H12 H23).
Qed.

Lemma insert_entry_perm (e : dir_entry) (l : list dir_entry) :
  Permutation (e :: l) (insert_entry e l).
Proof.
  induction l as [|y rest IH]; simpl; [reflexivity|].
  destruct (String.leb (entry_name e) (entry_name y)); [reflexivity|].
  rewrite perm_swap. now constructor.
Qed.

Lemma sorted_entries_perm (l : list dir_entry) : Permutation l (sorted_entries l).
Proof.
  induction l as [|e rest IH]; simpl; [constructor|].
  rewrite <- insert_entry_perm. now constructor.
Qed.

Lemma insert_entry_sorted (e : dir_entry) (l : list dir_entry) :
  StronglySorted name_leb l -> StronglySorted name_leb (insert_entry e l).
Proof.
  induction l as [|y rest IH]; intros Hs; simpl.
  - repeat constructor.
  - inversion Hs as [|? ? Hrest Hall]; subst.
    destruct (String.leb (entry_name e) (entry_name y)) eqn:Hey.
    + constructor; [assumption|]. constructor; [exact Hey|].
      rewrite Forall_forall in *. intros z Hz. unfold name_leb in *.
      apply (string_leb_trans _ (entry_name y)); auto.
    + constructor; [now apply IH|].
      rewrite Forall_forall in *. intros z Hz.
      apply (Permutation_in _ (Permutation_sym (insert_entry_perm e rest))) in Hz.
      destruct Hz as [<-|Hz]; [|now apply Hall].
      unfold name_leb.
      destruct (String.leb_total (entry_name e) (entry_name y)) as [H|H];
        [congruence | exact H].
Qed.

Lemma sorted_entries_sorted (l : list dir_entry) :
  StronglySorted name_leb (sorted_entries l).
Proof.
  induction l as [|e rest IH]; simpl; [constructor|].
  now apply insert_entry_sorted.
Qed.

(** Entries of one directory are told apart by their names. *)
Lemma same_name_same_entry (l : list dir_entry) (a b : dir_entry) :
  NoDup (map entry_name l) -> In a l -> In b l ->
  entry_name a = entry_name b -> a = b.
Proof.
  induction l as [|x l IH]; simpl; [tauto|].
  intros Hnd Ha Hb E. inversion Hnd as [|? ? Hx Hl]; subst.
  destruct Ha as [->|Ha], Hb as [->|Hb]; auto.
  - exfalso. apply Hx. rewrite E. now apply in_map.
  - exfalso. apply Hx. rewrite <- E. now apply in_map.
Qed.

Lemma sorted_listing_unique (l1 l2 : list dir_entry) :
  StronglySorted name_leb l1 -> StronglySorted name_leb l2 ->
  Permutation l1 l2 -> NoDup (map entry_name l1) -> l1 = l2.
Proof.
  revert l2; induction l1 as [|x l1 IH]; intros l2 H1 H2 Hp Hnd.
  - apply Permutation_nil in Hp. now subst.
  - destruct l2 as [|y l2];
      [apply Permutation_sym, Permutation_nil in Hp; discriminate|].
    inversion H1 as [|? ? Hs1 Ha1]; subst.
    inversion H2 as [|? ? Hs2 Ha2]; subst.
    rewrite Forall_forall in Ha1, Ha2.
    assert (Hxy : x = y).
    { assert (Hx : In x (y :: l2)) by (apply (Permutation_in _ Hp); now left).
      assert (Hy : In y (x :: l1))
        by (apply (Permutation_in _ (Permutation_sym Hp)); now left).
      destruct Hx as [->|Hx]; [reflexivity|].
      destruct Hy as [->|Hy]; [reflexivity|].
      apply (same_name_same_entry (x :: l1)); auto; [now left | now right|].
      apply String.leb_antisym; [now apply Ha1 | now apply Ha2]. }
    subst y. f_equal. apply IH; auto.
    + now apply Permutation_cons_inv in Hp.
    + now inversion Hnd.
Qed.

Lemma sorted_entries_same_listing (l1 l2 : list dir_entry) :
  same_listing l1 l2 -> sorted_entries l1 = sorted_entries l2.
Proof.
  intros [Hp Hnd]. apply sorted_listing_unique.
  - apply sorted_entries_sorted.
  - apply sorted_entries_sorted.
  - rewrite <- (sorted_entries_perm l1), <- (sorted_entries_perm l2). exact Hp.
  - apply (Permutation_NoDup (l := map entry_name l1)); [|exact Hnd].
    apply Permutation_map. apply sorted_entries_perm.
Qed.

Lemma collect_same_dump {result : Type}
  (get : host_dir -> string -> string -> res result) (s1 s2 : snapshot) :
  same_dump s1 s2 -> collect get s1 = collect get s2.
Proof.
  unfold collect. generalize (@nil result).
  intros acc H. revert acc.
  induction H as [|d1 d2 s1 s2 (Hn & Hd & Hl) _ IH]; intros acc; simpl;
    [reflexivity|].
  assert (E : scan_datacenter get acc d1 = scan_datacenter get acc d2).
  { unfold scan_datacenter.
    now rewrite Hn, Hd, (sorted_entries_same_listing _ _ Hl). }
  rewrite E. destruct (scan_datacenter get acc d2); simpl; [apply IH | reflexivity].
Qed.

(** C9.  Two runs of a report over one unmodified dump print the same
    lines and end the same way.  The runs may be handed the entries of a
    datacenter directory in different orders, since [main] sorts them;
    the entries of the dump directory itself are taken in the order the
    file system yields them, the same in both runs. *)
Theorem scan_deterministic (fmt : formatter) (s1 s2 : snapshot) :
  same_dump s1 s2 ->
  Script.main fmt s1 = Script.main fmt s2 /\
  ReportPower.main fmt s1 = ReportPower.main fmt s2 /\
  ReportRaid.main fmt s1 = ReportRaid.main fmt s2 /\
  ReportFans.main fmt s1 = ReportFans.main fmt s2 /\
  ReportTemperature.main fmt s1 = ReportTemperature.main fmt s2 /\
  ReportDeviceType.main fmt s1 = ReportDeviceType.main fmt s2.
Proof.
  intros H.
  unfold Script.main, ReportPower.main, PowerWalk.main, ReportRaid.main,
    ReportFans.main, ReportTemperature.main, ReportDeviceType.main, run_report.
  now rewrite !(collect_same_dump _ s1 s2 H).
Qed.

Example fan_report_lines :
  ReportFans.main plain_formatter first_run =
  (["[on, off] dc1/node-1:";
    "  Fan1: 5040 RPM";
    "  Fan3: 5040 RPM";
    "[on, off] dc1/node-2: No fan information available"], Ok tt).
Proof. vm_compute. reflexivity. Qed.

Example power_report_lines :
  Script.main plain_formatter first_run =
  (["[NA] [off, on] dc1/node-1: PowerConsumedWatts=NA, MinConsumedWatts=NA, MaxConsumedWatts=NA, AverageConsumedWatts=NA";
    "[NA] [off, on] dc1/node-2: PowerConsumedWatts=200, MinConsumedWatts=190, MaxConsumedWatts=210, AverageConsumedWatts=200"],
   Ok tt).
Proof. vm_compute. reflexivity. Qed.

Lemma scan_deterministic_witness :
  Script.main plain_formatter first_run = Script.main plain_formatter second_run /\
  ReportPower.main plain_formatter first_run
    = ReportPower.main plain_formatter second_run /\
  ReportRaid.main plain_formatter first_run
    = ReportRaid.main plain_formatter second_run /\
  ReportFans.main plain_formatter first_run
    = ReportFans.main plain_formatter second_run /\
  ReportTemperature.main plain_formatter first_run
    = ReportTemperature.main plain_formatter second_run /\
  ReportDeviceType.main plain_formatter first_run
    = ReportDeviceType.main plain_formatter second_run.
Proof.
  apply scan_deterministic.
  constructor; [|constructor].
  split; [reflexivity|]. split; [reflexivity|]. split.
  - simpl. apply (Permutation_cons_app [node_1] [notes_file]). apply perm_swap.
  - simpl. repeat constructor; simpl; intuition discriminate.
Defined.

(** ** More on safe navigation *)

Lemma safe_get_step_not_none (current : json) (k : key) (default c : json) :
  safe_get_step current k default = Ok (Next c) -> c <> JNull.
Proof.
  rewrite safe_get_step_spec. intros H. inversion H as [E]. clear H.
  destruct (descend current k) as [x|].
  - destruct (is_none x) eqn:Hx; inversion E; subst.
    now apply is_none_false.
  - destruct (is_dict current); [|discriminate].
    destruct (is_none default) eqn:Hd; inversion E; subst.
    now apply is_none_false.
Qed.

Lemma safe_get_keeps_not_none (data : json) (keys : list key) (default v : json) :
  default <> JNull -> data <> JNull ->
  safe_get data keys default = Ok v -> v <> JNull.
Proof.
  intros Hd. revert data. induction keys as [|k rest IH]; intros data Hdata H;
    simpl in H.
  - now inversion H; subst.
  - apply bind_ok in H. destruct H as (f & Hf & H).
    destruct f as [x|c].
    + inversion H; subst. rewrite safe_get_step_spec in Hf.
      inversion Hf as [E]. clear Hf.
      destruct (descend data k) as [y|].
      * destruct (is_none y); now inversion E; subst.
      * destruct (is_dict data); [|now inversion E; subst].
        destruct (is_none default); now inversion E; subst.
    + apply (IH c); [|exact H]. now apply (safe_get_step_not_none data k default).
Qed.

Lemma safe_get_script_keeps_not_none (data : json) (keys : list key)
  (default v : json) :
  default <> JNull ->
  safe_get_script data keys default = Ok v -> v <> JNull.
Proof.
  intros Hd. revert data. induction keys as [|k rest IH]; intros data H;
    simpl in H.
  - inversion H; subst. destruct data; simpl; congruence.
  - apply bind_ok in H. destruct H as (f & Hf & H).
    destruct f as [x|c]; [|now apply (IH c)].
    inversion H; subst.
    unfold safe_get_script_step in Hf.
    destruct (is_dict data).
    + apply bind_ok in Hf. destruct Hf as (c & _ & Hf).
      destruct (is_none c); now inversion Hf; subst.
    + destruct (is_list data); [|now inversion Hf; subst].
      apply bind_ok in Hf. destruct Hf as (n & _ & Hf).
      destruct (0 <? n); [|now inversion Hf; subst].
      destruct k as [name|i]; [now inversion Hf; subst|].
      destruct (i <? n); [|now inversion Hf; subst].
      apply bind_ok in Hf. destruct Hf as (c & _ & Hf). discriminate.
Qed.

(** X1.  With a default other than [None], [safe_get] called with at
    least one key never returns [None], and [safe_get] of [script.py]
    never returns [None] at all: a reader of a report field sees the
    caller's sentinel or a value, never a missing one. *)
Theorem safe_get_never_none (data : json) (keys : list key) (default v : json) :
  default <> JNull ->
  (keys <> [] -> safe_get data keys default = Ok v -> v <> JNull) /\
  (safe_get_script data keys default = Ok v -> v <> JNull).
Proof.
  intros Hd. split.
  - intros Hk H. destruct keys as [|k rest]; [congruence|]. simpl in H.
    apply bind_ok in H. destruct H as (f & Hf & H).
    destruct f as [x|c].
    + inversion H; subst. rewrite safe_get_step_spec in Hf.
      inversion Hf as [E]. clear Hf.
      destruct (descend data k) as [y|].
      * destruct (is_none y); now inversion E; subst.
      * destruct (is_dict data); [|now inversion E; subst].
        destruct (is_none default); now inversion E; subst.
    + apply (safe_get_keeps_not_none c rest default); auto.
      now apply (safe_get_step_not_none data k default).
  - now apply safe_get_script_keeps_not_none.
Qed.

Lemma safe_get_never_none_witness :
  (safe_get (JObj [("Reading", JNull)]) [KStr "Reading"] (JStr "NA")
     = Ok (JStr "NA") /\ JStr "NA" <> JNull) /\
  (safe_get_script (JArr [JInt 7]) [KInt 0] (JStr "NA")
     = Ok (JInt 7) /\ JInt 7 <> JNull).
Proof.
  split; (split; [reflexivity|]).
  - apply (proj1 (safe_get_never_none (JObj [("Reading", JNull)]) [KStr "Reading"]
                    (JStr "NA") (JStr "NA") ltac:(discriminate)));
      [discriminate | reflexivity].
  - apply (proj2 (safe_get_never_none (JArr [JInt 7]) [KInt 0]
                    (JStr "NA") (JInt 7) ltac:(discriminate))).
    reflexivity.
Defined.

(** X2.  The two copies of [safe_get] return the same value whenever no
    index is negative, the default is not a non-empty container and
    either a key is given or the data is not [None]. *)
Theorem safe_get_copies_agree (data : json) (keys : list key) (default : json) :
  Forall nonneg_key keys -> plain default = true ->
  keys <> [] \/ data <> JNull ->
  safe_get_script data keys default = safe_get data keys default.
Proof.
  intros Hk Hp Hne.
  destruct (resolve data keys) as [w|] eqn:Hres.
  - destruct (is_none w) eqn:Hw.
    + apply is_none_true in Hw. subst w.
      rewrite (safe_get_script_unresolved _ _ _ Hk (or_intror Hres)).
      destruct keys as [|k rest].
      * simpl in Hres. inversion Hres. destruct Hne; congruence.
      * symmetry. apply safe_get_unresolved; auto. discriminate.
    + apply is_none_false in Hw.
      rewrite (safe_get_script_resolved _ _ _ _ Hk Hres Hw).
      symmetry. now apply safe_get_resolved.
  - rewrite (safe_get_script_unresolved _ _ _ Hk (or_introl Hres)).
    symmetry. apply safe_get_unresolved; auto.
    intros ->. discriminate.
Qed.

Lemma safe_get_copies_agree_witness :
  safe_get_script (JObj [("PowerControl", JArr [JObj [("PowerConsumedWatts", JInt 212)]])])
    [KStr "PowerControl"; KInt 0; KStr "PowerConsumedWatts"] (JStr "NA") =
  safe_get (JObj [("PowerControl", JArr [JObj [("PowerConsumedWatts", JInt 212)]])])
    [KStr "PowerControl"; KInt 0; KStr "PowerConsumedWatts"] (JStr "NA").
Proof.
  apply safe_get_copies_agree.
  - repeat constructor. simpl. lia.
  - reflexivity.
  - left. discriminate.
Defined.

Lemma resolve_app (data : json) (ks1 ks2 : list key) :
  resolve data (ks1 ++ ks2)%list =
  match resolve data ks1 with
  | Some v => resolve v ks2
  | None => None
  end.
Proof.
  revert data. induction ks1 as [|k rest IH]; intros data; simpl; [reflexivity|].
  destruct (descend data k); [apply IH | reflexivity].
Qed.

(** X3.  Navigation composes: when the first keys address an existing
    value that is not [None], navigating with all the keys is navigating
    from that value with the remaining keys, in both copies. *)
Theorem safe_get_along_prefix
  (data : json) (ks1 ks2 : list key) (default v : json) :
  resolve data ks1 = Some v -> v <> JNull ->
  safe_get data (ks1 ++ ks2)%list default = safe_get v ks2 default /\
  safe_get_script data (ks1 ++ ks2)%list default = safe_get_script v ks2 default.
Proof.
  revert data. induction ks1 as [|k rest IH]; intros data Hres Hv; simpl in *.
  - inversion Hres; subst. split; reflexivity.
  - destruct (descend data k) as [c|] eqn:Hd; [|discriminate].
    assert (Hc : is_none c = false).
    { destruct c; try reflexivity.
      destruct rest; simpl in Hres; [inversion Hres; congruence | discriminate]. }
    assert (Hk : nonneg_key k).
    { destruct data, k as [name|i]; simpl in *; try discriminate; try exact I.
      destruct ((0 <=? i) && (i <? Z.of_nat (List.length items)))%bool eqn:Hr;
        [|discriminate].
      apply range_test in Hr. lia. }
    rewrite safe_get_step_spec, (safe_get_script_step_spec _ _ _ Hk), Hd, Hc.
    rewrite andb_false_r. simpl. now apply IH.
Qed.

Lemma safe_get_along_prefix_witness :
  safe_get (JObj [("Links", JObj [("Drives", JArr [JObj [("@odata.id", JStr "/d/1")]])])])
    ([KStr "Links"; KStr "Drives"] ++ [KInt 0; KStr "@odata.id"])%list JNull =
  safe_get (JArr [JObj [("@odata.id", JStr "/d/1")]])
    [KInt 0; KStr "@odata.id"] JNull /\
  safe_get_script
    (JObj [("Links", JObj [("Drives", JArr [JObj [("@odata.id", JStr "/d/1")]])])])
    ([KStr "Links"; KStr "Drives"] ++ [KInt 0; KStr "@odata.id"])%list JNull =
  safe_get_script (JArr [JObj [("@odata.id", JStr "/d/1")]])
    [KInt 0; KStr "@odata.id"] JNull.
Proof.
  apply safe_get_along_prefix; [reflexivity | discriminate].
Defined.

(** ** More on reference resolution *)

Lemma rstrip_slash_append_slashes (s tail : string) :
  only_slashes tail = true -> rstrip_slash (s ++ tail) = rstrip_slash s.
Proof.
  intros Ht. induction s as [|c rest IH]; simpl.
  - now apply rstrip_slash_empty.
  - now rewrite IH.
Qed.

Lemma rstrip_slash_no_slash (s : string) :
  no_slash s = true -> rstrip_slash s = s.
Proof.
  induction s as [|c rest IH]; simpl; [reflexivity|].
  rewrite andb_true_iff, negb_true_iff. intros [Hc Hr].
  rewrite (IH Hr), Hc. now destruct rest.
Qed.

Lemma rstrip_slash_append (a b : string) :
  rstrip_slash b <> "" -> rstrip_slash (a ++ b) = a ++ rstrip_slash b.
Proof.
  intros Hb. induction a as [|c rest IH]; simpl; [reflexivity|].
  rewrite IH. destruct (rest ++ rstrip_slash b) eqn:E; [|reflexivity].
  destruct rest; simpl in E; [congruence | discriminate].
Qed.

Lemma split_slash_append (a b : string) :
  split_slash (a ++ "/" ++ b) = (split_slash a ++ split_slash b)%list.
Proof.
  induction a as [|c rest IH]; simpl in *; [reflexivity|].
  rewrite IH. destruct (Ascii.eqb c slash); [reflexivity|].
  destruct (split_slash_cons rest) as (seg & segs & E). now rewrite E.
Qed.

Lemma split_slash_no_slash_one (s : string) :
  no_slash s = true -> split_slash s = [s].
Proof.
  induction s as [|c rest IH]; simpl; [reflexivity|].
  rewrite andb_true_iff, negb_true_iff. intros [Hc Hr].
  now rewrite Hc, (IH Hr).
Qed.

Lemma last_segment_of_path (parent id tail : string) :
  no_slash id = true -> id <> "" -> only_slashes tail = true ->
  last (split_slash (rstrip_slash (parent ++ "/" ++ id ++ tail))) "" = id /\
  last (split_slash (rstrip_slash (id ++ tail))) "" = id.
Proof.
  intros Hno Hid Ht.
  assert (Hr : rstrip_slash (id ++ tail) = id)
    by (rewrite (rstrip_slash_append_slashes _ _ Ht);
        now apply rstrip_slash_no_slash).
  split.
  - replace (parent ++ "/" ++ id ++ tail) with ((parent ++ "/") ++ (id ++ tail))
      by now rewrite append_assoc.
    rewrite rstrip_slash_append by (rewrite Hr; exact Hid).
    rewrite Hr, append_assoc, split_slash_append.
    rewrite (split_slash_no_slash_one _ Hno). apply last_last.
  - rewrite Hr, (split_slash_no_slash_one _ Hno). reflexivity.
Qed.

Lemma append_not_empty_r (a b : string) : b <> "" -> a ++ b <> "".
Proof. destruct a; simpl; [auto | discriminate]. Qed.

(** X4.  Round trip of a reference: the identifier put last on a path,
    after a slash and before any number of trailing slashes, is the one
    [_last_segment] and [extract_chassis_id] give back, provided it is
    not empty and holds no slash. *)
Theorem last_segment_round_trip (parent id tail : string) :
  no_slash id = true -> id <> "" -> only_slashes tail = true ->
  _last_segment (JStr (parent ++ "/" ++ id ++ tail)) = Ok (Some id) /\
  extract_chassis_id (JStr (parent ++ "/" ++ id ++ tail)) = Ok (Some id) /\
  _last_segment (JStr (id ++ tail)) = Ok (Some id).
Proof.
  intros Hno Hid Ht.
  destruct (last_segment_of_path parent id tail Hno Hid Ht) as [H1 H2].
  assert (Hne1 : parent ++ "/" ++ id ++ tail <> "").
  { apply append_not_empty_r. discriminate. }
  assert (Hne2 : id ++ tail <> "").
  { destruct id; [congruence | discriminate]. }
  unfold extract_chassis_id.
  rewrite (_last_segment_str _ Hne1), (_last_segment_str _ Hne2), H1, H2.
  repeat split.
Qed.

Lemma last_segment_round_trip_witness :
  _last_segment (JStr ("/redfish/v1/Systems/1/Storage" ++ "/" ++ "RAID.Slot.3-1" ++ "//"))
    = Ok (Some "RAID.Slot.3-1") /\
  extract_chassis_id
    (JStr ("/redfish/v1/Systems/1/Storage" ++ "/" ++ "RAID.Slot.3-1" ++ "//"))
    = Ok (Some "RAID.Slot.3-1") /\
  _last_segment (JStr ("RAID.Slot.3-1" ++ "//")) = Ok (Some "RAID.Slot.3-1").
Proof.
  apply last_segment_round_trip; [reflexivity | discriminate | reflexivity].
Defined.

Lemma last_segment_no_slash (odata_id : json) (seg : string) :
  _last_segment odata_id = Ok (Some seg) -> no_slash seg = true.
Proof.
  unfold _last_segment. intros H.
  destruct (negb (truthy odata_id)); [discriminate|].
  apply bind_ok in H. destruct H as (s & Hs & H).
  destruct (split_slash s) as [|seg0 segs] eqn:E; [discriminate|].
  assert (Hseg : last (seg0 :: segs) "" = seg) by congruence.
  clear H. rewrite <- E in Hseg. subst seg.
  pose proof (split_slash_no_slash s) as Hall.
  rewrite Forall_forall in Hall. apply Hall. apply last_In.
  rewrite E. discriminate.
Qed.

(** X5.  An identifier returned by [_last_segment] holds no slash, and
    when it is not empty it is a fixed point: resolving it again gives
    the same identifier.  It can therefore be used as one component of a
    path. *)
Theorem last_segment_is_component (odata_id : json) (seg : string) :
  _last_segment odata_id = Ok (Some seg) ->
  no_slash seg = true /\
  (seg <> "" -> _last_segment (JStr seg) = Ok (Some seg)).
Proof.
  intros H. apply last_segment_no_slash in H.
  split; [exact H|].
  intros Hne.
  destruct (last_segment_of_path "" seg "" H Hne eq_refl) as [_ H2].
  rewrite append_empty_r in H2.
  now rewrite (_last_segment_str _ Hne), H2.
Qed.

Lemma last_segment_is_component_witness :
  no_slash "Self" = true /\
  ("Self" <> "" -> _last_segment (JStr "Self") = Ok (Some "Self")).
Proof.
  apply (last_segment_is_component (JStr "/redfish/v1/Chassis/Self/")).
  reflexivity.
Defined.

(** X6.  [_last_segment] and [extract_chassis_id] raise exactly on a
    reference that is truthy and not a string (a number, [True], a
    non-empty list or dict), and what they raise is [AttributeError];
    [None], falsy values and every string are answered without an
    exception. *)
Theorem last_segment_raises (odata_id : json) :
  (forall e, _last_segment odata_id = Raise e ->
     e = AttributeError /\ truthy odata_id = true /\
     forall s, odata_id <> JStr s) /\
  (truthy odata_id = true -> (forall s, odata_id <> JStr s) ->
     _last_segment odata_id = Raise AttributeError /\
     extract_chassis_id odata_id = Raise AttributeError).
Proof.
  unfold extract_chassis_id, _last_segment. split.
  - intros e H. destruct (truthy odata_id) eqn:Ht; simpl in H; [|discriminate].
    destruct odata_id; simpl in H; try discriminate;
      inversion H; subst; repeat split; intros s; discriminate.
  - intros Ht Hs. rewrite Ht. simpl.
    destruct odata_id; simpl; try (split; reflexivity); try discriminate.
    exfalso. now apply (Hs s).
Qed.

Lemma last_segment_raises_witness :
  _last_segment (JInt 7) = Raise AttributeError /\
  extract_chassis_id (JInt 7) = Raise AttributeError.
Proof.
  apply (proj2 (last_segment_raises (JInt 7))); [reflexivity | discriminate].
Defined.

(** ** More on the capacity conversion *)

Lemma round_half_even_exact (k b : Z) :
  0 < b -> round_half_even (k * b) b = k.
Proof.
  intros Hb. unfold round_half_even.
  rewrite Z.div_mul, Z.mod_mul by lia.
  destruct (2 * 0 <? b) eqn:E; [reflexivity|].
  apply Z.ltb_ge in E. lia.
Qed.

Lemma round_half_even_mono (a1 a2 b : Z) :
  0 < b -> a1 <= a2 -> round_half_even a1 b <= round_half_even a2 b.
Proof.
  intros Hb Hle.
  destruct (Z.eq_dec a1 a2) as [->|Hne]; [lia|].
  pose proof (round_half_even_nearest a1 b Hb) as [H1 _].
  pose proof (round_half_even_nearest a2 b Hb) as [H2 _].
  destruct (Z_le_gt_dec (round_half_even a1 b) (round_half_even a2 b)) as [|Hgt];
    [assumption|].
  exfalso.
  assert (Hk : (round_half_even a2 b + 1) * b <= round_half_even a1 b * b)
    by (apply Z.mul_le_mono_nonneg_r; lia).
  lia.
Qed.

Lemma nearest_double_small (n : Z) :
  Z.abs n < 2 ^ 53 -> nearest_double n = n.
Proof.
  intros H. unfold nearest_double.
  destruct (Z.abs n <? 2 ^ 53) eqn:E; [reflexivity|].
  apply Z.ltb_ge in E. lia.
Qed.

(** X7.  A capacity that is a whole number of quarter GiB is reported
    exactly: [j * 2^28] bytes give [0.25 * j] GiB, so [g] GiB of bytes
    give [g.0]. *)
Theorem bytes_to_gib_quarters (j : Z) :
  Z.abs j < 2 ^ 25 ->
  _bytes_to_gib (JInt (j * 2 ^ 28)) = Some (Hundredths (25 * j)).
Proof.
  intros Hj. unfold _bytes_to_gib, int_value. cbv beta iota.
  rewrite nearest_double_small by lia.
  replace (100 * (j * 2 ^ 28)) with ((25 * j) * 2 ^ 30) by lia.
  now rewrite round_half_even_exact.
Qed.

Lemma bytes_to_gib_quarters_witness :
  _bytes_to_gib (JInt (7 * 2 ^ 28)) = Some (Hundredths (25 * 7)).
Proof.
  apply bytes_to_gib_quarters. reflexivity.
Defined.

(** X8.  The conversion keeps the order of byte counts (those a double
    holds exactly): a larger capacity is never reported as fewer GiB,
    and a capacity that is not negative is never reported as negative. *)
Theorem bytes_to_gib_monotone (n m : Z) :
  Z.abs n < 2 ^ 53 -> Z.abs m < 2 ^ 53 -> n <= m ->
  exists a b,
    _bytes_to_gib (JInt n) = Some (Hundredths a) /\
    _bytes_to_gib (JInt m) = Some (Hundredths b) /\
    a <= b /\ (0 <= n -> 0 <= a).
Proof.
  intros Hn Hm Hle. unfold _bytes_to_gib, int_value. cbv beta iota.
  rewrite !nearest_double_small by assumption.
  eexists. eexists. split; [reflexivity|]. split; [reflexivity|]. split.
  - apply round_half_even_mono; lia.
  - intros H0.
    replace 0 with (round_half_even (0 * 2 ^ 30) (2 ^ 30))
      by (apply round_half_even_exact; lia).
    apply round_half_even_mono; lia.
Qed.

Lemma bytes_to_gib_monotone_witness :
  exists a b,
    _bytes_to_gib (JInt 499558383616) = Some (Hundredths a) /\
    _bytes_to_gib (JInt 1999844147200) = Some (Hundredths b) /\
    a <= b /\ (0 <= 499558383616 -> 0 <= a).
Proof.
  apply bytes_to_gib_monotone; [reflexivity | reflexivity | lia].
Defined.

(** ** More on the RAID walk *)

Lemma controller_body_capable (r r' : ReportRaid.result) (ctrl : json) :
  capable_sound r -> ReportRaid.controller_body r ctrl = Ok r' -> capable_sound r'.
Proof.
  unfold ReportRaid.controller_body, capable_sound. intros [HP1 HP2] H.
  run H.
  all: match goal with
       | |- context [if ?c then _ else _] => destruct c eqn:Hcap
       end; simpl.
  all: split; [|intros; try (now destruct (ReportRaid.controllers r)); auto].
  all: try reflexivity.
  all: intros c Hin Hc; apply in_app_or in Hin; destruct Hin as [Hin|[<-|[]]];
    try (now apply (HP1 c)).
  all: try (apply HP2; now apply (HP1 c)).
  all: unfold lists_raid_types, names_raid in Hc; simpl in Hc.
  exfalso. subst a4.
  destruct (py_or a (JArr [])) as [| | | | |[|x items]|]; destruct a1;
    simpl in Hc, Ha4; try discriminate; run Ha4; congruence.
Qed.

Lemma volume_body_keeps_controllers
  (host : host_dir) (sys sid : string) (r r' : ReportRaid.result) (vmem : json) :
  ReportRaid.volume_body host sys sid r vmem = Ok r' ->
  ReportRaid.controllers r' = ReportRaid.controllers r /\
  ReportRaid.raid_capable r' = ReportRaid.raid_capable r.
Proof.
  unfold ReportRaid.volume_body. intros H. run H; split; reflexivity.
Qed.

Lemma storage_body_capable
  (host : host_dir) (sys dir : string) (r r' : ReportRaid.result) (member : json) :
  capable_sound r -> ReportRaid.storage_body host sys dir r member = Ok r' ->
  capable_sound r'.
Proof.
  unfold ReportRaid.storage_body. intros HP H. run H; auto.
  all: match goal with
       | Hc : for_each ReportRaid.controller_body _ _ = Ok ?r1 |- _ =>
           assert (HP1 : capable_sound r1)
             by (revert Hc; apply for_each_invariant; auto;
                 intros st x st'; apply controller_body_capable)
       end; auto.
  revert H. apply for_each_invariant; auto.
  intros st x st' Hst Hb. apply volume_body_keeps_controllers in Hb.
  destruct Hb as [Hc Hcap]. unfold capable_sound. now rewrite Hc, Hcap.
Qed.

(** X9.  The flag [raid_capable] of a completed RAID walk is set
    whenever a recorded controller lists a RAID type or is named after
    RAID, and it is never set on a host without a recorded controller. *)
Theorem raid_capable_sound
  (host : host_dir) (hn dc : string) (r : ReportRaid.result) :
  ReportRaid.get_raid_information host hn dc = Ok r ->
  (forall c, In c (ReportRaid.controllers r) ->
     (lists_raid_types c || names_raid c)%bool = true ->
     ReportRaid.raid_capable r = true) /\
  (ReportRaid.raid_capable r = true -> ReportRaid.controllers r <> []).
Proof.
  unfold ReportRaid.get_raid_information. intros H.
  run H; try (split; simpl; [tauto | discriminate]).
  match goal with
  | Hs : for_each (ReportRaid.storage_body _ _ _) _ _ = Ok ?r1 |- _ =>
      change (capable_sound r1); revert Hs
  end.
  apply for_each_invariant.
  - intros st x st'. apply storage_body_capable.
  - split; simpl; [tauto | discriminate].
Qed.

Lemma raid_capable_sound_witness :
  exists r,
    ReportRaid.get_raid_information raid_capable_host "node-1" "dc1" = Ok r /\
    ReportRaid.raid_capable r = true /\
    ((forall c, In c (ReportRaid.controllers r) ->
        (lists_raid_types c || names_raid c)%bool = true ->
        ReportRaid.raid_capable r = true) /\
     (ReportRaid.raid_capable r = true -> ReportRaid.controllers r <> [])).
Proof.
  eexists. split; [vm_compute; reflexivity|].
  split; [reflexivity|].
  apply (raid_capable_sound raid_capable_host "node-1" "dc1").
  vm_compute. reflexivity.
Defined.

Lemma classify_not_early (r : ReportRaid.result) :
  ReportRaid.classify r <> ReportRaid.no_systems /\
  ReportRaid.classify r <> ReportRaid.no_storage.
Proof.
  unfold ReportRaid.classify.
  destruct (ReportRaid.raid_detected r), (ReportRaid.raid_capable r),
    (ReportRaid.volumes r); split; discriminate.
Qed.

(** The two ways a RAID walk ends: early, with nothing recorded, or
    after the storage members, with the message of [classify]. *)
Lemma raid_walk_cases (host : host_dir) (hn dc : string) (r : ReportRaid.result) :
  ReportRaid.get_raid_information host hn dc = Ok r ->
  ((ReportRaid.message r = ReportRaid.no_systems \/
    ReportRaid.message r = ReportRaid.no_storage) /\
   ReportRaid.controllers r = [] /\ ReportRaid.volumes r = [] /\
   ReportRaid.raid_detected r = false /\ ReportRaid.raid_capable r = false) \/
  ReportRaid.message r = ReportRaid.classify r.
Proof.
  unfold ReportRaid.get_raid_information. intros H.
  run H; try (left; simpl; tauto).
  right. reflexivity.
Qed.

(** X10.  A host reported with [raid_detected] has at least one recorded
    volume, the volume recorded last carries a RAID type, and its
    message is the one of detected RAID. *)
Theorem raid_detected_has_volume
  (host : host_dir) (hn dc : string) (r : ReportRaid.result) :
  ReportRaid.get_raid_information host hn dc = Ok r ->
  ReportRaid.raid_detected r = true ->
  (exists vols v,
     ReportRaid.volumes r = (vols ++ [v])%list /\ ReportRaid.raid_type v <> JNull) /\
  ReportRaid.message r = "Hardware RAID detected".
Proof.
  intros H Hd. split.
  - apply raid_detected_is_last in H. unfold flag_is_last, last_volume_has_raid in H.
    rewrite Hd in H.
    destruct (rev (ReportRaid.volumes r)) as [|v rest] eqn:E; [discriminate|].
    exists (rev rest), v. split.
    + rewrite <- (rev_involutive (ReportRaid.volumes r)), E. reflexivity.
    + symmetry in H. apply negb_true_iff in H. now apply is_none_false.
  - destruct (raid_walk_cases _ _ _ _ H) as [(_ & _ & _ & Hf & _) | Hm];
      [congruence|].
    rewrite Hm. unfold ReportRaid.classify. now rewrite Hd.
Qed.

Lemma raid_detected_has_volume_witness :
  exists r,
    ReportRaid.get_raid_information storages_host_volume_under_storage
      "node-1" "dc1" = Ok r /\
    (exists vols v,
       ReportRaid.volumes r = (vols ++ [v])%list /\
       ReportRaid.raid_type v <> JNull) /\
    ReportRaid.message r = "Hardware RAID detected".
Proof.
  assert (Hr : exists r,
             ReportRaid.get_raid_information storages_host_volume_under_storage
               "node-1" "dc1" = Ok r /\ ReportRaid.raid_detected r = true)
    by (eexists; split; vm_compute; reflexivity).
  destruct Hr as (r & Hr & Hd). exists r. split; [exact Hr|].
  exact (raid_detected_has_volume _ _ _ r Hr Hd).
Defined.

(** X11.  A host whose message is one of the two early ones (no systems
    info, no storage info) has nothing recorded: no controller, no
    volume, and both flags false.  A walk that reaches the storage
    members never ends with one of these messages. *)
Theorem raid_early_message_empty
  (host : host_dir) (hn dc : string) (r : ReportRaid.result) :
  ReportRaid.get_raid_information host hn dc = Ok r ->
  (ReportRaid.message r = ReportRaid.no_systems \/
   ReportRaid.message r = ReportRaid.no_storage ->
   ReportRaid.controllers r = [] /\ ReportRaid.volumes r = [] /\
   ReportRaid.raid_detected r = false /\ ReportRaid.raid_capable r = false) /\
  (reaches_storage_members host ->
   ReportRaid.message r <> ReportRaid.no_systems /\
   ReportRaid.message r <> ReportRaid.no_storage).
Proof.
  intros H. destruct (classify_not_early r) as [H1 H2]. split.
  - intros Hm.
    destruct (raid_walk_cases _ _ _ _ H) as [(_ & Hrest) | Hc]; [exact Hrest|].
    exfalso. rewrite <- Hc in H1, H2. tauto.
  - intros Hreach. now rewrite (raid_walk_reaches host hn dc r Hreach H).
Qed.

Lemma raid_early_message_empty_witness :
  (exists r,
     ReportRaid.get_raid_information
       (files [(["Systems.json"], collection ["/redfish/v1/Systems/1"])])
       "node-1" "dc1" = Ok r /\
     ReportRaid.message r = ReportRaid.no_storage /\
     ReportRaid.controllers r = [] /\ ReportRaid.volumes r = [] /\
     ReportRaid.raid_detected r = false /\ ReportRaid.raid_capable r = false) /\
  (exists r,
     ReportRaid.get_raid_information plain_controller_host "node-1" "dc1" = Ok r /\
     ReportRaid.raid_capable r = false /\ ReportRaid.volumes r = [] /\
     ReportRaid.message r <> ReportRaid.no_systems /\
     ReportRaid.message r <> ReportRaid.no_storage).
Proof.
  split.
  - assert (Hr : exists r,
               ReportRaid.get_raid_information
                 (files [(["Systems.json"], collection ["/redfish/v1/Systems/1"])])
                 "node-1" "dc1" = Ok r /\
               ReportRaid.message r = ReportRaid.no_storage)
      by (eexists; split; vm_compute; reflexivity).
    destruct Hr as (r & Hr & Hm). exists r. split; [exact Hr|]. split; [exact Hm|].
    exact (proj1 (raid_early_message_empty _ _ _ r Hr) (or_intror Hm)).
  - eexists. split; [vm_compute; reflexivity|].
    split; [reflexivity|]. split; [reflexivity|].
    apply (proj2 (raid_early_message_empty plain_controller_host "node-1" "dc1" _
                    ltac:(vm_compute; reflexivity))).
    reach.
Defined.

Lemma drive_body_ids (ids ids' : list string) (d : json) :
  Forall (fun d => d <> "" /\ no_slash d = true) ids ->
  ReportRaid.drive_body ids d = Ok ids' ->
  Forall (fun d => d <> "" /\ no_slash d = true) ids'.
Proof.
  unfold ReportRaid.drive_body. intros HP H. run H; auto.
  simpl. destruct (String.eqb_spec s ""); simpl; [assumption|].
  apply Forall_app. split; [assumption|]. constructor; [|constructor].
  split; [assumption|]. eapply last_segment_no_slash; eassumption.
Qed.

Lemma volume_body_consistent
  (host : host_dir) (sys sid : string) (r r' : ReportRaid.result) (vmem : json) :
  Forall volume_consistent (ReportRaid.volumes r) ->
  ReportRaid.volume_body host sys sid r vmem = Ok r' ->
  Forall volume_consistent (ReportRaid.volumes r').
Proof.
  unfold ReportRaid.volume_body. intros HP H. run H; auto.
  simpl. apply Forall_app. split; [assumption|]. constructor; [|constructor].
  split; [reflexivity|]. simpl.
  match goal with
  | Hd : for_each ReportRaid.drive_body _ [] = Ok _ |- _ => revert Hd
  end.
  apply for_each_invariant; [|constructor].
  intros st x st'. apply drive_body_ids.
Qed.

Lemma storage_body_consistent
  (host : host_dir) (sys dir : string) (r r' : ReportRaid.result) (member : json) :
  Forall volume_consistent (ReportRaid.volumes r) ->
  ReportRaid.storage_body host sys dir r member = Ok r' ->
  Forall volume_consistent (ReportRaid.volumes r').
Proof.
  unfold ReportRaid.storage_body. intros HP H. run H; auto.
  all: match goal with
       | Hc : for_each ReportRaid.controller_body _ _ = Ok ?r1 |- _ =>
           assert (HP1 : Forall volume_consistent (ReportRaid.volumes r1))
             by (revert Hc;
                 apply (for_each_invariant
                          (fun r => Forall volume_consistent (ReportRaid.volumes r)));
                 auto; intros st x st' Hst Hb;
                 apply controller_body_keeps_volumes in Hb;
                 destruct Hb as [Hv _]; now rewrite Hv)
       end; auto.
  revert H.
  apply (for_each_invariant
           (fun r => Forall volume_consistent (ReportRaid.volumes r))); auto.
  intros st x st'. apply volume_body_consistent.
Qed.

(** X12.  Every volume a RAID walk records is consistent with its
    document: its capacity in GiB is the conversion of the byte count
    recorded beside it ([None] exactly when that is not an integer), and
    each of its drive identifiers is a non-empty name without a
    slash. *)
Theorem raid_volumes_consistent
  (host : host_dir) (hn dc : string) (r : ReportRaid.result) :
  ReportRaid.get_raid_information host hn dc = Ok r ->
  Forall volume_consistent (ReportRaid.volumes r).
Proof.
  unfold ReportRaid.get_raid_information. intros H.
  run H; try (simpl; constructor).
  simpl.
  match goal with
  | Hs : for_each (ReportRaid.storage_body _ _ _) _ _ = Ok _ |- _ => revert Hs
  end.
  apply (for_each_invariant
           (fun r => Forall volume_consistent (ReportRaid.volumes r)));
    [|constructor].
  intros st x st'. apply storage_body_consistent.
Qed.

Lemma raid_volumes_consistent_witness :
  exists r,
    ReportRaid.get_raid_information mixed_volumes_host "node-1" "dc1" = Ok r /\
    List.length (ReportRaid.volumes r) = 2%nat /\
    Forall volume_consistent (ReportRaid.volumes r).
Proof.
  eexists. split; [vm_compute; reflexivity|].
  split; [reflexivity|].
  apply (raid_volumes_consistent mixed_volumes_host "node-1" "dc1").
  vm_compute. reflexivity.
Defined.

Lemma for_each_ext {A S : Type} (f g : S -> A -> res S) :
  (forall st x, f st x = g st x) ->
  forall xs st, for_each f xs st = for_each g xs st.
Proof.
  intros Hfg xs. induction xs as [|x xs IH]; intros st; simpl; [reflexivity|].
  rewrite Hfg. destruct (g st x); simpl; [apply IH | reflexivity].
Qed.

Lemma path_eqb_eq (p q : path) : path_eqb p q = true -> p = q.
Proof.
  revert q. induction p as [|a p IH]; intros [|b q]; simpl; try discriminate;
    [reflexivity|].
  rewrite andb_true_iff. intros [Hab Hpq].
  apply String.eqb_eq in Hab. subst. f_equal. now apply IH.
Qed.

(** One step of a proof that two runs of one text are equal. *)
Ltac same_step :=
  match goal with
  | |- ?x = ?x => reflexivity
  | |- bind ?m _ = bind ?m _ => destruct m; cbn [bind]
  | |- (if ?c then _ else _) = (if ?c then _ else _) => destruct c
  | |- match ?x with _ => _ end = match ?x with _ => _ end => destruct x
  end.

Section Fallback.

Variables host host' : host_dir.
Hypothesis Hdiff : differ_in_unused_fallback host host'.

Lemma read_below_storage (p : path) :
  (3 < List.length p)%nat -> _read_json host p = _read_json host' p.
Proof.
  intros Hp. unfold _read_json.
  destruct (Hdiff p) as [E|(sys & E & _)]; [now rewrite E|].
  subst p. simpl in Hp. lia.
Qed.

Lemma volume_body_same (sys sid : string) (r : ReportRaid.result) (vmem : json) :
  ReportRaid.volume_body host sys sid r vmem =
  ReportRaid.volume_body host' sys sid r vmem.
Proof.
  unfold ReportRaid.volume_body. cbv zeta. repeat same_step.
  rewrite read_below_storage by (simpl; lia). reflexivity.
Qed.

Lemma storage_body_same (sys dir : string) (r : ReportRaid.result) (member : json) :
  ReportRaid.storage_body host sys dir r member =
  ReportRaid.storage_body host' sys dir r member.
Proof.
  unfold ReportRaid.storage_body. cbv zeta. repeat same_step.
  rewrite (read_below_storage ["Systems"; sys; dir; _ ++ ".json"])
    by (simpl; lia).
  rewrite (read_below_storage ["Systems"; sys; dir; _; "Volumes.json"])
    by (simpl; lia).
  repeat same_step.
  apply for_each_ext. intros st x. apply volume_body_same.
Qed.

Lemma read_same (p : path) :
  (forall sys, p <> ["Systems"; sys; "Storages.json"]) ->
  _read_json host p = _read_json host' p.
Proof.
  intros Hp. unfold _read_json.
  destruct (Hdiff p) as [E|(sys & E & _)]; [now rewrite E|].
  now apply Hp in E.
Qed.

Lemma raid_information_same (hn dc : string) :
  ReportRaid.get_raid_information host hn dc =
  ReportRaid.get_raid_information host' hn dc.
Proof.
  unfold ReportRaid.get_raid_information. cbv zeta.
  rewrite (read_same ["Systems.json"]) by discriminate.
  repeat same_step.
  match goal with
  | |- context [_read_json host ["Systems"; ?s; "Storage.json"]] =>
      rename s into sys
  end.
  rewrite <- (read_same ["Systems"; sys; "Storage.json"]) by discriminate.
  destruct (truthy (_read_json host ["Systems"; sys; "Storage.json"])) eqn:Hp;
    cbn [negb].
  - repeat same_step.
    now rewrite (for_each_ext _ _ (storage_body_same sys "Storage")).
  - assert (E3 : _read_json host ["Systems"; sys; "Storages.json"]
                 = _read_json host' ["Systems"; sys; "Storages.json"]).
    { unfold _read_json.
      destruct (Hdiff ["Systems"; sys; "Storages.json"]) as [E|(sys' & E & Ht)];
        [now rewrite E|].
      inversion E; subst sys'. congruence. }
    rewrite <- E3. repeat same_step.
    now rewrite (for_each_ext _ _ (storage_body_same sys "Storages")).
Qed.

End Fallback.

(** X13.  [Storages.json] is a fallback only: when [Storage.json] of the
    system loads with content, what [Storages.json] holds, or whether it
    exists, changes nothing in the RAID record of the host, and a run
    that raises raises the same. *)
Theorem raid_fallback_unused (host host' : host_dir) (hn dc : string) :
  differ_in_unused_fallback host host' ->
  ReportRaid.get_raid_information host hn dc =
  ReportRaid.get_raid_information host' hn dc.
Proof.
  intros H. now apply raid_information_same.
Qed.

Lemma raid_fallback_unused_witness :
  mixed_volumes_host ["Systems"; "1"; "Storages.json"]
    <> mixed_volumes_host_with_fallback ["Systems"; "1"; "Storages.json"] /\
  ReportRaid.get_raid_information mixed_volumes_host "node-1" "dc1" =
  ReportRaid.get_raid_information mixed_volumes_host_with_fallback "node-1" "dc1".
Proof.
  split; [vm_compute; discriminate|].
  apply raid_fallback_unused.
  intros p. unfold mixed_volumes_host_with_fallback.
  destruct (path_eqb p ["Systems"; "1"; "Storages.json"]) eqn:E.
  - right. exists "1". split; [now apply path_eqb_eq | reflexivity].
  - now left.
Defined.

(** ** Records without holes *)








Lemma safe_get_cons_not_none (data : json) (k : key) (rest : list key)
  (default v : json) :
  default <> JNull -> safe_get data (k :: rest) default = Ok v -> v <> JNull.
Proof.
  intros Hd H. simpl in H.
  apply bind_ok in H. destruct H as (f & Hf & H).
  destruct f as [x|c].
  - inversion H; subst. rewrite safe_get_step_spec in Hf.
    inversion Hf as [E]. clear Hf.
    destruct (descend data k) as [y|].
    + destruct (is_none y); now inversion E; subst.
    + destruct (is_dict data); [|now inversion E; subst].
      destruct (is_none default); now inversion E; subst.
  - apply (safe_get_keeps_not_none c rest default); auto.
    now apply (safe_get_step_not_none data k default).
Qed.

Lemma id_truthy_not_empty (s : string) : id_truthy (Some s) = true -> s <> "".
Proof.
  simpl. destruct (String.eqb_spec s ""); [discriminate | auto].
Qed.

Lemma fan_member_filled (host : host_dir) (r r' : ReportFans.result) (member : json) :
  Forall fan_filled (ReportFans.fans r) ->
  ReportFans.member_body host r member = Ok r' ->
  Forall fan_filled (ReportFans.fans r').
Proof.
  unfold ReportFans.member_body. intros HP H. run H; auto.
  all: match goal with
       | Hs : (if negb (is_NA ?ps) then _ else _) = Ok ?r1 |- _ =>
           assert (HP1 : Forall fan_filled (ReportFans.fans r1))
             by (destruct (negb (is_NA ps)); run Hs; exact HP)
       end; auto.
  revert H.
  apply (for_each_invariant (fun r => Forall fan_filled (ReportFans.fans r)));
    [|assumption].
  intros st x st' Hst Hb. unfold ReportFans.fan_body in Hb. run Hb. simpl.
  apply Forall_app. split; [assumption|]. constructor; [|constructor].
  split; simpl; eapply safe_get_cons_not_none; try eassumption; discriminate.
Qed.

(** X15.  No fan record has a hole: the name and the reading of every
    recorded fan are a value of the document or the sentinel, never
    [None], whatever the thermal document holds. *)
Theorem fans_filled (host : host_dir) (hn dc : string) (r : ReportFans.result) :
  ReportFans.get_fan_metrics host hn dc = Ok r ->
  Forall fan_filled (ReportFans.fans r).
Proof.
  unfold ReportFans.get_fan_metrics. intros H.
  run H; simpl; try constructor.
  revert H.
  apply (for_each_invariant (fun r => Forall fan_filled (ReportFans.fans r)));
    [|constructor].
  intros st x st'. apply fan_member_filled.
Qed.

Lemma fans_filled_witness :
  exists r,
    ReportFans.get_fan_metrics bare_thermal_host "node-1" "dc1" = Ok r /\
    map ReportFans.reading_rpm (ReportFans.fans r) = [JStr "NA"] /\
    Forall fan_filled (ReportFans.fans r).
Proof.
  eexists. split; [vm_compute; reflexivity|]. split; [reflexivity|].
  apply (fans_filled bare_thermal_host "node-1" "dc1").
  vm_compute. reflexivity.
Defined.

Lemma temperature_member_filled
  (host : host_dir) (r r' : ReportTemperature.result) (member : json) :
  Forall sensor_filled (ReportTemperature.temperatures r) ->
  ReportTemperature.member_body host r member = Ok r' ->
  Forall sensor_filled (ReportTemperature.temperatures r').
Proof.
  unfold ReportTemperature.member_body. intros HP H. run H; auto.
  all: match goal with
       | Hs : (if truthy ?d then _ else _) = Ok ?r1 |- _ =>
           assert (HP1 : Forall sensor_filled (ReportTemperature.temperatures r1))
             by (run Hs; exact HP)
       end; auto.
  match goal with
  | Hn : _last_segment _ = Ok (Some ?cid),
    Hi : negb (id_truthy (Some ?cid)) = false |- _ =>
      apply negb_false_iff, id_truthy_not_empty in Hi;
      apply last_segment_no_slash in Hn
  end.
  revert H.
  apply (for_each_invariant
           (fun r => Forall sensor_filled (ReportTemperature.temperatures r)));
    [|assumption].
  intros st x st' Hst Hb. unfold ReportTemperature.sensor_body in Hb.
  run Hb. simpl.
  apply Forall_app. split; [assumption|]. constructor; [|constructor].
  repeat split; simpl; try assumption;
    eapply safe_get_cons_not_none; try eassumption; discriminate.
Qed.

(** X16.  No temperature record has a hole: its chassis identifier is a
    non-empty name without a slash, and its name, reading and physical
    context are a value of the document or the sentinel, never
    [None]. *)
Theorem sensors_filled
  (host : host_dir) (hn dc : string) (r : ReportTemperature.result) :
  ReportTemperature.get_temperature_information host hn dc = Ok r ->
  Forall sensor_filled (ReportTemperature.temperatures r).
Proof.
  unfold ReportTemperature.get_temperature_information. intros H.
  run H; simpl; try constructor.
  all: match goal with
       | Hw : for_each (ReportTemperature.member_body _) _ _ = Ok _ |- _ =>
           revert Hw
       end;
    apply (for_each_invariant
             (fun r => Forall sensor_filled (ReportTemperature.temperatures r)));
    [|constructor];
    intros st x st'; apply temperature_member_filled.
Qed.

Lemma sensors_filled_witness :
  exists r,
    ReportTemperature.get_temperature_information bare_thermal_host "node-1" "dc1"
      = Ok r /\
    map ReportTemperature.name (ReportTemperature.temperatures r) = [JStr "-"] /\
    Forall sensor_filled (ReportTemperature.temperatures r).
Proof.
  eexists. split; [vm_compute; reflexivity|]. split; [reflexivity|].
  apply (sensors_filled bare_thermal_host "node-1" "dc1").
  vm_compute. reflexivity.
Defined.

Lemma truthy_py_or (a b : json) : truthy b = true -> truthy (py_or a b) = true.
Proof.
  intros Hb. unfold py_or. destruct (truthy a) eqn:Ha; assumption.
Qed.

Lemma device_member_filled
  (host : host_dir) (r r' : ReportDeviceType.result) (member : json) :
  Forall chassis_filled (ReportDeviceType.chassis_info r) ->
  ReportDeviceType.member_body host r member = Ok r' ->
  Forall chassis_filled (ReportDeviceType.chassis_info r').
Proof.
  unfold ReportDeviceType.member_body. intros HP H. run H; auto.
  simpl. apply Forall_app. split; [assumption|]. constructor; [|constructor].
  match goal with
  | Hn : _last_segment _ = Ok (Some ?cid),
    Hi : negb (id_truthy (Some ?cid)) = false |- _ =>
      apply negb_false_iff, id_truthy_not_empty in Hi;
      apply last_segment_no_slash in Hn
  end.
  repeat split; simpl; try assumption; now apply truthy_py_or.
Qed.

(** X17.  No chassis record of the device report has a hole: its
    identifier is a non-empty name without a slash, and its type,
    manufacturer, model and serial number are never [None] nor empty
    (a missing or empty field reads ["Unknown"]). *)
Theorem chassis_records_filled
  (fmt : formatter) (host : host_dir) (hn dc : string)
  (r : ReportDeviceType.result) :
  ReportDeviceType.get_device_information fmt host hn dc = Ok r ->
  Forall chassis_filled (ReportDeviceType.chassis_info r).
Proof.
  unfold ReportDeviceType.get_device_information. intros H.
  run H; simpl; try constructor.
  all: match goal with
       | Hw : for_each (ReportDeviceType.member_body _) _ _ = Ok _ |- _ =>
           revert Hw
       end;
    apply (for_each_invariant
             (fun r => Forall chassis_filled (ReportDeviceType.chassis_info r)));
    [|constructor];
    intros st x st'; apply device_member_filled.
Qed.

Lemma chassis_records_filled_witness :
  exists r,
    ReportDeviceType.get_device_information plain_formatter bare_thermal_host
      "node-1" "dc1" = Ok r /\
    map ReportDeviceType.serial (ReportDeviceType.chassis_info r)
      = [JStr "Unknown"] /\
    Forall chassis_filled (ReportDeviceType.chassis_info r).
Proof.
  eexists. split; [vm_compute; reflexivity|]. split; [reflexivity|].
  apply (chassis_records_filled plain_formatter bare_thermal_host "node-1" "dc1").
  vm_compute. reflexivity.
Defined.

Section PowerFilled.

Variable sg : json -> list key -> json -> res json.
Hypothesis sg_not_none :
  forall data k rest v, sg data (k :: rest) (JStr "NA") = Ok v -> v <> JNull.

Lemma power_member_filled (host : host_dir) (st st' : PowerWalk.state)
  (member : json) :
  state_filled st -> PowerWalk.member_body sg host st member = Ok st' ->
  state_filled st'.
Proof.
  unfold PowerWalk.member_body. intros HP H. run H; auto.
  all: match goal with
       | Hs : (if negb (is_NA ?ps) then _ else _) = Ok ?st1 |- _ =>
           assert (HP1 : state_filled st1)
             by (destruct (negb (is_NA ps)); run Hs; exact HP)
       end; auto.
  unfold PowerWalk.read_power in H. run H; auto.
  repeat split; simpl; eapply sg_not_none; eassumption.
Qed.

Lemma power_record_filled (host : host_dir) (hn dc : string) (r : PowerWalk.result) :
  PowerWalk.get_power_metrics sg host hn dc = Ok r -> power_filled r.
Proof.
  unfold PowerWalk.get_power_metrics. intros H.
  apply bind_ok in H. destruct H as (index & _ & H).
  apply bind_ok in H. destruct H as (version & Hv & H).
  assert (Hversion : version <> JNull).
  { destruct index.
    - now apply sg_not_none in Hv.
    - inversion Hv. discriminate. }
  run H; unfold power_filled; simpl; try (repeat split; auto; discriminate).
  match goal with
  | Hw : for_each (PowerWalk.member_body _ _) _ _ = Ok ?st |- _ =>
      assert (Hst : state_filled st)
        by (revert Hw; apply (for_each_invariant state_filled);
            [intros st0 x st1; apply power_member_filled
            |repeat split; discriminate])
  end.
  destruct Hst as (H1 & H2 & H3 & H4). repeat split; assumption.
Qed.

End PowerFilled.

(** X18.  No power record has a hole, in [report_power.py] and in
    [script.py]: the Redfish version and the four consumption metrics
    are a value of the documents or the sentinel ["NA"], never [None],
    even where the document holds [null]. *)
Theorem power_records_filled (host : host_dir) (hn dc : string) :
  (forall r, ReportPower.get_power_metrics host hn dc = Ok r -> power_filled r) /\
  (forall r, Script.get_power_metrics host hn dc = Ok r -> power_filled r).
Proof.
  split; intros r; apply power_record_filled.
  - intros data k rest v. apply safe_get_cons_not_none. discriminate.
  - intros data k rest v. apply safe_get_script_keeps_not_none. discriminate.
Qed.

Lemma power_records_filled_witness :
  exists r,
    Script.get_power_metrics null_power_host "node-1" "dc1" = Ok r /\
    reported r = not_available /\ power_filled r.
Proof.
  eexists. split; [vm_compute; reflexivity|]. split; [reflexivity|].
  apply (proj2 (power_records_filled null_power_host "node-1" "dc1")).
  vm_compute. reflexivity.
Defined.

(** X19.  The summary of the temperature and device reports counts the
    records listed below it: a host with records is summarised with
    their number (and, for the device report, their chassis types in
    order), and a host without any record has one of the messages that
    say so. *)
Theorem summary_counts_records (fmt : formatter) (host : host_dir) (hn dc : string) :
  (forall r, ReportTemperature.get_temperature_information host hn dc = Ok r ->
     match ReportTemperature.temperatures r with
     | [] =>
         ReportTemperature.message r = "No chassis info exposed via Redfish" \/
         ReportTemperature.message r = "No chassis members exposed via Redfish" \/
         ReportTemperature.message r = "No temperature sensors found"
     | ts =>
         ReportTemperature.message r =
         "Found " ++ nat_str (Z.of_nat (List.length ts)) ++ " temperature sensor(s)"
     end) /\
  (forall r, ReportDeviceType.get_device_information fmt host hn dc = Ok r ->
     match ReportDeviceType.chassis_info r with
     | [] =>
         ReportDeviceType.message r = "No chassis info exposed via Redfish" \/
         ReportDeviceType.message r = "No chassis members found" \/
         ReportDeviceType.message r = "No chassis details available"
     | cs =>
         ReportDeviceType.message r =
         "found " ++ nat_str (Z.of_nat (List.length cs)) ++ " chassis: "
         ++ join_comma (map (fun c => py_str fmt (ReportDeviceType.chassis_type c)) cs)
     end).
Proof.
  split; intros r H.
  - unfold ReportTemperature.get_temperature_information in H.
    run H; simpl; auto.
    match goal with
    | |- context [ReportTemperature.temperatures ?x] =>
        destruct (ReportTemperature.temperatures x); auto
    end.
  - unfold ReportDeviceType.get_device_information in H.
    run H; simpl; auto.
    match goal with
    | |- context [ReportDeviceType.chassis_info ?x] =>
        destruct (ReportDeviceType.chassis_info x); auto
    end.
Qed.

Lemma summary_counts_records_witness :
  exists r,
    ReportTemperature.get_temperature_information three_chassis_host "node-1" "dc1"
      = Ok r /\
    ReportTemperature.message r = "Found 3 temperature sensor(s)" /\
    match ReportTemperature.temperatures r with
    | [] =>
        ReportTemperature.message r = "No chassis info exposed via Redfish" \/
        ReportTemperature.message r = "No chassis members exposed via Redfish" \/
        ReportTemperature.message r = "No temperature sensors found"
    | ts =>
        ReportTemperature.message r =
        "Found " ++ nat_str (Z.of_nat (List.length ts)) ++ " temperature sensor(s)"
    end.
Proof.
  eexists. split; [vm_compute; reflexivity|]. split; [reflexivity|].
  apply (proj1 (summary_counts_records plain_formatter three_chassis_host
                  "node-1" "dc1")).
  vm_compute. reflexivity.
Defined.

(** ** The scan *)

Lemma raid_labelled (host : host_dir) (hn dc : string) (r : ReportRaid.result) :
  ReportRaid.get_raid_information host hn dc = Ok r -> raid_label r = (dc, hn).
Proof.
  assert (Hc : forall st x st', raid_label st = (dc, hn) ->
                 ReportRaid.controller_body st x = Ok st' -> raid_label st' = (dc, hn)).
  { intros st x st' HP H. unfold ReportRaid.controller_body in H. run H.
    match goal with |- context [if ?c then _ else _] => destruct c end; exact HP. }
  assert (Hv : forall sys sid st x st', raid_label st = (dc, hn) ->
                 ReportRaid.volume_body host sys sid st x = Ok st' ->
                 raid_label st' = (dc, hn)).
  { intros sys sid st x st' HP H. unfold ReportRaid.volume_body in H.
    run H; exact HP. }
  assert (Hs : forall sys dir st x st', raid_label st = (dc, hn) ->
                 ReportRaid.storage_body host sys dir st x = Ok st' ->
                 raid_label st' = (dc, hn)).
  { intros sys dir st x st' HP H. unfold ReportRaid.storage_body in H.
    run H; auto.
    all: match goal with
         | Hl : for_each ReportRaid.controller_body _ _ = Ok ?r1 |- _ =>
             assert (HP1 : raid_label r1 = (dc, hn))
               by (revert Hl;
                   apply (for_each_invariant (fun r => raid_label r = (dc, hn)));
                   auto)
         end; auto.
    revert H. apply (for_each_invariant (fun r => raid_label r = (dc, hn))); auto.
    intros st0 x0 st1. apply Hv. }
  unfold ReportRaid.get_raid_information. intros H.
  run H; try reflexivity.
  match goal with
  | Hl : for_each (ReportRaid.storage_body _ _ _) _ _ = Ok ?r1 |- _ =>
      change (raid_label r1 = (dc, hn)); revert Hl
  end.
  apply (for_each_invariant (fun r => raid_label r = (dc, hn))); [|reflexivity].
  intros st x st'. apply Hs.
Qed.

Lemma fans_labelled (host : host_dir) (hn dc : string) (r : ReportFans.result) :
  ReportFans.get_fan_metrics host hn dc = Ok r -> fan_label r = (dc, hn).
Proof.
  assert (Hm : forall st x st', fan_label st = (dc, hn) ->
                 ReportFans.member_body host st x = Ok st' -> fan_label st' = (dc, hn)).
  { intros st x st' HP H. unfold ReportFans.member_body in H. run H; auto.
    all: match goal with
         | Hs : (if negb (is_NA ?ps) then _ else _) = Ok ?r1 |- _ =>
             assert (HP1 : fan_label r1 = (dc, hn))
               by (destruct (negb (is_NA ps)); run Hs; exact HP)
         end; auto.
    revert H. apply (for_each_invariant (fun r => fan_label r = (dc, hn))); auto.
    intros st0 x0 st1 H0 Hb. unfold ReportFans.fan_body in Hb. run Hb. exact H0. }
  unfold ReportFans.get_fan_metrics. intros H. run H; try reflexivity.
  revert H. apply (for_each_invariant (fun r => fan_label r = (dc, hn))); auto.
Qed.

Lemma temperature_labelled
  (host : host_dir) (hn dc : string) (r : ReportTemperature.result) :
  ReportTemperature.get_temperature_information host hn dc = Ok r ->
  temperature_label r = (dc, hn).
Proof.
  assert (Hm : forall st x st', temperature_label st = (dc, hn) ->
                 ReportTemperature.member_body host st x = Ok st' ->
                 temperature_label st' = (dc, hn)).
  { intros st x st' HP H. unfold ReportTemperature.member_body in H. run H; auto.
    all: match goal with
         | Hs : (if truthy ?d then _ else _) = Ok ?r1 |- _ =>
             assert (HP1 : temperature_label r1 = (dc, hn)) by (run Hs; exact HP)
         end; auto.
    revert H.
    apply (for_each_invariant (fun r => temperature_label r = (dc, hn))); auto.
    intros st0 x0 st1 H0 Hb. unfold ReportTemperature.sensor_body in Hb.
    run Hb. exact H0. }
  unfold ReportTemperature.get_temperature_information. intros H.
  run H; try reflexivity.
  all: match goal with
       | Hl : for_each (ReportTemperature.member_body _) _ _ = Ok ?r1 |- _ =>
           change (temperature_label r1 = (dc, hn)); revert Hl
       end;
    apply (for_each_invariant (fun r => temperature_label r = (dc, hn))); auto.
Qed.

Lemma device_labelled (fmt : formatter)
  (host : host_dir) (hn dc : string) (r : ReportDeviceType.result) :
  ReportDeviceType.get_device_information fmt host hn dc = Ok r ->
  device_label r = (dc, hn).
Proof.
  assert (Hm : forall st x st', device_label st = (dc, hn) ->
                 ReportDeviceType.member_body host st x = Ok st' ->
                 device_label st' = (dc, hn)).
  { intros st x st' HP H. unfold ReportDeviceType.member_body in H.
    run H; exact HP. }
  unfold ReportDeviceType.get_device_information. intros H.
  run H; try reflexivity.
  all: match goal with
       | Hl : for_each (ReportDeviceType.member_body _) _ _ = Ok ?r1 |- _ =>
           change (device_label r1 = (dc, hn)); revert Hl
       end;
    apply (for_each_invariant (fun r => device_label r = (dc, hn))); auto.
Qed.

Lemma power_labelled (sg : json -> list key -> json -> res json)
  (host : host_dir) (hn dc : string) (r : PowerWalk.result) :
  PowerWalk.get_power_metrics sg host hn dc = Ok r -> power_label r = (dc, hn).
Proof.
  unfold PowerWalk.get_power_metrics. intros H. run H; reflexivity.
Qed.

Section ScanOrder.

Context {result : Type}.
Variable get : host_dir -> string -> string -> res result.
Variable label : result -> string * string.
Hypothesis get_labelled :
  forall host hn dc r, get host hn dc = Ok r -> label r = (dc, hn).

Lemma scan_hosts_order (dc : string) (hs : list dir_entry) (acc rs : list result) :
  for_each (scan_host get dc) hs acc = Ok rs ->
  map label rs =
  (map label acc ++ map (fun h => (dc, entry_name h)) (filter entry_is_dir hs))%list.
Proof.
  revert acc. induction hs as [|h hs IH]; intros acc H; simpl in H.
  - inversion H; subst. simpl. now rewrite app_nil_r.
  - apply bind_ok in H. destruct H as (acc1 & H1 & H).
    apply IH in H. rewrite H. unfold scan_host in H1. simpl.
    destruct (entry_is_dir h); simpl in H1.
    + apply bind_ok in H1. destruct H1 as (r & Hr & H1). inversion H1; subst.
      apply get_labelled in Hr. rewrite map_app. simpl. rewrite Hr.
      now rewrite <- app_assoc.
    + now inversion H1; subst.
Qed.

Lemma collect_order (s : snapshot) (acc rs : list result) :
  for_each (scan_datacenter get) s acc = Ok rs ->
  map label rs = (map label acc ++ scanned s)%list.
Proof.
  revert acc. induction s as [|d s IH]; intros acc H; simpl in H.
  - inversion H; subst. simpl. now rewrite app_nil_r.
  - apply bind_ok in H. destruct H as (acc1 & H1 & H).
    apply IH in H. rewrite H. unfold scan_datacenter in H1.
    unfold scanned. simpl. fold (scanned s).
    destruct (dc_is_dir d); simpl in H1.
    + apply scan_hosts_order in H1. rewrite H1. now rewrite <- app_assoc.
    + now inversion H1; subst.
Qed.

End ScanOrder.

(** X20.  The records of a scan come in the order of the scan: one
    record per host directory, labelled with the names of its
    datacenter and host, the datacenters in the order the dump yields
    them and the hosts of each sorted by name; entries that are not
    directories give no record.  This holds for every report. *)
Theorem scan_order (fmt : formatter) (s : snapshot) :
  (forall rs, collect ReportRaid.get_raid_information s = Ok rs ->
     map raid_label rs = scanned s) /\
  (forall rs, collect ReportFans.get_fan_metrics s = Ok rs ->
     map fan_label rs = scanned s) /\
  (forall rs, collect ReportTemperature.get_temperature_information s = Ok rs ->
     map temperature_label rs = scanned s) /\
  (forall rs, collect (ReportDeviceType.get_device_information fmt) s = Ok rs ->
     map device_label rs = scanned s) /\
  (forall rs, collect ReportPower.get_power_metrics s = Ok rs ->
     map power_label rs = scanned s) /\
  (forall rs, collect Script.get_power_metrics s = Ok rs ->
     map power_label rs = scanned s).
Proof.
  unfold collect.
  repeat split; intros rs H.
  - apply (collect_order _ raid_label raid_labelled) in H. exact H.
  - apply (collect_order _ fan_label fans_labelled) in H. exact H.
  - apply (collect_order _ temperature_label temperature_labelled) in H. exact H.
  - apply (collect_order _ device_label (device_labelled fmt)) in H. exact H.
  - apply (collect_order _ power_label (power_labelled safe_get)) in H. exact H.
  - apply (collect_order _ power_label (power_labelled safe_get_script)) in H.
    exact H.
Qed.

Lemma scan_order_witness :
  exists rs,
    collect ReportFans.get_fan_metrics two_datacenters = Ok rs /\
    scanned two_datacenters = [("dc2", "node-2"); ("dc1", "node-1"); ("dc1", "node-2")] /\
    map fan_label rs = scanned two_datacenters.
Proof.
  assert (Hr : exists rs, collect ReportFans.get_fan_metrics two_datacenters = Ok rs)
    by (eexists; vm_compute; reflexivity).
  destruct Hr as (rs & Hr). exists rs. split; [exact Hr|].
  split; [reflexivity|].
  exact (proj1 (proj2 (scan_order plain_formatter two_datacenters)) rs Hr).
Defined.

(** ** Entries that are not directories, hosts that fail *)

Lemma insert_entry_least (e : dir_entry) (l : list dir_entry) :
  Forall (name_leb e) l -> insert_entry e l = e :: l.
Proof.
  intros H. destruct l as [|y rest]; [reflexivity|]. simpl.
  inversion H as [|? ? Hy _]; subst. unfold name_leb in Hy. now rewrite Hy.
Qed.

Lemma filter_insert_entry (P : dir_entry -> bool) (e : dir_entry)
  (l : list dir_entry) :
  StronglySorted name_leb l ->
  filter P (insert_entry e l) =
  if P e then insert_entry e (filter P l) else filter P l.
Proof.
  induction l as [|y rest IH]; intros Hs.
  - simpl. now destruct (P e).
  - inversion Hs as [|? ? Hrest Hall]; subst.
    cbn [insert_entry].
    destruct (String.leb (entry_name e) (entry_name y)) eqn:Hey.
    + cbn [filter]. destruct (P e); [|reflexivity].
      symmetry. apply insert_entry_least.
      assert (Hle : Forall (name_leb e) (y :: rest)).
      { constructor; [exact Hey|].
        rewrite Forall_forall in *. intros z Hz. unfold name_leb in *.
        apply (string_leb_trans _ (entry_name y)); auto. }
      rewrite Forall_forall in *. intros z Hz. apply Hle.
      change (In z (filter P (y :: rest))) in Hz.
      apply filter_In in Hz. tauto.
    + cbn [filter]. rewrite (IH Hrest).
      destruct (P y), (P e); try reflexivity.
      cbn [insert_entry]. now rewrite Hey.
Qed.

Lemma sorted_entries_filter (P : dir_entry -> bool) (l : list dir_entry) :
  sorted_entries (filter P l) = filter P (sorted_entries l).
Proof.
  induction l as [|e rest IH]; [reflexivity|]. cbn [filter sorted_entries].
  rewrite (filter_insert_entry P e _ (sorted_entries_sorted rest)).
  destruct (P e); [|exact IH]. cbn [sorted_entries]. now rewrite IH.
Qed.

Lemma for_each_filter {A S : Type} (body : S -> A -> res S) (P : A -> bool) :
  (forall st x, P x = false -> body st x = Ok st) ->
  forall xs st, for_each body (filter P xs) st = for_each body xs st.
Proof.
  intros Hskip xs. induction xs as [|x xs IH]; intros st; [reflexivity|].
  cbn [filter]. destruct (P x) eqn:Hx.
  - simpl. destruct (body st x); simpl; [apply IH | reflexivity].
  - simpl. rewrite (Hskip st x Hx). simpl. apply IH.
Qed.

Lemma collect_directories_only {result : Type}
  (get : host_dir -> string -> string -> res result) (s : snapshot) :
  collect get (directories_only s) = collect get s.
Proof.
  unfold collect, directories_only. generalize (@nil result).
  induction s as [|d s IH]; intros acc; [reflexivity|].
  cbn [filter]. destruct (dc_is_dir d) eqn:Hd.
  - cbn [map for_each]. unfold scan_datacenter at 1 3. cbn [dc_is_dir dc_name dc_listing].
    rewrite Hd. cbn [negb].
    rewrite sorted_entries_filter.
    rewrite (for_each_filter (scan_host get (dc_name d)) entry_is_dir)
      by (intros st x Hx; unfold scan_host; now rewrite Hx).
    destruct (for_each _ _ acc); simpl; [apply IH | reflexivity].
  - cbn [for_each]. unfold scan_datacenter at 2. rewrite Hd. simpl. apply IH.
Qed.

(** X21.  Entries of the dump that are not directories (files beside
    the datacenter directories, files beside the host directories)
    change nothing: every report prints the same lines, and ends the
    same way, as on the dump without them. *)
Theorem stray_entries_ignored (fmt : formatter) (s : snapshot) :
  ReportRaid.main fmt (directories_only s) = ReportRaid.main fmt s /\
  ReportFans.main fmt (directories_only s) = ReportFans.main fmt s /\
  ReportTemperature.main fmt (directories_only s) = ReportTemperature.main fmt s /\
  ReportDeviceType.main fmt (directories_only s) = ReportDeviceType.main fmt s /\
  ReportPower.main fmt (directories_only s) = ReportPower.main fmt s /\
  Script.main fmt (directories_only s) = Script.main fmt s.
Proof.
  unfold Script.main, ReportPower.main, PowerWalk.main, ReportRaid.main,
    ReportFans.main, ReportTemperature.main, ReportDeviceType.main, run_report.
  now rewrite !collect_directories_only.
Qed.

Lemma for_each_raises {A S : Type} (body : S -> A -> res S) (x : A) :
  (forall st, exists e, body st x = Raise e) ->
  forall xs st, In x xs -> exists e, for_each body xs st = Raise e.
Proof.
  intros Hx xs. induction xs as [|y xs IH]; intros st Hin; [destruct Hin|].
  simpl. destruct (body st y) as [st1|e] eqn:Hy; simpl.
  - destruct Hin as [->|Hin]; [|now apply IH].
    destruct (Hx st) as (e & He). congruence.
  - now exists e.
Qed.

Lemma collect_raises {result : Type}
  (get : host_dir -> string -> string -> res result) (s : snapshot)
  (d : datacenter_entry) (h : dir_entry) (e : exn) :
  In d s -> dc_is_dir d = true ->
  In h (dc_listing d) -> entry_is_dir h = true ->
  get (entry_files h) (entry_name h) (dc_name d) = Raise e ->
  exists e', collect get s = Raise e'.
Proof.
  intros Hd Hdir Hh Hhdir He. unfold collect.
  apply (for_each_raises _ d); [|exact Hd].
  intros acc. unfold scan_datacenter. rewrite Hdir. cbn [negb].
  apply (for_each_raises _ h).
  - intros st. unfold scan_host. rewrite Hhdir. cbn [negb]. rewrite He.
    now exists e.
  - apply (Permutation_in _ (sorted_entries_perm _)). exact Hh.
Qed.

(** X22.  One failing host silences a report: when the walk of any host
    directory of the dump raises, [main] ends with an exception before
    its display loop, so not a single line is printed, not even for the
    hosts scanned before the failing one. *)
Theorem failing_host_silences_report
  (fmt : formatter) (s : snapshot) (d : datacenter_entry) (h : dir_entry) :
  In d s -> dc_is_dir d = true ->
  In h (dc_listing d) -> entry_is_dir h = true ->
  ((exists e, ReportRaid.get_raid_information
                (entry_files h) (entry_name h) (dc_name d) = Raise e) ->
   silent (ReportRaid.main fmt s)) /\
  ((exists e, ReportFans.get_fan_metrics
                (entry_files h) (entry_name h) (dc_name d) = Raise e) ->
   silent (ReportFans.main fmt s)) /\
  ((exists e, ReportTemperature.get_temperature_information
                (entry_files h) (entry_name h) (dc_name d) = Raise e) ->
   silent (ReportTemperature.main fmt s)) /\
  ((exists e, ReportDeviceType.get_device_information fmt
                (entry_files h) (entry_name h) (dc_name d) = Raise e) ->
   silent (ReportDeviceType.main fmt s)) /\
  ((exists e, ReportPower.get_power_metrics
                (entry_files h) (entry_name h) (dc_name d) = Raise e) ->
   silent (ReportPower.main fmt s)) /\
  ((exists e, Script.get_power_metrics
                (entry_files h) (entry_name h) (dc_name d) = Raise e) ->
   silent (Script.main fmt s)).
Proof.
  intros Hd Hdir Hh Hhdir. unfold silent.
  unfold Script.main, ReportPower.main, PowerWalk.main, ReportRaid.main,
    ReportFans.main, ReportTemperature.main, ReportDeviceType.main, run_report,
    Script.get_power_metrics, ReportPower.get_power_metrics.
  repeat split; intros (e & He);
    destruct (collect_raises _ s d h e Hd Hdir Hh Hhdir He) as (e' & Hc);
    rewrite Hc; now exists e'.
Qed.

Lemma failing_host_silences_report_witness :
  (exists r, ReportFans.get_fan_metrics (entry_files node_1) "node-1" "dc1" = Ok r) /\
  silent (ReportFans.main plain_formatter dump_with_broken_host).
Proof.
  split; [eexists; vm_compute; reflexivity|].
  apply (proj1 (proj2 (failing_host_silences_report plain_formatter dump_with_broken_host
           {| dc_name := "dc1"; dc_is_dir := true; dc_listing := [node_3; node_1] |}
           node_3 (or_introl eq_refl) eq_refl (or_introl eq_refl) eq_refl))).
  exists AttributeError. vm_compute. reflexivity.
Defined.

(** ** Display *)


Lemma io_for_lines {A : Type} (body : A -> io unit) (g : A -> list string) :
  (forall x out, body x out = ((out ++ g x)%list, Ok tt)) ->
  forall xs out, io_for body xs out = ((out ++ flat_map g xs)%list, Ok tt).
Proof.
  intros Hb xs. induction xs as [|x xs IH]; intros out; simpl.
  - unfold io_ret. now rewrite app_nil_r.
  - unfold io_bind. rewrite Hb, IH. now rewrite <- app_assoc.
Qed.









(** ** Display of the RAID report *)






Example raid_display_numeric_types :
  exists r,
    ReportRaid.get_raid_information numeric_raid_types_host "node-1" "dc1" = Ok r /\
    ReportRaid.raid_capable r = true /\
    ReportRaid.display plain_formatter r [] =
    (["dc1/node-1: raid_detected=False, raid_capable=True --> RAID supported but not configured"],
     Raise TypeError).
Proof.
  eexists. split; [vm_compute; reflexivity|]. split; reflexivity.
Qed.

(** ** Members that are not objects *)

Lemma safe_get_not_dict (m : json) (k : string) :
  is_dict m = false -> safe_get m [KStr k] JNull = Ok JNull.
Proof.
  destruct m; simpl; try discriminate; reflexivity.
Qed.

Lemma walk_raises_at_member (host : host_dir) (chassis_data members m : json)
  (ms : list json) :
  host ["Chassis.json"] = Ok (Some chassis_data) ->
  py_get chassis_data "Members" (JArr []) = Ok members ->
  py_iter members = Ok ms -> In m ms -> is_dict m = false ->
  truthy members = true /\
  (forall r, exists e, for_each (ReportFans.member_body host) ms r = Raise e) /\
  (forall sg st, exists e, for_each (PowerWalk.member_body sg host) ms st = Raise e).
Proof.
  intros Hc Hm Hi Hin Hd.
  assert (Hraise : py_get m "@odata.id" JNull = Raise AttributeError)
    by (destruct m; try discriminate; reflexivity).
  split; [|split].
  - destruct (truthy members) eqn:Ht; [reflexivity|].
    rewrite (falsy_iter _ _ Ht Hi) in Hin. destruct Hin.
  - intros r. apply (for_each_raises _ m); [|exact Hin].
    intros st. exists AttributeError.
    unfold ReportFans.member_body. now rewrite Hraise.
  - intros sg st. apply (for_each_raises _ m); [|exact Hin].
    intros st0. exists AttributeError.
    unfold PowerWalk.member_body. now rewrite Hraise.
Qed.

(** X25.  A chassis collection that lists something other than an
    object (a number, a string, [null], a list) aborts the fan and the
    power walks, whose [member.get] raises; the temperature, device and
    RAID walks read the member with [safe_get] and skip it, going on
    with the others as if it were not listed. *)
Theorem member_not_an_object
  (host : host_dir) (hn dc : string) (chassis_data members m : json)
  (ms : list json) :
  host ["Chassis.json"] = Ok (Some chassis_data) ->
  py_get chassis_data "Members" (JArr []) = Ok members ->
  py_iter members = Ok ms -> In m ms -> is_dict m = false ->
  (exists e, ReportFans.get_fan_metrics host hn dc = Raise e) /\
  (exists e, ReportPower.get_power_metrics host hn dc = Raise e) /\
  (exists e, Script.get_power_metrics host hn dc = Raise e) /\
  (forall pre post r,
     for_each (ReportTemperature.member_body host) (pre ++ m :: post)%list r =
     for_each (ReportTemperature.member_body host) (pre ++ post)%list r) /\
  (forall pre post r,
     for_each (ReportDeviceType.member_body host) (pre ++ m :: post)%list r =
     for_each (ReportDeviceType.member_body host) (pre ++ post)%list r) /\
  (forall sys dir pre post r,
     for_each (ReportRaid.storage_body host sys dir) (pre ++ m :: post)%list r =
     for_each (ReportRaid.storage_body host sys dir) (pre ++ post)%list r).
Proof.
  intros Hc Hm Hi Hin Hd.
  destruct (walk_raises_at_member host chassis_data members m ms Hc Hm Hi Hin Hd)
    as (Ht & Hf & Hp).
  assert (Hpower : forall sg, exists e,
            PowerWalk.get_power_metrics sg host hn dc = Raise e).
  { intros sg. unfold PowerWalk.get_power_metrics.
    destruct (host ["index.json"]) as [index|e]; cbn [bind]; [|now exists e].
    destruct (match index with
              | Some index_data => sg index_data [KStr "RedfishVersion"] (JStr "NA")
              | None => Ok (JStr "NA")
              end) as [version|e]; cbn [bind]; [|now exists e].
    rewrite Hc. cbn [bind]. rewrite Hm. cbn [bind]. rewrite Ht. cbn [negb].
    rewrite Hi. cbn [bind].
    destruct (Hp sg PowerWalk.initial_state) as (e & ->). now exists e. }
  split; [|split; [|split; [|split; [|split]]]].
  - unfold ReportFans.get_fan_metrics. rewrite Hc. cbn [bind].
    rewrite Hm. cbn [bind].
    rewrite Ht. cbn [negb]. rewrite Hi. cbn [bind]. apply Hf.
  - apply Hpower.
  - apply Hpower.
  - intros pre post r. apply for_each_skip. intros st.
    unfold ReportTemperature.member_body.
    now rewrite (safe_get_not_dict _ _ Hd).
  - intros pre post r. apply for_each_skip. intros st.
    unfold ReportDeviceType.member_body.
    now rewrite (safe_get_not_dict _ _ Hd).
  - intros sys dir pre post r. apply for_each_skip. intros st.
    unfold ReportRaid.storage_body.
    now rewrite (safe_get_not_dict _ _ Hd).
Qed.

Lemma member_not_an_object_witness :
  (exists e, ReportFans.get_fan_metrics broken_members_host "node-3" "dc1" = Raise e) /\
  (exists r,
     ReportTemperature.get_temperature_information broken_members_host "node-3" "dc1"
       = Ok r /\
     ReportTemperature.message r = "No temperature sensors found").
Proof.
  split.
  - apply (member_not_an_object broken_members_host "node-3" "dc1"
             (JObj [("Members", JArr [JInt 1])]) (JArr [JInt 1]) (JInt 1) [JInt 1]);
      try reflexivity.
    now left.
  - eexists. split; vm_compute; reflexivity.
Defined.

